(** * A shallow embedding of the tetromino engine and of its search helpers

    The development follows [game.py] (class [TetrominoGame] and the
    function [get_filled]) and [eval.py] ([find_well], [roughness],
    [get_basic_placements], and, of [GameTree], the candidate inputs and
    the pruning step of [generate_subtrees], [move], [get_surface] and
    [find_holes]).

    Python values are embedded as follows.
    - [int] is [Z].
    - The strings stored in the board, in [held] and in [prev_held] are the
      type [tag]: [blank] is the empty string, [garbage] is ['g'], and
      [shape p] is the letter of a piece.
    - A Python list is a Rocq [list]; indexing follows Python, negative
      indices counting from the end, and an index out of range raises
      [IndexError].
    - A method is a function from the engine state to a [result]: [Ok] with
      the returned value and the new state, [Raise] with the exception the
      interpreter would raise, or [Diverge] when a loop never ends.
    - [randint] is resolved by a sequence of draws given to the method. *)

From Stdlib Require Import ZArith Lia Bool Sorted.
From stdpp Require Import base tactics option list numbers.

Open Scope Z_scope.

(** ** Exceptions *)

Inductive exn := IndexError | TypeError | ValueError.

(** The outcome of running a piece of Python code: it returns a value, it
    raises an exception, or it loops for ever. *)
Inductive result (A : Type) :=
| Ok (a : A)
| Raise (e : exn)
| Diverge.
Arguments Ok {A} a.
Arguments Raise {A} e.
Arguments Diverge {A}.

#[global] Instance result_ret : MRet result := fun A a => Ok a.
#[global] Instance result_bind : MBind result := fun A B k c =>
  match c with
  | Ok a => k a
  | Raise e => Raise e
  | Diverge => Diverge
  end.

#[global] Instance result_fmap : FMap result := fun A B f c =>
  match c with
  | Ok a => Ok (f a)
  | Raise e => Raise e
  | Diverge => Diverge
  end.

(** ** Python lists *)

Module Py.

(** The position in the list that the Python index [i] denotes. *)
Definition index {A} (l : list A) (i : Z) : option nat :=
  let n := Z.of_nat (length l) in
  if (0 <=? i) && (i <? n) then Some (Z.to_nat i)
  else if (- n <=? i) && (i <? 0) then Some (Z.to_nat (n + i))
  else None.

(** [l[i]] *)
Definition get {A} (l : list A) (i : Z) : result A :=
  match index l i with
  | Some k => match l !! k with Some x => Ok x | None => Raise IndexError end
  | None => Raise IndexError
  end.

(** [l[i] = v] *)
Definition set {A} (l : list A) (i : Z) (v : A) : result (list A) :=
  match index l i with
  | Some k => Ok (<[k:=v]> l)
  | None => Raise IndexError
  end.

(** [l.pop(i)], keeping only the remaining list. *)
Definition pop_at {A} (l : list A) (i : Z) : result (list A) :=
  match index l i with
  | Some k => Ok (delete k l)
  | None => Raise IndexError
  end.

(** [range(lo, hi)] *)
Definition range (lo hi : Z) : list Z :=
  map (fun k => lo + Z.of_nat k) (seq 0 (Z.to_nat (hi - lo))).

End Py.

(** ** Pieces, tags and cells *)

Inductive piece := pc_i | pc_o | pc_t | pc_j | pc_l | pc_s | pc_z.

Inductive tag := blank | garbage | shape (p : piece).

Inductive last_action := act_none | act_move | act_rotate | act_lock.

#[global] Instance piece_eq_dec : EqDecision piece.
Proof. solve_decision. Defined.
#[global] Instance tag_eq_dec : EqDecision tag.
Proof. solve_decision. Defined.
#[global] Instance last_action_eq_dec : EqDecision last_action.
Proof. solve_decision. Defined.

(** A cell is [[y, x]]: row first, column second. *)
Abbreviation cell := (Z * Z)%type.

Definition is_blank (t : tag) : bool := bool_decide (t = blank).

(** [piece not in ('o', 'i')] *)
Definition not_o_i (t : tag) : bool :=
  negb (bool_decide (t = shape pc_o) || bool_decide (t = shape pc_i)).

(** ** Piece geometry: [get_filled] *)

Definition get_filled (p : tag) (position : cell) (orientation : Z)
  : option (list cell) :=
  let '(y, x) := position in
  if not_o_i p && (orientation =? 0) && ((y <=? -1) || (x <=? 0) || (x >=? 9)) then None
  else if not_o_i p && (orientation =? 1) && ((y <=? 0) || (x <=? -1) || (x >=? 9)) then None
  else if not_o_i p && (orientation =? 2) && ((y <=? 0) || (x <=? 0) || (x >=? 9)) then None
  else if not_o_i p && (orientation =? 3) && ((y <=? 0) || (x <=? 0) || (x >=? 10)) then None
  else
  match p with
  | shape pc_l =>
      if orientation =? 0 then Some [(y, x - 1); (y, x); (y, x + 1); (y + 1, x + 1)]
      else if orientation =? 1 then Some [(y + 1, x); (y, x); (y - 1, x); (y - 1, x + 1)]
      else if orientation =? 2 then Some [(y - 1, x - 1); (y, x - 1); (y, x); (y, x + 1)]
      else if orientation =? 3 then Some [(y + 1, x - 1); (y + 1, x); (y, x); (y - 1, x)]
      else None
  | shape pc_j =>
      if orientation =? 0 then Some [(y, x - 1); (y, x); (y, x + 1); (y + 1, x - 1)]
      else if orientation =? 1 then Some [(y + 1, x); (y, x); (y - 1, x); (y + 1, x + 1)]
      else if orientation =? 2 then Some [(y - 1, x + 1); (y, x - 1); (y, x); (y, x + 1)]
      else if orientation =? 3 then Some [(y - 1, x - 1); (y + 1, x); (y, x); (y - 1, x)]
      else None
  | shape pc_t =>
      if orientation =? 0 then Some [(y, x - 1); (y, x); (y, x + 1); (y + 1, x)]
      else if orientation =? 1 then Some [(y + 1, x); (y, x); (y - 1, x); (y, x + 1)]
      else if orientation =? 2 then Some [(y, x - 1); (y, x); (y, x + 1); (y - 1, x)]
      else if orientation =? 3 then Some [(y - 1, x); (y, x); (y + 1, x); (y, x - 1)]
      else None
  | shape pc_s =>
      if orientation =? 0 then Some [(y, x - 1); (y, x); (y + 1, x); (y + 1, x + 1)]
      else if orientation =? 1 then Some [(y + 1, x); (y, x + 1); (y, x); (y - 1, x + 1)]
      else if orientation =? 2 then Some [(y, x + 1); (y, x); (y - 1, x); (y - 1, x - 1)]
      else if orientation =? 3 then Some [(y + 1, x - 1); (y, x - 1); (y, x); (y - 1, x)]
      else None
  | shape pc_z =>
      if orientation =? 0 then Some [(y + 1, x - 1); (y + 1, x); (y, x); (y, x + 1)]
      else if orientation =? 1 then Some [(y + 1, x + 1); (y, x + 1); (y, x); (y - 1, x)]
      else if orientation =? 2 then Some [(y, x - 1); (y - 1, x); (y, x); (y - 1, x + 1)]
      else if orientation =? 3 then Some [(y + 1, x); (y, x - 1); (y, x); (y - 1, x - 1)]
      else None
  | shape pc_o =>
      if (x >=? 9) || (x <=? -1) then None
      else if y <=? -1 then None
      else Some [(y, x + 1); (y + 1, x); (y, x); (y + 1, x + 1)]
  | shape pc_i =>
      if (orientation =? 0) && ((x <=? 0) || (x >=? 8) || (y <=? -1)) then None
      else if (orientation =? 2) && ((x <=? 1) || (x >=? 9) || (y <=? -1)) then None
      else if (orientation =? 1) && ((x <=? -1) || (x >=? 10) || (y <=? 1)) then None
      else if (orientation =? 3) && ((x <=? -1) || (x >=? 10) || (y <=? 0)) then None
      else if orientation =? 0 then Some [(y, x - 1); (y, x); (y, x + 1); (y, x + 2)]
      else if orientation =? 1 then Some [(y + 1, x); (y, x); (y - 1, x); (y - 2, x)]
      else if orientation =? 2 then Some [(y, x - 2); (y, x - 1); (y, x); (y, x + 1)]
      else if orientation =? 3 then Some [(y + 2, x); (y + 1, x); (y, x); (y - 1, x)]
      else None
  | _ => None
  end.

(** The cell lies on the 40-row, 10-column board. *)
Definition on_board (c : cell) : Prop := 0 <= c.1 <= 39 /\ 0 <= c.2 <= 9.

(** The cell is in a board column and not below the floor. *)
Definition above_floor (c : cell) : Prop := 0 <= c.1 /\ 0 <= c.2 <= 9.

(** ** The board *)

Abbreviation board_t := (list (list tag)).

(** [[['' for _ in range(0, 10)] for _ in range(0, 40)]] *)
Definition empty_row : list tag := replicate 10 blank.
Definition empty_board : board_t := replicate 40 empty_row.

(** [self.board[pos[0]][pos[1]]] *)
Definition board_get (b : board_t) (pos : cell) : result tag :=
  row ← Py.get b pos.1; Py.get row pos.2.

(** [self.board[pos[0]][pos[1]] = v]; the row object is mutated in place. *)
Definition board_set (b : board_t) (pos : cell) (v : tag) : result board_t :=
  row ← Py.get b pos.1;
  row' ← Py.set row pos.2 v;
  Py.set b pos.1 row'.

(** [for pos in cells: self.board[pos[0]][pos[1]] = v] *)
Fixpoint fill_cells (b : board_t) (cells : list cell) (v : tag) : result board_t :=
  match cells with
  | [] => Ok b
  | pos :: rest => b' ← board_set b pos v; fill_cells b' rest v
  end.

(** [any(self.board[p[0]][p[1]] != '' for p in cells)], stopping at the
    first occupied cell. *)
Fixpoint any_occupied (b : board_t) (cells : list cell) : result bool :=
  match cells with
  | [] => Ok false
  | pos :: rest =>
      v ← board_get b pos;
      if is_blank v then any_occupied b rest else Ok true
  end.

(** [all(self.board[pos[0]][pos[1]] == '' or pos in current for pos in tiled)],
    stopping at the first cell that fails.  [current] is [None] when
    [get_filled] returned [None]; testing membership in it raises. *)
Fixpoint all_free (b : board_t) (current : option (list cell)) (tiled : list cell)
  : result bool :=
  match tiled with
  | [] => Ok true
  | pos :: rest =>
      v ← board_get b pos;
      if is_blank v then all_free b current rest
      else match current with
           | None => Raise TypeError
           | Some cur =>
               if bool_decide (pos ∈ cur) then all_free b current rest else Ok false
           end
  end.

(** Iterating over the value returned by [get_filled]. *)
Definition iter_cells (o : option (list cell)) : result (list cell) :=
  match o with
  | Some cells => Ok cells
  | None => Raise TypeError
  end.

(** ** The engine state *)

Record TetrominoGame := mkGame {
  board : board_t;
  queue : list piece;
  queue_position : Z;
  current_combo : Z;
  back_to_back : bool;
  piece_position : cell;
  piece_orientation : Z;
  hold : bool;
  held : tag;
  prev_held : tag;
  held_index : Z;
  sent_garbage : list Z;
  total_attack : Z;
  pending_garbage : list Z;
  previous_action : last_action;
  game_over : bool
}.

Definition set_board (b : board_t) (g : TetrominoGame) : TetrominoGame :=
  mkGame b (queue g) (queue_position g) (current_combo g) (back_to_back g)
    (piece_position g) (piece_orientation g) (hold g) (held g) (prev_held g)
    (held_index g) (sent_garbage g) (total_attack g) (pending_garbage g)
    (previous_action g) (game_over g).

Definition set_queue_position (n : Z) (g : TetrominoGame) : TetrominoGame :=
  mkGame (board g) (queue g) n (current_combo g) (back_to_back g)
    (piece_position g) (piece_orientation g) (hold g) (held g) (prev_held g)
    (held_index g) (sent_garbage g) (total_attack g) (pending_garbage g)
    (previous_action g) (game_over g).

Definition set_current_combo (n : Z) (g : TetrominoGame) : TetrominoGame :=
  mkGame (board g) (queue g) (queue_position g) n (back_to_back g)
    (piece_position g) (piece_orientation g) (hold g) (held g) (prev_held g)
    (held_index g) (sent_garbage g) (total_attack g) (pending_garbage g)
    (previous_action g) (game_over g).

Definition set_back_to_back (v : bool) (g : TetrominoGame) : TetrominoGame :=
  mkGame (board g) (queue g) (queue_position g) (current_combo g) v
    (piece_position g) (piece_orientation g) (hold g) (held g) (prev_held g)
    (held_index g) (sent_garbage g) (total_attack g) (pending_garbage g)
    (previous_action g) (game_over g).

Definition set_placement (pos : cell) (o : Z) (g : TetrominoGame) : TetrominoGame :=
  mkGame (board g) (queue g) (queue_position g) (current_combo g) (back_to_back g)
    pos o (hold g) (held g) (prev_held g)
    (held_index g) (sent_garbage g) (total_attack g) (pending_garbage g)
    (previous_action g) (game_over g).

Definition set_hold (v : bool) (g : TetrominoGame) : TetrominoGame :=
  mkGame (board g) (queue g) (queue_position g) (current_combo g) (back_to_back g)
    (piece_position g) (piece_orientation g) v (held g) (prev_held g)
    (held_index g) (sent_garbage g) (total_attack g) (pending_garbage g)
    (previous_action g) (game_over g).

Definition set_held (t : tag) (i : Z) (g : TetrominoGame) : TetrominoGame :=
  mkGame (board g) (queue g) (queue_position g) (current_combo g) (back_to_back g)
    (piece_position g) (piece_orientation g) (hold g) t (prev_held g)
    i (sent_garbage g) (total_attack g) (pending_garbage g)
    (previous_action g) (game_over g).

Definition set_prev_held (t : tag) (g : TetrominoGame) : TetrominoGame :=
  mkGame (board g) (queue g) (queue_position g) (current_combo g) (back_to_back g)
    (piece_position g) (piece_orientation g) (hold g) (held g) t
    (held_index g) (sent_garbage g) (total_attack g) (pending_garbage g)
    (previous_action g) (game_over g).

Definition set_sent_garbage (l : list Z) (g : TetrominoGame) : TetrominoGame :=
  mkGame (board g) (queue g) (queue_position g) (current_combo g) (back_to_back g)
    (piece_position g) (piece_orientation g) (hold g) (held g) (prev_held g)
    (held_index g) l (total_attack g) (pending_garbage g)
    (previous_action g) (game_over g).

Definition set_total_attack (n : Z) (g : TetrominoGame) : TetrominoGame :=
  mkGame (board g) (queue g) (queue_position g) (current_combo g) (back_to_back g)
    (piece_position g) (piece_orientation g) (hold g) (held g) (prev_held g)
    (held_index g) (sent_garbage g) n (pending_garbage g)
    (previous_action g) (game_over g).

Definition set_pending_garbage (l : list Z) (g : TetrominoGame) : TetrominoGame :=
  mkGame (board g) (queue g) (queue_position g) (current_combo g) (back_to_back g)
    (piece_position g) (piece_orientation g) (hold g) (held g) (prev_held g)
    (held_index g) (sent_garbage g) (total_attack g) l
    (previous_action g) (game_over g).

Definition set_previous_action (a : last_action) (g : TetrominoGame) : TetrominoGame :=
  mkGame (board g) (queue g) (queue_position g) (current_combo g) (back_to_back g)
    (piece_position g) (piece_orientation g) (hold g) (held g) (prev_held g)
    (held_index g) (sent_garbage g) (total_attack g) (pending_garbage g)
    a (game_over g).

Definition set_game_over (v : bool) (g : TetrominoGame) : TetrominoGame :=
  mkGame (board g) (queue g) (queue_position g) (current_combo g) (back_to_back g)
    (piece_position g) (piece_orientation g) (hold g) (held g) (prev_held g)
    (held_index g) (sent_garbage g) (total_attack g) (pending_garbage g)
    (previous_action g) v.

(** [self.queue[i]] *)
Definition queue_at (g : TetrominoGame) (i : Z) : result tag :=
  p ← Py.get (queue g) i; Ok (shape p).

(** ** Spawning *)

Definition get_piece (g : TetrominoGame) (pos : Z) : result tag :=
  if negb (hold g) || negb (pos =? 0) then queue_at g (queue_position g + pos)
  else if held_index g + 1 =? queue_position g then queue_at g (queue_position g + pos)
  else Ok (prev_held g).

Definition next_piece (g : TetrominoGame) : result TetrominoGame :=
  let g := set_queue_position (queue_position g + 1) g in
  let g := set_placement (19, 4) 0 g in
  p ← get_piece g 0;
  filled ← iter_cells (get_filled p (piece_position g) (piece_orientation g));
  hit ← any_occupied (board g) filled;
  let g := if (hit : bool) then set_game_over true g else g in
  b ← fill_cells (board g) filled p;
  Ok (set_board b g).

(** ** Translation *)

Definition change_board (g : TetrominoGame) (new_pos : cell) (new_orientation : Z)
  : result TetrominoGame :=
  p ← get_piece g 0;
  current ← iter_cells (get_filled p (piece_position g) (piece_orientation g));
  b ← fill_cells (board g) current blank;
  new ← iter_cells (get_filled p new_pos new_orientation);
  b ← fill_cells b new p;
  Ok (set_board b g).

(** One candidate placement, as every branch of the move and rotate methods
    tries it: the new footprint must exist and be free of foreign cells;
    then the board, the orientation, the anchor and the last action are
    updated.  [None] means the candidate was refused. *)
Definition try_place (g : TetrominoGame) (p : tag) (current : option (list cell))
    (new_pos : cell) (new_orientation : Z) (act : last_action)
  : result (option TetrominoGame) :=
  match get_filled p new_pos new_orientation with
  | None => Ok None
  | Some tiled =>
      free ← all_free (board g) current tiled;
      if free : bool then
        g ← change_board g new_pos new_orientation;
        Ok (Some (set_previous_action act (set_placement new_pos new_orientation g)))
      else Ok None
  end.

Inductive move_status := moved | not_moved.

Definition try_move (dy dx : Z) (g : TetrominoGame)
  : result (move_status * TetrominoGame) :=
  p ← get_piece g 0;
  let current := get_filled p (piece_position g) (piece_orientation g) in
  let '(y, x) := piece_position g in
  r ← try_place g p current (y + dy, x + dx) (piece_orientation g) act_move;
  match r with
  | Some g' => Ok (moved, g')
  | None => Ok (not_moved, g)
  end.

Definition move_left : TetrominoGame -> result (move_status * TetrominoGame) :=
  try_move 0 (-1).
Definition move_right : TetrominoGame -> result (move_status * TetrominoGame) :=
  try_move 0 1.
Definition move_down : TetrominoGame -> result (move_status * TetrominoGame) :=
  try_move (-1) 0.

(** [for _ in range(0, n): if self.move_down() == 'not moved': return] *)
Fixpoint drop_loop (n : nat) (g : TetrominoGame) : result TetrominoGame :=
  match n with
  | O => Ok g
  | S n' =>
      '(st, g') ← move_down g;
      match st with
      | not_moved => Ok g'
      | moved => drop_loop n' g'
      end
  end.

Definition soft_drop (g : TetrominoGame) : result TetrominoGame := drop_loop 40 g.

(** ** Rotation

    [rotate_cw] and [rotate_ccw] are written out in the source as one block
    per piece family and orientation, each block trying five candidates in
    turn and returning at the first that fits.  The tables below list, for
    each block, the candidates in the order of the source: row offset,
    column offset and new orientation.  The square piece has no block. *)

Definition kick : Type := Z * Z * Z.

Definition kicks_cw (p : tag) (o : Z) : list kick :=
  if not_o_i p then
    if o =? 0 then [(0, 0, 1); (0, -1, 1); (1, -1, 1); (-2, 0, 1); (-2, -1, 1)]
    else if o =? 1 then [(0, 0, 2); (0, 1, 2); (-1, 1, 2); (2, 0, 2); (2, 1, 2)]
    else if o =? 2 then [(0, 0, 3); (0, 1, 3); (1, 1, 3); (-2, 0, 3); (-2, 1, 3)]
    else if o =? 3 then [(0, 0, 0); (0, -1, 0); (-1, -1, 0); (2, 0, 0); (2, -1, 0)]
    else []
  else if bool_decide (p = shape pc_i) then
    if o =? 0 then [(0, 1, 1); (0, -1, 1); (0, 2, 1); (-1, -1, 1); (2, 2, 1)]
    else if o =? 1 then [(-1, 0, 2); (-1, -1, 2); (-1, 2, 2); (1, -1, 2); (-2, 2, 2)]
    else if o =? 2 then [(0, -1, 3); (0, 1, 3); (0, -2, 3); (1, 1, 3); (-2, -2, 3)]
    else if o =? 3 then [(1, 0, 0); (1, 1, 0); (1, -2, 0); (-1, 1, 0); (2, -2, 0)]
    else []
  else [].

Definition kicks_ccw (p : tag) (o : Z) : list kick :=
  if not_o_i p then
    if o =? 0 then [(0, 0, 3); (0, 1, 3); (1, 1, 3); (-2, 0, 3); (-2, 1, 3)]
    else if o =? 3 then [(0, 0, 2); (0, -1, 2); (-1, -1, 2); (2, 0, 2); (2, -1, 2)]
    else if o =? 2 then [(0, 0, 1); (0, -1, 1); (1, -1, 1); (-2, 0, 1); (-2, -1, 1)]
    else if o =? 1 then [(0, 0, 0); (0, 1, 0); (-1, 1, 0); (2, 0, 0); (2, 1, 0)]
    else []
  else if bool_decide (p = shape pc_i) then
    if o =? 0 then [(-1, 0, 3); (-1, -1, 3); (-1, 2, 3); (1, -1, 3); (-2, 2, 3)]
    else if o =? 3 then [(1, 0, 2); (-1, 0, 2); (2, 0, 2); (-1, -1, 2); (2, 2, 2)]
    else if o =? 2 then [(1, 0, 1); (1, 1, 1); (1, -2, 1); (-1, 1, 1); (2, -2, 1)]
    else if o =? 1 then [(0, -1, 0); (0, 1, 0); (0, -2, 0); (1, 1, 0); (-2, -2, 0)]
    else []
  else [].

(** The candidates of one block, tried in order; the method returns at the
    first success and, when all fail, returns with the state as it was. *)
Fixpoint try_kicks (g : TetrominoGame) (p : tag) (current : option (list cell))
    (cands : list kick) : result TetrominoGame :=
  match cands with
  | [] => Ok g
  | (dy, dx, o') :: rest =>
      r ← try_place g p current
            ((piece_position g).1 + dy, (piece_position g).2 + dx) o' act_rotate;
      match r with
      | Some g' => Ok g'
      | None => try_kicks g p current rest
      end
  end.

Definition rotate_cw (g : TetrominoGame) : result TetrominoGame :=
  p ← get_piece g 0;
  let current := get_filled p (piece_position g) (piece_orientation g) in
  try_kicks g p current (kicks_cw p (piece_orientation g)).

Definition rotate_ccw (g : TetrominoGame) : result TetrominoGame :=
  p ← get_piece g 0;
  let current := get_filled p (piece_position g) (piece_orientation g) in
  try_kicks g p current (kicks_ccw p (piece_orientation g)).

(** ** Hold *)

Definition hold_piece (g : TetrominoGame) : result TetrominoGame :=
  if hold g then Ok g
  else
    p ← get_piece g 0;
    current ← iter_cells (get_filled p (piece_position g) (piece_orientation g));
    b ← fill_cells (board g) current blank;
    let g := set_board b g in
    if bool_decide (held g = blank) then
      h ← queue_at g (queue_position g);
      let g := set_held h (queue_position g) g in
      g ← next_piece g;
      Ok (set_hold true g)
    else
      let g := set_prev_held (held g) g in
      let g := set_hold true g in
      g ← next_piece g;
      let g := set_queue_position (queue_position g - 1) g in
      h ← queue_at g (queue_position g);
      Ok (set_held h (queue_position g) g).

(** ** Garbage *)

(** [garbage = ['g' for x in range(0, 10)]; garbage[random] = ''], where
    [random = randint(0, 9)] is the draw [r] reduced to the range 0..9. *)
Definition garbage_row (r : nat) : list tag :=
  <[(r mod 10)%nat := blank]> (replicate 10 garbage).

(** [self.board.insert(0, garbage.copy()); self.board.pop()]; the list is
    not empty after the insertion, so [pop] always succeeds. *)
Definition push_row (row : list tag) (b : board_t) : board_t :=
  removelast (row :: b).

Definition accept_pending (r : nat) (no_lines : Z) (b : board_t) : board_t :=
  Nat.iter (Z.to_nat no_lines) (push_row (garbage_row r)) b.

(** [while self.pending_garbage != []: self.accept_pending(self.pending_garbage.pop(0))];
    the [k]-th call of [accept_pending] in this lock sees the draw [rnd k].
    The queue is empty when the loop ends. *)
Fixpoint drain_pending (rnd : nat -> nat) (k : nat) (pending : list Z) (b : board_t)
  : board_t :=
  match pending with
  | [] => b
  | n :: rest => drain_pending rnd (S k) rest (accept_pending (rnd k) n b)
  end.

(** ** Line and spin detection *)

Definition row_full (row : list tag) : bool := forallb (fun v => negb (is_blank v)) row.

Fixpoint scan_rows (b : board_t) (rows : list Z) : result (list Z) :=
  match rows with
  | [] => Ok []
  | i :: rest =>
      row ← Py.get b i;
      tiled ← scan_rows b rest;
      Ok (if row_full row then i :: tiled else tiled)
  end.

Definition check_tiled (g : TetrominoGame) : result (list Z) :=
  let y := (piece_position g).1 in
  scan_rows (board g) (Py.range (y - 3) (y + 4)).

Inductive spin_kind := spin_no | spin_mini | spin_t.

#[global] Instance spin_kind_eq_dec : EqDecision spin_kind.
Proof. solve_decision. Defined.

(** [self.board[y][x] != ''] *)
Definition filled_at (g : TetrominoGame) (y x : Z) : result bool :=
  v ← board_get (board g) (y, x); Ok (negb (is_blank v)).

Definition check_t_spin (g : TetrominoGame) : result spin_kind :=
  if negb (bool_decide (previous_action g = act_rotate)) then Ok spin_no
  else
    let '(y, x) := piece_position g in
    if x =? 0 then
      lo ← filled_at g (y - 1) (x + 1);
      hi ← filled_at g (y + 1) (x + 1);
      Ok (if lo && hi then spin_t else if lo || hi then spin_mini else spin_no)
    else if x =? 9 then
      lo ← filled_at g (y - 1) (x - 1);
      hi ← filled_at g (y + 1) (x - 1);
      Ok (if lo && hi then spin_t else if lo || hi then spin_mini else spin_no)
    else if y =? 0 then
      tr ← filled_at g (y + 1) (x + 1);
      if tr : bool then Ok spin_mini
      else
        tl ← filled_at g (y + 1) (x - 1);
        Ok (if tl : bool then spin_mini else spin_no)
    else
      tr ← filled_at g (y + 1) (x + 1);
      tl ← filled_at g (y + 1) (x - 1);
      br ← filled_at g (y - 1) (x + 1);
      bl ← filled_at g (y - 1) (x - 1);
      let missing (f : bool) : nat := if f then 0%nat else 1%nat in
      let o := piece_orientation g in
      if (1 <? missing tr + missing tl + missing br + missing bl)%nat then Ok spin_no
      else if (o =? 0) && (negb tr || negb tl) then Ok spin_mini
      else if (o =? 1) && (negb tr || negb br) then Ok spin_mini
      else if (o =? 2) && (negb bl || negb br) then Ok spin_mini
      else if (o =? 3) && (negb bl || negb tl) then Ok spin_mini
      else Ok spin_t.

(** ** Lock *)

Definition COMBO_TABLE : list Z := [0; 0; 1; 1; 1; 2; 2; 3; 3; 4; 4; 4; 5].
Definition ATTACK_TABLE : list Z := [0; 1; 2; 4; 0; 2; 4; 6; 10].
Definition B2B_BONUS : Z := 1.

(** The clear keeps the back-to-back streak: [len(tiled) == 4 or spin == 't'
    or spin == 'mini']. *)
Definition qualifies (n : Z) (spin : spin_kind) : bool :=
  (n =? 4) || bool_decide (spin = spin_t) || bool_decide (spin = spin_mini).

(** The block under [# add b2b bonus]: the bonus added to the attack and
    the new value of the flag. *)
Definition b2b_step (b2b : bool) (n : Z) (spin : spin_kind) : Z * bool :=
  if qualifies n spin then
    if b2b then
      if negb (bool_decide (spin = spin_mini)) || (n >=? 2) then (B2B_BONUS, b2b)
      else (0, b2b)
    else (0, true)
  else (0, false).

(** The block under [# add attack based on type of clear]: the index into the
    attack table, which is also the placement type. *)
Definition clear_index (n : Z) (spin : spin_kind) : Z :=
  if bool_decide (spin = spin_t) || (bool_decide (spin = spin_mini) && (n >=? 2)) then n + 4
  else if bool_decide (spin = spin_mini) then 4
  else n - 1.

(** [for i in range(0, len(tiled)): self.board.pop(tiled[len(tiled) - i - 1]);
    self.board.append(['' for _ in range(0, 10)])], given the rows in the
    order in which they are popped. *)
Fixpoint remove_rows (b : board_t) (rows : list Z) : result board_t :=
  match rows with
  | [] => Ok b
  | i :: rest => b' ← Py.pop_at b i; remove_rows (b' ++ [empty_row]) rest
  end.

(** [all(all(item == '' for item in row) for row in self.board)] *)
Definition all_clear (b : board_t) : bool := forallb (forallb is_blank) b.

(** The loop under [# garbage cancelling].  Each round either pops the head
    of the queue or lowers it; [fuel] bounds the number of rounds, and
    running out of it stands for a loop that does not end. *)
Fixpoint cancel_loop (fuel : nat) (attack : Z) (pending : list Z)
  : result (Z * list Z) :=
  match fuel with
  | O => Diverge
  | S fuel' =>
      if attack =? 0 then Ok (attack, pending)
      else match pending with
           | [] => Ok (attack, pending)
           | p :: rest =>
               if p <=? attack then cancel_loop fuel' (attack - p) rest
               else cancel_loop fuel' attack ((p - attack) :: rest)
           end
  end.

(** Rounds that suffice whenever the loop ends: a round shortens the queue
    or lowers a positive head by at least one. *)
Definition cancel_fuel (pending : list Z) : nat :=
  S (length pending + Z.to_nat (foldr (fun p acc => Z.max p 0 + acc) 0 pending)).

Definition cancel_garbage (attack : Z) (pending : list Z) : result (Z * list Z) :=
  cancel_loop (cancel_fuel pending) attack pending.

Definition lock_outcome : Type := Z * list Z * Z.

(** The [else] branch of [lock_piece]: at least one row is full. *)
Definition lock_clear (g : TetrominoGame) (spin : spin_kind) (tiled : list Z)
  : result (Z * Z * TetrominoGame) :=
  let n := Z.of_nat (length tiled) in
  let '(bonus, b2b) := b2b_step (back_to_back g) n spin in
  let g := set_back_to_back b2b g in
  base ← Py.get ATTACK_TABLE (clear_index n spin);
  let g := set_current_combo (current_combo g + 1) g in
  combo ← Py.get COMBO_TABLE (Z.min (current_combo g) 12);
  b ← remove_rows (board g) (rev tiled);
  let g := set_board b g in
  '(attack, placement_type) ←
     (if all_clear b then v ← Py.get ATTACK_TABLE 8; Ok (v, 8)
      else Ok (bonus + base + combo, clear_index n spin));
  '(unspent, pending) ← cancel_garbage attack (pending_garbage g);
  let g := set_pending_garbage pending g in
  let g := if unspent =? 0 then g else set_sent_garbage (sent_garbage g ++ [unspent]) g in
  Ok (attack, placement_type, g).

(** The [if tiled == []] branch of [lock_piece]. *)
Definition lock_no_clear (rnd : nat -> nat) (g : TetrominoGame) : TetrominoGame :=
  let g := set_current_combo (-1) g in
  let b := drain_pending rnd 0 (pending_garbage g) (board g) in
  set_pending_garbage [] (set_board b g).

(** The block under [# check spin]. *)
Definition detect_spin (g : TetrominoGame) : result spin_kind :=
  p ← get_piece g 0;
  if bool_decide (p = shape pc_t) then check_t_spin g else Ok spin_no.

Definition lock_piece (rnd : nat -> nat) (g : TetrominoGame)
  : result (lock_outcome * TetrominoGame) :=
  let g := set_hold false g in
  spin ← detect_spin g;
  tiled ← check_tiled g;
  '(raw_attack, placement_type, g) ←
     (match tiled with
      | [] => Ok (0, -1, lock_no_clear rnd g)
      | _ => lock_clear g spin tiled
      end);
  let g := set_previous_action act_lock g in
  g ← next_piece g;
  Ok ((raw_attack, tiled, placement_type),
      set_total_attack (total_attack g + raw_attack) g).

Definition hard_drop (rnd : nat -> nat) (g : TetrominoGame)
  : result (lock_outcome * TetrominoGame) :=
  g ← soft_drop g; lock_piece rnd g.

(** ** Construction *)

Definition new_game (q : list piece) : result TetrominoGame :=
  g ← next_piece
        (mkGame empty_board q (-1) (-1) false (0, 0) 0 false blank blank (-1)
           [] 0 [] act_none false);
  Ok (set_total_attack 0 g).

(** ** The action surface *)

Inductive action :=
| MoveLeft | MoveRight | MoveDown | SoftDrop | Hold | RotateCW | RotateCCW
| HardDrop (rnd : nat -> nat)
| Lock (rnd : nat -> nat).

Definition step (a : action) (g : TetrominoGame) : result TetrominoGame :=
  match a with
  | MoveLeft => snd <$> move_left g
  | MoveRight => snd <$> move_right g
  | MoveDown => snd <$> move_down g
  | SoftDrop => soft_drop g
  | Hold => hold_piece g
  | RotateCW => rotate_cw g
  | RotateCCW => rotate_ccw g
  | HardDrop rnd => snd <$> hard_drop rnd g
  | Lock rnd => snd <$> lock_piece rnd g
  end.

Fixpoint run (acts : list action) (g : TetrominoGame) : result TetrominoGame :=
  match acts with
  | [] => Ok g
  | a :: rest => g' ← step a g; run rest g'
  end.

(** A state that a game started from some queue reaches by engine calls. *)
Definition reachable (g : TetrominoGame) : Prop :=
  exists q acts g0, new_game q = Ok g0 /\ run acts g0 = Ok g.

(** ** The evaluator's helpers ([eval.py]) *)

(** The loop of [find_well]: [deepest] is read once before the loop and is
    not assigned in it. *)
Fixpoint find_well_loop (surface : list Z) (deepest : Z) (idx : list Z) (well : Z)
  : result Z :=
  match idx with
  | [] => Ok well
  | i :: rest =>
      v ← Py.get surface i;
      find_well_loop surface deepest rest (if deepest >=? v then i else well)
  end.

Definition find_well (surface : list Z) : result (Z * Z) :=
  deepest ← Py.get surface 0;
  well ← find_well_loop surface deepest (Py.range 1 (Z.of_nat (length surface))) 0;
  Ok (well, deepest).

(** [min(l)] *)
Definition py_min (l : list Z) : result Z :=
  match l with
  | [] => Raise ValueError
  | x :: rest => Ok (foldl Z.min x rest)
  end.

(** [l.index(v)]: the first position holding [v]. *)
Fixpoint py_index_of (v : Z) (l : list Z) : result nat :=
  match l with
  | [] => Raise ValueError
  | x :: rest => if x =? v then Ok 0%nat else k ← py_index_of v rest; Ok (S k)
  end.

(** [[l[i] for i in idx]] *)
Fixpoint gather {A} (l : list A) (idx : list Z) : result (list A) :=
  match idx with
  | [] => Ok []
  | i :: rest => x ← Py.get l i; xs ← gather l rest; Ok (x :: xs)
  end.

(** The loop of the pruning step over [k in range(n, len(self.subtrees))];
    [scores] holds the raw score of every generated child, in the order of
    generation.  Raw scores are compared only with [>] and [min]; they are
    taken here as integers. *)
Fixpoint prune_loop (scores : list Z) (ks : list Z)
    (max_n_index : list Z) (max_n_score : list Z) : result (list Z * list Z) :=
  match ks with
  | [] => Ok (max_n_index, max_n_score)
  | k :: rest =>
      s ← Py.get scores k;
      m ← py_min max_n_score;
      if s >? m then
        i ← py_index_of m max_n_score;
        prune_loop scores rest (delete i max_n_index ++ [k]) (delete i max_n_score ++ [s])
      else prune_loop scores rest max_n_index max_n_score
  end.

(** The indices [max_n_index] that the pruning step keeps. *)
Definition prune_indices (best_n : Z) (scores : list Z) : result (list Z) :=
  let len := Z.of_nat (length scores) in
  let n := Z.min best_n len in
  let max_n_index := Py.range 0 n in
  max_n_score ← gather scores max_n_index;
  '(idx, _) ← prune_loop scores (Py.range n len) max_n_index max_n_score;
  Ok idx.

(** [self.subtrees = [self.subtrees[i] for i in max_n_index]] *)
Definition prune {A} (best_n : Z) (raw_score : A -> Z) (subtrees : list A)
  : result (list A) :=
  idx ← prune_indices best_n (map raw_score subtrees);
  gather subtrees idx.

(** ** Notions used in the statements *)

(** The representation invariant on the board: 40 rows of 10 cells. *)
Definition board_dims (b : board_t) : Prop :=
  length b = 40%nat /\ Forall (fun row => length row = 10%nat) b.

(** The content of a cell, when the cell exists; a reading aid for
    [board_get] on cells with no negative coordinate. *)
Definition peek (b : board_t) (c : cell) : option tag :=
  if (0 <=? c.1) && (0 <=? c.2)
  then row ← b !! Z.to_nat c.1; row !! Z.to_nat c.2
  else None.

(** The board with one cell overwritten. *)
Definition upd (b : board_t) (c : cell) (v : tag) : board_t :=
  match b !! Z.to_nat c.1 with
  | Some row => <[Z.to_nat c.1 := <[Z.to_nat c.2 := v]> row]> b
  | None => b
  end.

#[global] Instance exn_eq_dec : EqDecision exn.
Proof. solve_decision. Defined.
#[global] Instance result_eq_dec {A} `{EqDecision A} : EqDecision (result A).
Proof. solve_decision. Defined.
#[global] Instance move_status_eq_dec : EqDecision move_status.
Proof. solve_decision. Defined.

(** The rule a placement has to meet: the footprint exists and each of its
    cells is an empty cell of the board or a cell of the current footprint. *)
Definition cell_free (b : board_t) (cur : list cell) (c : cell) : bool :=
  bool_decide (board_get b c = Ok blank) || bool_decide (c ∈ cur).

Definition placeable (b : board_t) (cur : list cell) (target : option (list cell)) : bool :=
  match target with
  | Some cells => forallb (cell_free b cur) cells
  | None => false
  end.

(** The footprint of a rotation candidate. *)
Definition kick_target (g : TetrominoGame) (p : tag) (k : kick) : option (list cell) :=
  get_filled p ((piece_position g).1 + k.1.1, (piece_position g).2 + k.1.2) k.2.

(** The active piece is drawn on the board at its footprint. *)
Definition piece_drawn (g : TetrominoGame) : Prop :=
  exists p cur,
    get_piece g 0 = Ok p /\
    get_filled p (piece_position g) (piece_orientation g) = Some cur /\
    Forall (fun c => board_get (board g) c = Ok p) cur.

(** The state at the moment [next_piece] looks up the piece to spawn: the
    cursor advanced, the anchor and the orientation reset. *)
Definition advance (g : TetrominoGame) : TetrominoGame :=
  set_placement (19, 4) 0 (set_queue_position (queue_position g + 1) g).


(** The garbage rows that a no-clear lock puts under the stack: the rows of
    the entry drained last lie lowest. *)
Fixpoint garbage_stack (rnd : nat -> nat) (k : nat) (pending : list Z) : list (list tag) :=
  match pending with
  | [] => []
  | n :: rest =>
      garbage_stack rnd (S k) rest ++ replicate (Z.to_nat n) (garbage_row (rnd k))
  end.

(** Child [j] comes before child [i] when the best are picked by raw score
    and ties go to the child enumerated earlier. *)
Definition beats (scores : list Z) (j i : nat) : bool :=
  match scores !! j, scores !! i with
  | Some sj, Some si => (si <? sj) || ((si =? sj) && (j <? i)%nat)
  | _, _ => false
  end.

(** The children kept when the [best_n] best are picked that way. *)
Definition kept_favouring_earlier (best_n : Z) (scores : list Z) : list Z :=
  map Z.of_nat
    (filter (fun i => Z.of_nat (length (filter (fun j => beats scores j i = true)
                                               (seq 0 (length scores)))) < best_n)
            (seq 0 (length scores))).

(** ** Example states *)

Module Demo.

Definition e : tag := blank.
Definition x : tag := garbage.
Definition I : tag := shape pc_i.
Definition O : tag := shape pc_o.
Definition T : tag := shape pc_t.

Definition rnd0 : nat -> nat := fun _ => 0%nat.

(** The rows given, lowest first, under empty rows up to row 39. *)
Definition stack (rows : list (list tag)) : board_t :=
  rows ++ replicate (40 - length rows) empty_row.

(** A vertical bar completing three rows, with five lines of garbage pending. *)
Definition cancel_state : TetrominoGame :=
  mkGame
    (stack [[x; x; x; x; x; x; x; x; x; I];
            [x; x; x; x; x; x; x; x; x; I];
            [x; x; x; x; x; x; x; x; x; I];
            [e; e; e; e; e; e; e; e; e; I]])
    [pc_i; pc_o] 0 (-1) false (2, 9) 1 false blank blank (-1)
    [] 0 [5] act_move false.

(** A square resting on the floor, with two entries of garbage pending. *)
Definition drain_state : TetrominoGame :=
  mkGame
    (stack [[e; e; e; e; O; O; e; e; e; e];
            [e; e; e; e; O; O; e; e; e; e]])
    [pc_o; pc_o] 0 (-1) false (0, 4) 0 false blank blank (-1)
    [] 0 [1; 2] act_move false.

(** A square on the floor and a column of garbage reaching the spawn cell. *)
Definition spawn_state : TetrominoGame :=
  mkGame
    (replicate 2 [e; e; e; e; x; O; O; e; e; e]
     ++ replicate 18 [e; e; e; e; x; e; e; e; e; e]
     ++ replicate 20 empty_row)
    [pc_o; pc_t] 0 (-1) false (0, 5) 0 false blank blank (-1)
    [] 0 [] act_move false.

(** A T piece pointing down in the top row, with garbage under it. *)
Definition ceiling_state : TetrominoGame :=
  mkGame
    (replicate 36 empty_row
     ++ [[e; e; e; e; x; x; e; e; e; e];
         empty_row;
         [e; e; e; e; T; e; e; e; e; e];
         [e; e; e; T; T; T; e; e; e; e]])
    [pc_t; pc_o] 0 (-1) false (39, 4) 2 false blank blank (-1)
    [] 0 [] act_move false.

(** A game in which the first square was dropped two columns to the left
    and the second was lowered beside it. *)
Definition beside_actions : list action :=
  [MoveLeft; MoveLeft; HardDrop rnd0; SoftDrop].

Definition beside_state : TetrominoGame :=
  Eval vm_compute in
    match (g ← new_game [pc_o; pc_o; pc_t]; run beside_actions g) with
    | Ok g => g
    | _ => drain_state
    end.

(** A vertical bar completing four rows over a T slot. *)
Definition tetris_state : TetrominoGame :=
  mkGame
    (stack [[x; x; x; x; x; x; x; x; x; I];
            [x; x; x; x; x; x; x; x; x; I];
            [x; x; x; x; x; x; x; x; x; I];
            [x; x; x; x; x; x; x; x; x; I];
            [x; x; x; x; e; x; x; x; x; x];
            [x; x; x; e; e; e; x; x; x; x];
            [e; e; e; e; e; x; e; e; e; e]])
    [pc_i; pc_t; pc_o] 0 (-1) false (2, 9) 1 false blank blank (-1)
    [] 0 [] act_move false.

(** The state in which the T piece that follows the four-row clear has been
    turned, lowered into the slot and turned back, ready to lock. *)
Definition spin_state : TetrominoGame :=
  Eval vm_compute in
    match ('(_, g) ← lock_piece rnd0 tetris_state; run [RotateCCW; SoftDrop; RotateCW] g) with
    | Ok g => g
    | _ => tetris_state
    end.

(** The states after the locks and moves used as instances below. *)
Definition drain_locked : TetrominoGame :=
  Eval vm_compute in
    match lock_piece rnd0 drain_state with
    | Ok (_, g) => g
    | _ => drain_state
    end.

Definition tetris_locked : TetrominoGame :=
  Eval vm_compute in
    match lock_piece rnd0 tetris_state with
    | Ok (_, g) => g
    | _ => tetris_state
    end.

Definition fresh_state : TetrominoGame :=
  Eval vm_compute in
    match new_game [pc_o; pc_t] with
    | Ok g => g
    | _ => drain_state
    end.


End Demo.

(** ** Auto-shift *)

(** [for _ in range(0, n): move = self.move_left(); if move == 'not moved': return],
    and the same loop over [move_right]. *)
Fixpoint shift_loop (mv : TetrominoGame -> result (move_status * TetrominoGame))
    (n : nat) (g : TetrominoGame) : result TetrominoGame :=
  match n with
  | O => Ok g
  | S n' =>
      '(st, g') ← mv g;
      match st with
      | not_moved => Ok g'
      | moved => shift_loop mv n' g'
      end
  end.

Definition das_left (g : TetrominoGame) : result TetrominoGame := shift_loop move_left 10%nat g.
Definition das_right (g : TetrominoGame) : result TetrominoGame := shift_loop move_right 10%nat g.

(** ** The evaluator's inputs ([eval.py]) *)

(** The input names that the evaluator produces and interprets. *)
Inductive input := in_cw | in_ccw | in_left | in_right | in_hold.

#[global] Instance input_eq_dec : EqDecision input.
Proof. solve_decision. Defined.

Definition get_basic_placements (piece : tag) : list (list input) :=
  let lefts (i : nat) := replicate i in_left in
  let rights (i : nat) := replicate i in_right in
  if bool_decide (piece = shape pc_o) then
    [[]] ++ flat_map (fun i => [lefts i; rights i]) (seq 1%nat 4%nat)
  else if bool_decide (piece = shape pc_i) then
    [[]; [in_cw]]
      ++ flat_map (fun i => [lefts i; rights i; [in_cw] ++ lefts i; [in_cw] ++ rights i])
           (seq 1%nat 3%nat)
      ++ [[in_cw] ++ lefts 4%nat; [in_cw] ++ rights 4%nat; [in_cw] ++ lefts 5%nat]
  else if bool_decide (piece = shape pc_s) || bool_decide (piece = shape pc_z) then
    [[]; [in_cw]]
      ++ flat_map (fun i => [lefts i; rights i]) (seq 1%nat 3%nat)
      ++ [rights 4%nat]
      ++ flat_map (fun i => [[in_cw] ++ lefts i; [in_cw] ++ rights i]) (seq 1%nat 4%nat)
  else
    [[]; [in_cw; in_cw]; [in_cw]; [in_ccw; in_right]]
      ++ flat_map (fun i => [lefts i; rights i;
                             [in_cw; in_cw] ++ lefts i; [in_cw; in_cw] ++ rights i])
           (seq 1%nat 3%nat)
      ++ [rights 4%nat; [in_cw; in_cw] ++ rights 4%nat]
      ++ flat_map (fun i => [[in_cw] ++ lefts i; [in_cw] ++ rights i;
                             [in_ccw] ++ [in_right] ++ lefts i;
                             [in_ccw] ++ [in_right] ++ rights i])
           (seq 1%nat 4%nat).

(** One input, as the loops of [GameTree.move] and [TetrominoAI.make_move]
    dispatch it. *)
Definition press (i : input) (g : TetrominoGame) : result TetrominoGame :=
  match i with
  | in_cw => rotate_cw g
  | in_ccw => rotate_ccw g
  | in_left => snd <$> move_left g
  | in_right => snd <$> move_right g
  | in_hold => hold_piece g
  end.

Fixpoint press_all (inputs : list input) (g : TetrominoGame) : result TetrominoGame :=
  match inputs with
  | [] => Ok g
  | i :: rest => g' ← press i g; press_all rest g'
  end.

(** [GameTree.move]: the inputs, then a soft drop. *)
Definition move (inputs : list input) (g : TetrominoGame) : result TetrominoGame :=
  g' ← press_all inputs g; soft_drop g'.

(** The input sequences of the children that [generate_subtrees] creates,
    in the order of creation.  [possible.extend(possible_hold)] makes the
    hold placements part of [possible]; the second loop then runs over
    [possible_hold] again. *)
Definition child_inputs (g : TetrominoGame) : result (list (list input)) :=
  piece ← queue_at g (queue_position g);
  let possible := get_basic_placements piece in
  let with_hold (t : tag) := map (cons in_hold) (get_basic_placements t) in
  let '(possible, possible_hold) :=
    if negb (bool_decide (held g = blank)) && negb (hold g)
    then (possible ++ with_hold (held g), with_hold (held g))
    else (possible, []) in
  possible_hold ←
    (if bool_decide (held g = blank)
     then nxt ← queue_at g (queue_position g + 1); Ok (with_hold nxt)
     else Ok possible_hold);
  Ok (possible ++ possible_hold).

(** ** The evaluator's measures of the stack *)

Fixpoint roughness_loop (surface : list Z) (idx : list Z) (sum_so_far : Z) : result Z :=
  match idx with
  | [] => Ok sum_so_far
  | i :: rest =>
      a ← Py.get surface i;
      b ← Py.get surface (i - 1);
      roughness_loop surface rest (sum_so_far + Z.abs (a - b))
  end.

Definition roughness (surface : list Z) : result Z :=
  roughness_loop surface (Py.range 0 (Z.of_nat (length surface) - 1)) 0.

(** [[i, j] not in ignore]; [ignore] is what [get_filled] returned, so it
    may be [None], on which [in] raises. *)
Definition not_ignored (ignore : option (list cell)) (c : cell) : result bool :=
  match ignore with
  | Some l => Ok (negb (bool_decide (c ∈ l)))
  | None => Raise TypeError
  end.

(** The inner loop of [get_surface] over the columns of row [i]. *)
Fixpoint surface_row (row : list tag) (ignore : option (list cell)) (i : Z)
    (js : list Z) (highest : list Z) : result (list Z) :=
  match js with
  | [] => Ok highest
  | j :: rest =>
      v ← Py.get row j;
      if is_blank v then surface_row row ignore i rest highest
      else
        keep ← not_ignored ignore (i, j);
        if keep : bool then
          h ← Py.set highest j i;
          surface_row row ignore i rest h
        else surface_row row ignore i rest highest
  end.

Fixpoint surface_rows (b : board_t) (ignore : option (list cell)) (rows : list Z)
    (highest : list Z) : result (list Z) :=
  match rows with
  | [] => Ok highest
  | i :: rest =>
      row ← Py.get b i;
      h ← surface_row row ignore i (Py.range 0 10) highest;
      surface_rows b ignore rest h
  end.

Definition get_surface (g : TetrominoGame) (ignore : option (list cell))
  : result (list Z) :=
  surface_rows (board g) ignore (Py.range 0 40) (replicate 10%nat (-1)).

(** The inner loop of [find_holes] down column [i]. *)
Fixpoint holes_column (b : board_t) (i : Z) (js : list Z) (holes : Z) : result Z :=
  match js with
  | [] => Ok holes
  | j :: rest =>
      v ← board_get b (j, i);
      holes_column b i rest (if is_blank v then holes + 1 else holes)
  end.

Fixpoint holes_loop (b : board_t) (surface : list Z) (cols : list Z) (holes : Z)
  : result Z :=
  match cols with
  | [] => Ok holes
  | i :: rest =>
      s ← Py.get surface i;
      h ← holes_column b i (Py.range 0 s) holes;
      holes_loop b surface rest h
  end.

Definition find_holes (g : TetrominoGame) (surface : list Z) : result Z :=
  holes_loop (board g) surface (Py.range 0 10) 0.

Definition above_floorb (c : cell) : bool := (0 <=? c.1) && (0 <=? c.2) && (c.2 <=? 9).

(** Everything but the board, the placement of the active piece and the last
    action is the same in both states. *)
Definition same_bookkeeping (g g' : TetrominoGame) : Prop :=
  queue g' = queue g /\ queue_position g' = queue_position g /\
  current_combo g' = current_combo g /\ back_to_back g' = back_to_back g /\
  hold g' = hold g /\ held g' = held g /\ prev_held g' = prev_held g /\
  held_index g' = held_index g /\ sent_garbage g' = sent_garbage g /\
  total_attack g' = total_attack g /\ pending_garbage g' = pending_garbage g /\
  game_over g' = game_over g.

(** The actions that only move or turn the active piece. *)
Definition moves_piece_only (a : action) : bool :=
  match a with
  | MoveLeft | MoveRight | MoveDown | SoftDrop | RotateCW | RotateCCW => true
  | Hold | HardDrop _ | Lock _ => false
  end.

(** How the hold bookkeeping stands between two locks: with the hold still
    available the held index lies before the cursor; once it is used the
    index is at the cursor or just before it. *)
Definition hold_ok (g : TetrominoGame) : Prop :=
  if hold g
  then held_index g + 1 = queue_position g \/ held_index g = queue_position g
  else held_index g < queue_position g.

(** The rows of a board whose index, counted from [i], is not listed, in
    their order. *)
Fixpoint rows_except_from (i : nat) (rows : list nat) (b : board_t) : board_t :=
  match b with
  | [] => []
  | row :: rest =>
      if bool_decide (i ∈ rows) then rows_except_from (S i) rows rest
      else row :: rows_except_from (S i) rows rest
  end.

(** The sum of the height changes between neighbouring columns, from left
    to right. *)
Fixpoint steps (l : list Z) : Z :=
  match l with
  | a :: rest =>
      match rest with
      | b :: _ => Z.abs (b - a) + steps rest
      | [] => 0
      end
  | [] => 0
  end.

(** The cell counts for the surface: it exists, is not empty and is not
    among the cells to ignore. *)
Definition counted (b : board_t) (ignore : list cell) (c : cell) : bool :=
  match peek b c with
  | Some v => negb (is_blank v) && negb (bool_decide (c ∈ ignore))
  | None => false
  end.

(** The highest row below row [k] whose cell in column [j] counts, or -1. *)
Fixpoint top_below (b : board_t) (ignore : list cell) (j : nat) (k : nat) : Z :=
  match k with
  | O => -1
  | S k' =>
      if counted b ignore (Z.of_nat k', Z.of_nat j) then Z.of_nat k'
      else top_below b ignore j k'
  end.

(** The engine call that an input name stands for. *)
Definition input_action (i : input) : action :=
  match i with
  | in_cw => RotateCW
  | in_ccw => RotateCCW
  | in_left => MoveLeft
  | in_right => MoveRight
  | in_hold => Hold
  end.

(** ** More example states *)

Module Sample.

(** A game that starts with a T piece. *)
Definition t_state : TetrominoGame :=
  Eval vm_compute in
    match new_game [pc_t; pc_o; pc_i] with
    | Ok g => g
    | _ => Demo.fresh_state
    end.

Definition t_cw : TetrominoGame :=
  Eval vm_compute in
    match rotate_cw t_state with
    | Ok g => g
    | _ => t_state
    end.

Definition t_ccw : TetrominoGame :=
  Eval vm_compute in
    match rotate_ccw t_state with
    | Ok g => g
    | _ => t_state
    end.

(** The square of [Demo.fresh_state] against the left wall, against the
    right wall and on the floor. *)
Definition left_wall : TetrominoGame :=
  Eval vm_compute in
    match das_left Demo.fresh_state with
    | Ok g => g
    | _ => Demo.fresh_state
    end.

Definition right_wall : TetrominoGame :=
  Eval vm_compute in
    match das_right Demo.fresh_state with
    | Ok g => g
    | _ => Demo.fresh_state
    end.

Definition on_floor : TetrominoGame :=
  Eval vm_compute in
    match soft_drop Demo.fresh_state with
    | Ok g => g
    | _ => Demo.fresh_state
    end.

(** The T piece held, the square dropped and locked, and the hold used a
    second time. *)
Definition t_held : TetrominoGame :=
  Eval vm_compute in
    match hold_piece t_state with
    | Ok g => g
    | _ => t_state
    end.

Definition t_held_locked : TetrominoGame :=
  Eval vm_compute in
    match hard_drop Demo.rnd0 t_held with
    | Ok (_, g) => g
    | _ => t_state
    end.

Definition t_swapped : TetrominoGame :=
  Eval vm_compute in
    match hold_piece t_held_locked with
    | Ok g => g
    | _ => t_state
    end.

(** The state [Demo.beside_state] after the evaluator's move "right, right"
    and its soft drop. *)
Definition beside_moved : TetrominoGame :=
  Eval vm_compute in
    match move [in_right; in_right] Demo.beside_state with
    | Ok g => g
    | _ => Demo.beside_state
    end.

(** The inputs of the children that the evaluator generates with the T
    piece held and the hold available. *)
Definition children : list (list input) :=
  Eval vm_compute in
    match child_inputs t_held_locked with
    | Ok l => l
    | _ => []
    end.

End Sample.

(** * Properties *)

(** ** Piece geometry *)

Ltac bool_hyps :=
  repeat match goal with
    | H : _ || _ = false |- _ => apply orb_false_elim in H; destruct H
    | H : _ && _ = true |- _ => apply andb_prop in H; destruct H
    | H : (_ <=? _) = false |- _ => apply Z.leb_gt in H
    | H : (_ <=? _) = true |- _ => apply Z.leb_le in H
    | H : (_ <? _) = false |- _ => apply Z.ltb_ge in H
    | H : (_ <? _) = true |- _ => apply Z.ltb_lt in H
    | H : (_ >=? _) = false |- _ => rewrite Z.geb_leb in H
    | H : (_ >=? _) = true |- _ => rewrite Z.geb_leb in H
    | H : (_ =? _) = true |- _ => apply Z.eqb_eq in H
    | H : (_ =? _) = false |- _ => apply Z.eqb_neq in H
    end.

Ltac split_orientation o :=
  destruct (Z.eqb_spec o 0) as [->|?];
  [|destruct (Z.eqb_spec o 1) as [->|?];
    [|destruct (Z.eqb_spec o 2) as [->|?];
      [|destruct (Z.eqb_spec o 3) as [->|?]]]].

(** The cells of a footprint lie within two rows and two columns of the
    anchor, in a board column and not below the floor. *)
Lemma get_filled_bounds (p : tag) (y x o : Z) (cells : list cell) :
  get_filled p (y, x) o = Some cells ->
  length cells = 4%nat /\
  Forall (fun c => 0 <= c.1 /\ 0 <= c.2 <= 9 /\
                   y - 2 <= c.1 <= y + 2 /\ x - 2 <= c.2 <= x + 2) cells.
Proof.
  unfold get_filled.
  destruct p as [| |[]]; cbn [not_o_i bool_decide decide_rel negb orb andb];
    split_orientation o; simpl; intros Hcells;
    repeat case_match; try discriminate;
    injection Hcells as <-; bool_hyps;
    (split; [reflexivity | repeat apply Forall_cons; try apply Forall_nil; simpl; lia]).
Qed.

(** Moving the anchor moves the footprint with it. *)
Lemma get_filled_shift (p : tag) (y x dy dx o : Z) (cur tiled : list cell) :
  get_filled p (y, x) o = Some cur ->
  get_filled p (y + dy, x + dx) o = Some tiled ->
  tiled = map (fun c => (c.1 + dy, c.2 + dx)) cur.
Proof.
  unfold get_filled.
  destruct p as [| |[]]; cbn [not_o_i bool_decide decide_rel negb orb andb];
    split_orientation o; simpl; intros Hcur Htiled;
    repeat case_match; try discriminate;
    injection Hcur as <-; injection Htiled as <-; simpl;
    repeat (f_equal; try lia).
Qed.

(** C4, as the code has it: whatever the tag, the anchor and the orientation,
    [get_filled] returns [None] or exactly four cells, each in a column 0..9
    and in a row at or above 0.  Rows have no upper bound. *)
Theorem get_filled_four_cells_above_floor (p : tag) (pos : cell) (o : Z) (cells : list cell) :
  get_filled p pos o = Some cells ->
  length cells = 4%nat /\ Forall above_floor cells.
Proof.
  destruct pos as [y x]. intros H. apply get_filled_bounds in H as [Hlen Hall].
  split; [assumption|]. revert Hall. apply Forall_impl.
  intros c Hc. unfold above_floor. lia.
Qed.

(** C4 at a concrete input. *)
Lemma get_filled_four_cells_witness :
  length [(19, 3); (19, 4); (19, 5); (20, 4)] = 4%nat /\
  Forall above_floor [(19, 3); (19, 4); (19, 5); (20, 4)].
Proof.
  apply (get_filled_four_cells_above_floor (shape pc_t) (19, 4) 0). reflexivity.
Defined.

(** C4, as stated, fails: the T piece anchored in row 39 gets a cell in row 40. *)
Lemma get_filled_leaves_board :
  ~ (forall p pos o cells,
        get_filled p pos o = Some cells -> length cells = 4%nat /\ Forall on_board cells).
Proof.
  intros H. destruct (H (shape pc_t) (39, 4) 0 _ eq_refl) as [_ HF].
  do 3 apply Forall_inv_tail in HF. apply Forall_inv in HF.
  unfold on_board in HF. simpl in HF. lia.
Qed.

(** ** Concrete runs *)

(** C1 fails on the code.  A lock clears three rows for an attack of 2 while
    one entry of 5 lines is pending.  The loop lowers the entry to 3, then,
    the attack not being spent, to 1, then pops it and sends the remaining
    1: nothing is left pending, instead of an entry of 3 and nothing sent. *)
Theorem cancel_spends_attack_twice :
  exists g',
    lock_piece Demo.rnd0 Demo.cancel_state = Ok ((2, [0; 1; 2], 2), g') /\
    pending_garbage Demo.cancel_state = [5] /\
    pending_garbage g' = [] /\
    sent_garbage g' = [1].
Proof. vm_compute. eexists. repeat split. Qed.

(** C5 fails on the code.  The surface has its lowest column at index 1,
    of height 1; [find_well] answers column 2, whose height is 3, and the
    depth 5, which is the height of column 0. *)
Theorem find_well_misses_minimum :
  find_well [5; 1; 3; 9; 9; 9; 9; 9; 9; 9] = Ok (2, 5).
Proof. reflexivity. Qed.

(** The example of the specification for the pruning step. *)
Example prune_example :
  prune_indices 2 [5; 1; 9; 3; 7] = Ok [2; 4] /\
  prune 2 (fun s => s) [5; 1; 9; 3; 7] = Ok [9; 7].
Proof. split; reflexivity. Qed.

(** C9, as stated, fails: children 0 and 1 tie on the score 1, and the
    pruning keeps child 1 and drops child 0. *)
Lemma prune_drops_earlier_tied_child :
  ~ (forall best_n scores idx,
        1 <= best_n < Z.of_nat (length scores) ->
        prune_indices best_n scores = Ok idx ->
        forall i, i ∈ idx <-> i ∈ kept_favouring_earlier best_n scores).
Proof.
  intros H.
  assert (Hlen : 1 <= 2 < Z.of_nat (length [1; 1; 5])) by (simpl; lia).
  pose proof (H 2 [1; 1; 5] [1; 2] Hlen eq_refl 0) as [_ Hin].
  assert (Hkept : (0 : Z) ∈ kept_favouring_earlier 2 [1; 1; 5])
    by (vm_compute; left).
  specialize (Hin Hkept).
  repeat (apply elem_of_cons in Hin as [Hin|Hin]; [discriminate|]).
  by apply elem_of_nil in Hin.
Qed.

(** C2, as stated, fails: a lock that clears nothing empties a pending queue
    of two entries, where the claim keeps the second entry for a later lock. *)
Lemma one_lock_drains_every_entry :
  ~ (forall rnd g out g' n rest,
        lock_piece rnd g = Ok (out, g') ->
        out.1.2 = [] ->
        pending_garbage g = n :: rest ->
        pending_garbage g' = rest).
Proof.
  intros H.
  destruct (lock_piece Demo.rnd0 Demo.drain_state) as [[out g']| |] eqn:E;
    try (vm_compute in E; discriminate).
  pose proof (H Demo.rnd0 Demo.drain_state out g' 1 [2] E) as Hp.
  vm_compute in E. injection E as <- <-.
  specialize (Hp eq_refl eq_refl). discriminate Hp.
Qed.

(** C3, as stated, fails: the T piece spawns onto a garbage cell, and the
    board is written all the same. *)
Lemma spawn_collision_overwrites :
  ~ (forall g g' p cells,
        next_piece g = Ok g' ->
        get_piece (advance g) 0 = Ok p ->
        get_filled p (19, 4) 0 = Some cells ->
        any_occupied (board g) cells = Ok true ->
        board g' = board g).
Proof.
  intros H.
  destruct (next_piece Demo.spawn_state) as [g'| |] eqn:E;
    try (vm_compute in E; discriminate).
  pose proof (H Demo.spawn_state g' (shape pc_t) _ E eq_refl eq_refl eq_refl) as Hb.
  vm_compute in E. injection E as <-.
  apply (f_equal (fun b => board_get b (19, 4))) in Hb.
  vm_compute in Hb. discriminate Hb.
Qed.

(** C6, as stated, fails: the T piece lies in the top rows, none of the five
    candidates of the clockwise rotation can be placed, and the rotation
    raises [IndexError] on the first of them. *)
Lemma rotate_at_ceiling_raises :
  ~ (forall g p cur,
        board_dims (board g) ->
        get_piece g 0 = Ok p ->
        get_filled p (piece_position g) (piece_orientation g) = Some cur ->
        Forall on_board cur ->
        Forall (fun c => board_get (board g) c = Ok p) cur ->
        Forall (fun k => placeable (board g) cur (kick_target g p k) = false)
               (kicks_cw p (piece_orientation g)) ->
        rotate_cw g = Ok g).
Proof.
  intros H.
  assert (Hr : rotate_cw Demo.ceiling_state = Raise IndexError) by reflexivity.
  rewrite (H Demo.ceiling_state (shape pc_t) [(39, 3); (39, 4); (39, 5); (38, 4)]) in Hr.
  - discriminate Hr.
  - split; [reflexivity|]. vm_compute. repeat constructor.
  - reflexivity.
  - reflexivity.
  - unfold on_board. repeat constructor; simpl; lia.
  - repeat constructor.
  - repeat constructor.
Qed.


(** The state used against C8 arises as the claim describes: a lock that
    clears four rows with the back-to-back flag unset sets the flag, and the
    next piece is turned into a slot. *)
Example spin_state_after_four_rows :
  back_to_back Demo.tetris_state = false /\
  exists g1,
    lock_piece Demo.rnd0 Demo.tetris_state = Ok ((4, [0; 1; 2; 3], 3), g1) /\
    back_to_back g1 = true /\
    run [RotateCCW; SoftDrop; RotateCW] g1 = Ok Demo.spin_state.
Proof.
  split; [reflexivity|].
  destruct (lock_piece Demo.rnd0 Demo.tetris_state) as [[out g1]| |] eqn:E;
    try (vm_compute in E; discriminate).
  vm_compute in E. injection E as <- <-.
  eexists. split; [reflexivity|]. split; reflexivity.
Qed.


(** ** Outcomes *)

Lemma bind_Ok {A B} (c : result A) (k : A -> result B) (r : B) :
  c ≫= k = Ok r -> exists a, c = Ok a /\ k a = Ok r.
Proof. destruct c as [a| |]; simpl; intros H; try discriminate. eauto. Qed.

Lemma fmap_Ok {A B} (f : A -> B) (c : result A) (r : B) :
  f <$> c = Ok r -> exists a, c = Ok a /\ r = f a.
Proof. destruct c as [a| |]; simpl; intros H; try discriminate. injection H as <-. eauto. Qed.

Ltac bind_ok H :=
  let a := fresh "a" in
  let E := fresh "E" in
  apply bind_Ok in H as (a & E & H).

(** ** Python lists *)

Lemma Forall_elem_of {A} (P : A -> Prop) (l : list A) (x : A) :
  Forall P l -> x ∈ l -> P x.
Proof. intros H Hx. rewrite Forall_forall in H. by apply H, list_elem_of_In. Qed.

Lemma Py_index_lt {A} (l : list A) (i : Z) (k : nat) :
  Py.index l i = Some k -> (k < length l)%nat.
Proof.
  unfold Py.index. intros H. repeat case_match; simplify_eq; bool_hyps; lia.
Qed.

Lemma Py_get_nonneg {A} (l : list A) (i : Z) :
  0 <= i ->
  Py.get l i = match l !! Z.to_nat i with Some x => Ok x | None => Raise IndexError end.
Proof.
  intros Hi. unfold Py.get, Py.index.
  destruct (0 <=? i) eqn:E0; [|bool_hyps; lia].
  destruct (i <? Z.of_nat (length l)) eqn:E1; simpl; [reflexivity|].
  destruct (i <? 0) eqn:E2; [bool_hyps; lia|].
  rewrite andb_false_r. bool_hyps.
  rewrite (proj2 (lookup_ge_None l (Z.to_nat i))); [reflexivity|lia].
Qed.

Lemma Py_set_nonneg {A} (l : list A) (i : Z) (v : A) :
  0 <= i ->
  Py.set l i v = match l !! Z.to_nat i with
                 | Some _ => Ok (<[Z.to_nat i := v]> l)
                 | None => Raise IndexError
                 end.
Proof.
  intros Hi. unfold Py.set, Py.index.
  destruct (0 <=? i) eqn:E0; [|bool_hyps; lia].
  destruct (i <? Z.of_nat (length l)) eqn:E1; simpl; bool_hyps.
  - destruct (lookup_lt_is_Some_2 l (Z.to_nat i)) as [x ->]; [lia|reflexivity].
  - destruct (i <? 0) eqn:E2; [bool_hyps; lia|].
    rewrite andb_false_r.
    rewrite (proj2 (lookup_ge_None l (Z.to_nat i))); [reflexivity|lia].
Qed.

Lemma Py_get_elem_of {A} (l : list A) (i : Z) (x : A) : Py.get l i = Ok x -> x ∈ l.
Proof.
  unfold Py.get. intros H. repeat case_match; simplify_eq.
  eapply list_elem_of_lookup_2; eassumption.
Qed.

Lemma Py_get_of_nat {A} (l : list A) (k : nat) (x : A) :
  Py.get l (Z.of_nat k) = Ok x <-> l !! k = Some x.
Proof.
  rewrite Py_get_nonneg by lia. rewrite Nat2Z.id.
  destruct (l !! k); split; intros H; simplify_eq; reflexivity.
Qed.

Lemma map_offset_seq (k a n : nat) :
  map (fun j => Z.of_nat k + Z.of_nat j) (seq a n) = map Z.of_nat (seq (k + a) n).
Proof.
  revert a. induction n as [|n IH]; intros a; [reflexivity|].
  simpl. f_equal; [lia|]. rewrite IH. by rewrite Nat.add_succ_r.
Qed.

Lemma Py_range_nonneg (k : nat) (n : nat) :
  Py.range (Z.of_nat k) (Z.of_nat (k + n)) = map Z.of_nat (seq k n).
Proof.
  unfold Py.range. replace (Z.to_nat (Z.of_nat (k + n) - Z.of_nat k)) with n by lia.
  rewrite map_offset_seq. by rewrite Nat.add_0_r.
Qed.

(** ** The board keeps its dimensions *)

Lemma empty_board_dims : board_dims empty_board.
Proof.
  split; [reflexivity|]. apply Forall_replicate. reflexivity.
Qed.

Lemma board_set_dims (b b' : board_t) (c : cell) (v : tag) :
  board_dims b -> board_set b c v = Ok b' -> board_dims b'.
Proof.
  intros [Hlen Hrows] H. unfold board_set in H.
  bind_ok H. bind_ok H. unfold Py.set in *.
  destruct (Py.index a c.2); [|discriminate]. injection E0 as <-.
  destruct (Py.index b c.1); [|discriminate]. injection H as <-.
  split.
  - by rewrite length_insert.
  - apply Forall_insert; [assumption|]. rewrite length_insert.
    apply Py_get_elem_of in E. rewrite Forall_forall in Hrows.
    apply Hrows. by apply list_elem_of_In.
Qed.

Lemma fill_cells_dims (cells : list cell) (b b' : board_t) (v : tag) :
  board_dims b -> fill_cells b cells v = Ok b' -> board_dims b'.
Proof.
  revert b. induction cells as [|c cells IH]; intros b Hb H; simpl in H.
  - by injection H as <-.
  - bind_ok H. eapply IH; [|eassumption]. eapply board_set_dims; eassumption.
Qed.

Lemma next_piece_dims (g g' : TetrominoGame) :
  board_dims (board g) -> next_piece g = Ok g' -> board_dims (board g').
Proof.
  intros Hb H. unfold next_piece in H. do 4 bind_ok H. injection H as <-.
  simpl. eapply fill_cells_dims; [|eassumption].
  by match goal with |- context [if ?h then _ else _] => destruct h end.
Qed.

Lemma change_board_dims (g g' : TetrominoGame) (pos : cell) (o : Z) :
  board_dims (board g) -> change_board g pos o = Ok g' -> board_dims (board g').
Proof.
  intros Hb H. unfold change_board in H. do 5 bind_ok H. injection H as <-.
  simpl. eauto using fill_cells_dims.
Qed.

Lemma try_place_dims (g g' : TetrominoGame) (p : tag) (cur : option (list cell))
    (pos : cell) (o : Z) (act : last_action) :
  board_dims (board g) -> try_place g p cur pos o act = Ok (Some g') ->
  board_dims (board g').
Proof.
  intros Hb H. unfold try_place in H.
  destruct (get_filled p pos o); [|discriminate].
  bind_ok H. destruct a; [|discriminate].
  bind_ok H. injection H as <-. simpl. eauto using change_board_dims.
Qed.

Lemma try_move_dims (dy dx : Z) (g g' : TetrominoGame) (st : move_status) :
  board_dims (board g) -> try_move dy dx g = Ok (st, g') -> board_dims (board g').
Proof.
  intros Hb H. unfold try_move in H. bind_ok H.
  destruct (piece_position g) as [y x]. bind_ok H.
  destruct a0; injection H as <- <-; eauto using try_place_dims.
Qed.

Lemma drop_loop_dims (n : nat) (g g' : TetrominoGame) :
  board_dims (board g) -> drop_loop n g = Ok g' -> board_dims (board g').
Proof.
  revert g. induction n as [|n IH]; intros g Hb H; simpl in H.
  - by injection H as <-.
  - bind_ok H. destruct a as [st g1].
    apply try_move_dims in E; [|assumption].
    destruct st; [eauto|]. by injection H as <-.
Qed.

Lemma try_kicks_dims (cands : list kick) (g g' : TetrominoGame) (p : tag)
    (cur : option (list cell)) :
  board_dims (board g) -> try_kicks g p cur cands = Ok g' -> board_dims (board g').
Proof.
  intros Hb. induction cands as [|[[dy dx] o] cands IH]; intros H; simpl in H.
  - by injection H as <-.
  - bind_ok H. destruct a; [|auto].
    injection H as <-. eauto using try_place_dims.
Qed.

Lemma rotate_cw_dims (g g' : TetrominoGame) :
  board_dims (board g) -> rotate_cw g = Ok g' -> board_dims (board g').
Proof.
  intros Hb H. unfold rotate_cw in H. bind_ok H. eauto using try_kicks_dims.
Qed.

Lemma rotate_ccw_dims (g g' : TetrominoGame) :
  board_dims (board g) -> rotate_ccw g = Ok g' -> board_dims (board g').
Proof.
  intros Hb H. unfold rotate_ccw in H. bind_ok H. eauto using try_kicks_dims.
Qed.

Lemma hold_piece_dims (g g' : TetrominoGame) :
  board_dims (board g) -> hold_piece g = Ok g' -> board_dims (board g').
Proof.
  intros Hb H. unfold hold_piece in H.
  destruct (hold g); [by injection H as <-|].
  do 3 bind_ok H. apply fill_cells_dims in E1; [|assumption].
  destruct (bool_decide _).
  - do 2 bind_ok H. injection H as <-. simpl.
    eapply next_piece_dims; [|eassumption]. assumption.
  - do 2 bind_ok H. injection H as <-. simpl.
    eapply next_piece_dims; [|eassumption]. assumption.
Qed.

Lemma push_row_dims (row : list tag) (b : board_t) :
  length row = 10%nat -> board_dims b -> board_dims (push_row row b).
Proof.
  intros Hrow [Hlen Hrows]. unfold push_row.
  rewrite removelast_firstn_len. simpl length. rewrite Hlen. split.
  - rewrite length_take. simpl. rewrite Hlen. reflexivity.
  - apply Forall_take. by constructor.
Qed.

Lemma garbage_row_length (r : nat) : length (garbage_row r) = 10%nat.
Proof. unfold garbage_row. by rewrite length_insert, length_replicate. Qed.

Lemma accept_pending_dims (r : nat) (n : Z) (b : board_t) :
  board_dims b -> board_dims (accept_pending r n b).
Proof.
  intros Hb. unfold accept_pending.
  induction (Z.to_nat n) as [|k IH]; simpl; [assumption|].
  apply push_row_dims; [apply garbage_row_length|assumption].
Qed.

Lemma drain_pending_dims (rnd : nat -> nat) (pending : list Z) (k : nat) (b : board_t) :
  board_dims b -> board_dims (drain_pending rnd k pending b).
Proof.
  revert k b. induction pending as [|n rest IH]; intros k b Hb; simpl; [assumption|].
  apply IH. by apply accept_pending_dims.
Qed.

Lemma remove_rows_dims (rows : list Z) (b b' : board_t) :
  board_dims b -> remove_rows b rows = Ok b' -> board_dims b'.
Proof.
  revert b. induction rows as [|i rows IH]; intros b Hb H; simpl in H.
  - by injection H as <-.
  - bind_ok H. eapply IH; [|eassumption].
    unfold Py.pop_at in E. destruct (Py.index b i) as [k|] eqn:Ek; [|discriminate].
    injection E as <-. apply Py_index_lt in Ek. destruct Hb as [Hlen Hrows]. split.
    + rewrite length_app, length_delete by (by apply lookup_lt_is_Some_2).
      simpl. lia.
    + apply Forall_app_2; [by apply Forall_delete|].
      constructor; [reflexivity|constructor].
Qed.

Lemma lock_clear_dims (g g' : TetrominoGame) (spin : spin_kind) (tiled : list Z)
    (attack pt : Z) :
  board_dims (board g) -> lock_clear g spin tiled = Ok (attack, pt, g') ->
  board_dims (board g').
Proof.
  intros Hb H. unfold lock_clear in H.
  destruct (b2b_step _ _ _) as [bonus b2b].
  do 4 bind_ok H. destruct a2 as [atk ptype]. bind_ok H. destruct a2 as [unspent pend].
  apply remove_rows_dims in E1; [|assumption].
  injection H as <- <- <-. by destruct (unspent =? 0).
Qed.

Lemma lock_piece_dims (rnd : nat -> nat) (g g' : TetrominoGame) (out : lock_outcome) :
  board_dims (board g) -> lock_piece rnd g = Ok (out, g') -> board_dims (board g').
Proof.
  intros Hb H. unfold lock_piece in H. do 3 bind_ok H.
  destruct a1 as [[raw pt] g1]. bind_ok H. injection H as <- <-. simpl.
  eapply next_piece_dims; [|eassumption]. simpl.
  destruct a0 as [|i rest].
  - injection E1 as <- <- <-. simpl. by apply drain_pending_dims.
  - eapply lock_clear_dims; [|eassumption]. assumption.
Qed.

Lemma hard_drop_dims (rnd : nat -> nat) (g g' : TetrominoGame) (out : lock_outcome) :
  board_dims (board g) -> hard_drop rnd g = Ok (out, g') -> board_dims (board g').
Proof.
  intros Hb H. unfold hard_drop in H. bind_ok H.
  eapply lock_piece_dims; [|eassumption]. eapply drop_loop_dims; eassumption.
Qed.

Lemma step_dims (a : action) (g g' : TetrominoGame) :
  board_dims (board g) -> step a g = Ok g' -> board_dims (board g').
Proof.
  intros Hb H. destruct a; simpl in H;
    try (apply fmap_Ok in H as ([st g1] & E & ->); simpl).
  - eapply try_move_dims; eassumption.
  - eapply try_move_dims; eassumption.
  - eapply try_move_dims; eassumption.
  - eapply drop_loop_dims; eassumption.
  - eapply hold_piece_dims; eassumption.
  - eapply rotate_cw_dims; eassumption.
  - eapply rotate_ccw_dims; eassumption.
  - eapply hard_drop_dims; eassumption.
  - eapply lock_piece_dims; eassumption.
Qed.

Lemma new_game_dims (q : list piece) (g : TetrominoGame) :
  new_game q = Ok g -> board_dims (board g).
Proof.
  intros H. unfold new_game in H. bind_ok H. injection H as <-. simpl.
  eapply next_piece_dims; [|eassumption]. apply empty_board_dims.
Qed.

Lemma run_dims (acts : list action) (g g' : TetrominoGame) :
  board_dims (board g) -> run acts g = Ok g' -> board_dims (board g').
Proof.
  revert g. induction acts as [|a acts IH]; intros g Hb H; simpl in H.
  - by injection H as <-.
  - bind_ok H. eauto using step_dims.
Qed.

(** C10: the board has 40 rows of 10 cells after construction, stays so
    under every engine operation that returns, and hence is so in every state
    a game reaches. *)
Theorem board_dimensions_invariant :
  (forall q g, new_game q = Ok g -> board_dims (board g)) /\
  (forall a g g', board_dims (board g) -> step a g = Ok g' -> board_dims (board g')) /\
  (forall g, reachable g -> board_dims (board g)).
Proof.
  split; [exact new_game_dims|]. split; [exact step_dims|].
  intros g (q & acts & g0 & Hnew & Hrun).
  eapply run_dims; [|eassumption]. eapply new_game_dims; eassumption.
Qed.

(** ** Reading and writing cells *)

Lemma peek_nonneg (b : board_t) (c : cell) :
  0 <= c.1 -> 0 <= c.2 ->
  peek b c = (b !! Z.to_nat c.1) ≫= (fun row => row !! Z.to_nat c.2).
Proof.
  intros H1 H2. unfold peek.
  by rewrite (proj2 (Z.leb_le _ _) H1), (proj2 (Z.leb_le _ _) H2).
Qed.

Lemma peek_Some_nonneg (b : board_t) (c : cell) (t : tag) :
  peek b c = Some t -> 0 <= c.1 /\ 0 <= c.2.
Proof.
  unfold peek. destruct (0 <=? c.1) eqn:E1, (0 <=? c.2) eqn:E2; try discriminate.
  bool_hyps. auto.
Qed.

Lemma board_get_peek (b : board_t) (c : cell) :
  0 <= c.1 -> 0 <= c.2 ->
  board_get b c = match peek b c with Some t => Ok t | None => Raise IndexError end.
Proof.
  intros H1 H2. rewrite peek_nonneg by assumption. unfold board_get.
  rewrite Py_get_nonneg by assumption.
  destruct (b !! Z.to_nat c.1) as [row|]; simpl; [|reflexivity].
  by rewrite Py_get_nonneg.
Qed.

Lemma board_set_peek (b : board_t) (c : cell) (v : tag) :
  0 <= c.1 -> 0 <= c.2 ->
  board_set b c v = match peek b c with
                    | Some _ => Ok (upd b c v)
                    | None => Raise IndexError
                    end.
Proof.
  intros H1 H2. rewrite peek_nonneg by assumption. unfold board_set, upd.
  rewrite Py_get_nonneg by assumption.
  destruct (b !! Z.to_nat c.1) as [row|] eqn:Erow; simpl; [|reflexivity].
  rewrite Py_set_nonneg by assumption.
  destruct (row !! Z.to_nat c.2); simpl; [|reflexivity].
  rewrite Py_set_nonneg by assumption. by rewrite Erow.
Qed.

Lemma peek_upd (b : board_t) (c c' : cell) (v : tag) :
  0 <= c.1 -> 0 <= c.2 ->
  peek (upd b c v) c' =
    if decide (c = c') then (fun _ => v) <$> peek b c else peek b c'.
Proof.
  intros H1 H2. destruct c as [y x], c' as [y' x']. simpl in *.
  destruct (decide ((y, x) = (y', x'))) as [Heq|Hne].
  - injection Heq as <- <-. rewrite !peek_nonneg by assumption. unfold upd. simpl.
    destruct (b !! Z.to_nat y) as [row|] eqn:Erow; simpl.
    + rewrite list_lookup_insert_eq by (by apply lookup_lt_is_Some_1; eauto). simpl.
      destruct (row !! Z.to_nat x) eqn:Ex; simpl.
      * apply list_lookup_insert_eq. apply lookup_lt_is_Some_1; eauto.
      * rewrite list_insert_ge; [done|]. by apply lookup_ge_None.
    + by rewrite Erow.
  - unfold peek. simpl.
    destruct ((0 <=? y') && (0 <=? x')) eqn:Eg; [|reflexivity]. bool_hyps.
    unfold upd. simpl.
    destruct (b !! Z.to_nat y) as [row|] eqn:Erow; [|reflexivity].
    destruct (decide (Z.to_nat y = Z.to_nat y')) as [Hy|Hy].
    + rewrite <- Hy, Erow.
      rewrite list_lookup_insert_eq by (by apply lookup_lt_is_Some_1; eauto). simpl.
      apply list_lookup_insert_ne. intros Hx. apply Hne. f_equal; lia.
    + by rewrite list_lookup_insert_ne.
Qed.

Lemma upd_dims (b : board_t) (c : cell) (v : tag) :
  board_dims b -> board_dims (upd b c v).
Proof.
  intros [Hlen Hrows]. unfold upd.
  destruct (b !! Z.to_nat c.1) as [row|] eqn:Erow; [|by split].
  split; [by rewrite length_insert|].
  apply Forall_insert; [assumption|]. rewrite length_insert.
  rewrite Forall_forall in Hrows. apply Hrows.
  apply list_elem_of_In. eapply list_elem_of_lookup_2; eassumption.
Qed.

Lemma peek_is_Some (b : board_t) (c : cell) :
  board_dims b -> on_board c -> is_Some (peek b c).
Proof.
  intros [Hlen Hrows] [[H1 H2] [H3 H4]]. rewrite peek_nonneg by assumption.
  destruct (lookup_lt_is_Some_2 b (Z.to_nat c.1)) as [row Erow]; [lia|].
  rewrite Erow. simpl. apply lookup_lt_is_Some_2.
  rewrite Forall_forall in Hrows.
  rewrite (Hrows row); [lia|].
  apply list_elem_of_In. eapply list_elem_of_lookup_2; eassumption.
Qed.

Lemma peek_Some_on_board (b : board_t) (c : cell) (t : tag) :
  board_dims b -> peek b c = Some t -> on_board c.
Proof.
  intros [Hlen Hrows] H. destruct (peek_Some_nonneg _ _ _ H) as [H1 H2].
  rewrite peek_nonneg in H by assumption.
  destruct (b !! Z.to_nat c.1) as [row|] eqn:Erow; [|discriminate]. simpl in H.
  apply lookup_lt_Some in Erow as Hy. apply lookup_lt_Some in H as Hx.
  rewrite Forall_forall in Hrows.
  rewrite (Hrows row) in Hx
    by (apply list_elem_of_In; eapply list_elem_of_lookup_2; eassumption).
  unfold on_board. lia.
Qed.


Lemma fill_cells_peek (cells : list cell) (b : board_t) (v : tag) :
  Forall (fun c => 0 <= c.1 /\ 0 <= c.2 /\ is_Some (peek b c)) cells ->
  exists b',
    fill_cells b cells v = Ok b' /\
    (forall c, c ∈ cells -> peek b' c = Some v) /\
    (forall c, c ∉ cells -> peek b' c = peek b c).
Proof.
  revert b. induction cells as [|c cells IH]; intros b Hall.
  - exists b. split; [reflexivity|]. split; [|reflexivity].
    intros c Hc. by apply elem_of_nil in Hc.
  - apply Forall_cons_1 in Hall as [(H1 & H2 & [t Ht]) Hall].
    destruct (IH (upd b c v)) as (b' & Hfill & Hin & Hout).
    { revert Hall. apply Forall_impl. intros c' (H1' & H2' & [t' Ht']).
      split; [assumption|]. split; [assumption|].
      rewrite peek_upd by assumption.
      destruct (decide (c = c')) as [<-|_]; [rewrite Ht|rewrite Ht']; eauto. }
    exists b'. split.
    { simpl. rewrite board_set_peek, Ht by assumption. exact Hfill. }
    split.
    + intros c' Hc'. destruct (decide (c' ∈ cells)) as [Hc|Hc]; [by apply Hin|].
      apply elem_of_cons in Hc' as [->|Hc']; [|contradiction].
      rewrite Hout by assumption. rewrite peek_upd by assumption.
      rewrite decide_True by reflexivity. by rewrite Ht.
    + intros c' Hc'. apply not_elem_of_cons in Hc' as [Hne Hc'].
      rewrite Hout by assumption. rewrite peek_upd by assumption.
      by rewrite decide_False by congruence.
Qed.

Lemma fill_cells_Ok_peek (cells : list cell) (b b' : board_t) (v : tag) :
  Forall (fun c => 0 <= c.1 /\ 0 <= c.2) cells ->
  fill_cells b cells v = Ok b' ->
  Forall (fun c => is_Some (peek b c)) cells.
Proof.
  revert b. induction cells as [|c cells IH]; intros b Hall H; [constructor|].
  apply Forall_cons_1 in Hall as [[H1 H2] Hall]. simpl in H.
  rewrite board_set_peek in H by assumption.
  destruct (peek b c) as [t|] eqn:Ht; [|discriminate]. simpl in H.
  constructor; [eauto|].
  specialize (IH _ Hall H).
  revert IH. apply Forall_impl. intros c' [t' Ht'].
  rewrite peek_upd in Ht' by assumption.
  destruct (decide (c = c')) as [<-|_]; [rewrite Ht; eauto|eauto].
Qed.

Lemma fill_cells_dims_peek (cells : list cell) (b : board_t) (v : tag) :
  board_dims b -> Forall on_board cells ->
  exists b',
    fill_cells b cells v = Ok b' /\ board_dims b' /\
    (forall c, c ∈ cells -> peek b' c = Some v) /\
    (forall c, c ∉ cells -> peek b' c = peek b c).
Proof.
  intros Hb Hall.
  destruct (fill_cells_peek cells b v) as (b' & Hfill & Hin & Hout).
  { revert Hall. apply Forall_impl. intros c Hc.
    pose proof (peek_is_Some b c Hb Hc). unfold on_board in Hc. intuition lia. }
  exists b'. eauto using fill_cells_dims.
Qed.

Lemma any_occupied_peek (cells : list cell) (b : board_t) :
  Forall (fun c => 0 <= c.1 /\ 0 <= c.2 /\ is_Some (peek b c)) cells ->
  exists hit,
    any_occupied b cells = Ok hit /\
    (hit = true <-> Exists (fun c => peek b c <> Some blank) cells).
Proof.
  induction cells as [|c cells IH]; intros Hall.
  - exists false. split; [reflexivity|]. split; [discriminate|].
    intros H. by apply Exists_nil in H.
  - apply Forall_cons_1 in Hall as [(H1 & H2 & [t Ht]) Hall].
    destruct (IH Hall) as (hit & Hocc & Hspec). simpl.
    rewrite board_get_peek, Ht by assumption. simpl.
    unfold is_blank. destruct (decide (t = blank)) as [->|Hne].
    + rewrite bool_decide_eq_true_2 by reflexivity. exists hit.
      split; [assumption|]. rewrite Hspec, Exists_cons. rewrite Ht. intuition.
    + rewrite bool_decide_eq_false_2 by assumption. exists true.
      split; [reflexivity|]. split; [|reflexivity].
      intros _. apply Exists_cons_hd. rewrite Ht. congruence.
Qed.

Lemma all_free_forallb (tiled : list cell) (b : board_t) (cur : list cell) :
  Forall (fun c => 0 <= c.1 /\ 0 <= c.2 /\ is_Some (peek b c)) tiled ->
  all_free b (Some cur) tiled = Ok (forallb (cell_free b cur) tiled).
Proof.
  induction tiled as [|c tiled IH]; intros Hall; [reflexivity|].
  apply Forall_cons_1 in Hall as [(H1 & H2 & [t Ht]) Hall].
  simpl. unfold cell_free at 1.
  rewrite board_get_peek, Ht by assumption. simpl.
  unfold is_blank. destruct (decide (t = blank)) as [->|Hne].
  - rewrite !bool_decide_eq_true_2 by reflexivity. simpl. by apply IH.
  - rewrite bool_decide_eq_false_2 by assumption.
    rewrite (bool_decide_eq_false_2 (Ok t = Ok blank)) by congruence. simpl.
    destruct (bool_decide (c ∈ cur)); simpl; [by apply IH|reflexivity].
Qed.

Lemma board_get_Ok_peek (b : board_t) (c : cell) (t : tag) :
  board_dims b -> on_board c -> board_get b c = Ok t <-> peek b c = Some t.
Proof.
  intros Hb Hc. destruct (peek_is_Some b c Hb Hc) as [t' Ht'].
  unfold on_board in Hc. rewrite board_get_peek, Ht' by lia.
  split; intros H; congruence.
Qed.

(** ** Spawning *)

Lemma spawn_cells (p : piece) :
  exists cells, get_filled (shape p) (19, 4) 0 = Some cells /\ Forall on_board cells.
Proof.
  destruct p; eexists; (split; [reflexivity|]); unfold on_board;
    repeat apply Forall_cons; try apply Forall_nil; simpl; lia.
Qed.

(** C3, as the code has it: when the piece to spawn is [p], [next_piece]
    advances the cursor by one, puts the anchor at row 19, column 4 with
    orientation 0, raises [game_over] when a cell of the footprint is
    occupied and leaves the flag as it was otherwise, and writes the piece
    into the cells of the footprint in both cases; no other cell changes. *)
Theorem next_piece_spawns (g : TetrominoGame) (p : piece) :
  board_dims (board g) ->
  get_piece (advance g) 0 = Ok (shape p) ->
  exists cells hit g',
    get_filled (shape p) (19, 4) 0 = Some cells /\
    any_occupied (board g) cells = Ok hit /\
    (hit = true <-> Exists (fun c => board_get (board g) c <> Ok blank) cells) /\
    next_piece g = Ok g' /\
    queue_position g' = queue_position g + 1 /\
    piece_position g' = (19, 4) /\
    piece_orientation g' = 0 /\
    game_over g' = game_over g || hit /\
    (forall c, c ∈ cells -> board_get (board g') c = Ok (shape p)) /\
    (forall c, on_board c -> c ∉ cells ->
               board_get (board g') c = board_get (board g) c).
Proof.
  intros Hb Hp. destruct (spawn_cells p) as (cells & Hcells & Hon).
  assert (Hpk : Forall (fun c => 0 <= c.1 /\ 0 <= c.2 /\ is_Some (peek (board g) c)) cells).
  { revert Hon. apply Forall_impl. intros c Hc.
    pose proof (peek_is_Some _ c Hb Hc). unfold on_board in Hc. intuition lia. }
  destruct (any_occupied_peek cells (board g) Hpk) as (hit & Hocc & Hhit).
  destruct (fill_cells_dims_peek cells (board g) (shape p) Hb Hon)
    as (b' & Hfill & Hb' & Hin & Hout).
  exists cells, hit.
  exists (set_board b' (if hit then set_game_over true (advance g) else advance g)).
  split; [assumption|]. split; [assumption|]. split.
  { rewrite Hhit, !Exists_exists. split; intros (c & Hc & Hne); exists c; (split; [assumption|]).
    - rewrite Forall_forall in Hon. specialize (Hon c Hc).
      intros Hget. apply Hne. by apply board_get_Ok_peek in Hget.
    - rewrite Forall_forall in Hon. specialize (Hon c Hc).
      intros Hpeek. apply Hne. by apply board_get_Ok_peek. }
  split.
  { unfold next_piece. cbv zeta. fold (advance g). rewrite Hp.
    cbn [mbind result_bind].
    change (piece_position (advance g)) with ((19, 4) : cell).
    change (piece_orientation (advance g)) with 0.
    rewrite Hcells. cbn [mbind result_bind iter_cells].
    change (board (advance g)) with (board g). rewrite Hocc.
    cbn [mbind result_bind].
    destruct hit; (change (board _) with (board g) at 1); by rewrite Hfill. }
  split; [by destruct hit|]. split; [by destruct hit|]. split; [by destruct hit|].
  split; [destruct hit; simpl; [by rewrite orb_true_r|by rewrite orb_false_r]|].
  assert (Hbd : board (set_board b' (if hit then set_game_over true (advance g)
                                     else advance g)) = b') by reflexivity.
  rewrite Hbd. split.
  - intros c Hc. pose proof (Forall_elem_of _ _ _ Hon Hc).
    apply board_get_Ok_peek; auto.
  - intros c Hc Hnot. destruct (peek_is_Some _ c Hb Hc) as [t Ht].
    rewrite (proj2 (board_get_Ok_peek (board g) c t Hb Hc) Ht).
    apply board_get_Ok_peek; [assumption..|]. by rewrite Hout.
Qed.

(** ** Refused attempts *)

Lemma try_place_refused (g : TetrominoGame) (p : tag) (cur : list cell)
    (pos : cell) (o : Z) (act : last_action) :
  board_dims (board g) ->
  (forall cells, get_filled p pos o = Some cells -> Forall (fun c => c.1 <= 39) cells) ->
  placeable (board g) cur (get_filled p pos o) = false ->
  try_place g p (Some cur) pos o act = Ok None.
Proof.
  intros Hb Hrows Hpl. unfold try_place.
  destruct (get_filled p pos o) as [tiled|] eqn:Et; [|reflexivity].
  specialize (Hrows _ eq_refl). destruct pos as [y x].
  apply get_filled_bounds in Et as [_ Hbd].
  rewrite all_free_forallb.
  - simpl in Hpl. by rewrite Hpl.
  - apply Forall_forall. intros c Hc. apply list_elem_of_In in Hc.
    pose proof (Forall_elem_of _ _ _ Hrows Hc) as Hr.
    pose proof (Forall_elem_of _ _ _ Hbd Hc) as Hc'. simpl in Hr, Hc'.
    split; [lia|]. split; [lia|]. apply peek_is_Some; [assumption|].
    unfold on_board. lia.
Qed.

Lemma try_move_refused (dy dx : Z) (g : TetrominoGame) (p : tag) (cur : list cell) :
  board_dims (board g) ->
  get_piece g 0 = Ok p ->
  get_filled p (piece_position g) (piece_orientation g) = Some cur ->
  Forall on_board cur ->
  dy <= 0 ->
  placeable (board g) cur
    (get_filled p ((piece_position g).1 + dy, (piece_position g).2 + dx)
       (piece_orientation g)) = false ->
  try_move dy dx g = Ok (not_moved, g).
Proof.
  intros Hb Hp Hcur Hon Hdy Hpl. unfold try_move. rewrite Hp.
  cbn [mbind result_bind]. rewrite Hcur.
  destruct (piece_position g) as [y x] eqn:Epos. simpl in Hpl.
  rewrite try_place_refused; [reflexivity|assumption| |assumption].
  intros cells Hcells. rewrite (get_filled_shift _ _ _ _ _ _ _ _ Hcur Hcells).
  apply Forall_fmap. revert Hon. apply Forall_impl.
  intros c Hc. unfold on_board in Hc. simpl. lia.
Qed.

Lemma try_kicks_refused (cands : list kick) (g : TetrominoGame) (p : tag)
    (cur : list cell) :
  board_dims (board g) ->
  Forall (fun k =>
            placeable (board g) cur (kick_target g p k) = false /\
            forall cells, kick_target g p k = Some cells ->
                          Forall (fun c => c.1 <= 39) cells) cands ->
  try_kicks g p (Some cur) cands = Ok g.
Proof.
  intros Hb. induction cands as [|[[dy dx] o] cands IH]; intros Hall; [reflexivity|].
  apply Forall_cons_1 in Hall as [[Hpl Hrows] Hall]. simpl.
  unfold kick_target in Hpl, Hrows. simpl in Hpl, Hrows.
  rewrite try_place_refused by assumption. cbn [mbind result_bind]. auto.
Qed.

(** C6, within the board: in a state whose board is 40 by 10 and whose
    active piece has its footprint on the board, a translation whose target
    cannot be placed returns ['not moved'] and the state as it was; and a
    rotation none of whose candidates can be placed, all of them lying within
    the 40 rows, returns the state as it was.  Nothing is raised. *)
Theorem refused_attempt_is_noop (g : TetrominoGame) (p : tag) (cur : list cell) :
  board_dims (board g) ->
  get_piece g 0 = Ok p ->
  get_filled p (piece_position g) (piece_orientation g) = Some cur ->
  Forall on_board cur ->
  let y := (piece_position g).1 in
  let x := (piece_position g).2 in
  let o := piece_orientation g in
  let refused (k : kick) :=
    placeable (board g) cur (kick_target g p k) = false /\
    forall cells, kick_target g p k = Some cells -> Forall (fun c => c.1 <= 39) cells in
  (placeable (board g) cur (get_filled p (y, x - 1) o) = false ->
   move_left g = Ok (not_moved, g)) /\
  (placeable (board g) cur (get_filled p (y, x + 1) o) = false ->
   move_right g = Ok (not_moved, g)) /\
  (placeable (board g) cur (get_filled p (y - 1, x) o) = false ->
   move_down g = Ok (not_moved, g)) /\
  (Forall refused (kicks_cw p o) -> rotate_cw g = Ok g) /\
  (Forall refused (kicks_ccw p o) -> rotate_ccw g = Ok g).
Proof.
  intros Hb Hp Hcur Hon y x o refused. repeat split.
  - intros Hpl. apply (try_move_refused 0 (-1) g p cur); try assumption; [lia|].
    by rewrite Z.add_0_r.
  - intros Hpl. apply (try_move_refused 0 1 g p cur); try assumption; [lia|].
    by rewrite Z.add_0_r.
  - intros Hpl. apply (try_move_refused (-1) 0 g p cur); try assumption; [lia|].
    by rewrite Z.add_0_r.
  - intros Hall. unfold rotate_cw. rewrite Hp. cbn [mbind result_bind].
    rewrite Hcur. by apply try_kicks_refused.
  - intros Hall. unfold rotate_ccw. rewrite Hp. cbn [mbind result_bind].
    rewrite Hcur. by apply try_kicks_refused.
Qed.

(** ** Left, then right *)

Lemma try_place_moved (g g' : TetrominoGame) (p : tag) (cur : list cell)
    (pos : cell) (o : Z) (act : last_action) :
  get_piece g 0 = Ok p ->
  get_filled p (piece_position g) (piece_orientation g) = Some cur ->
  try_place g p (Some cur) pos o act = Ok (Some g') ->
  exists tiled b1 b2,
    get_filled p pos o = Some tiled /\
    all_free (board g) (Some cur) tiled = Ok true /\
    fill_cells (board g) cur blank = Ok b1 /\
    fill_cells b1 tiled p = Ok b2 /\
    g' = set_previous_action act (set_placement pos o (set_board b2 g)).
Proof.
  intros Hp Hcur H. unfold try_place in H.
  destruct (get_filled p pos o) as [tiled|] eqn:Et; [|discriminate].
  bind_ok H. destruct a; [|discriminate]. bind_ok H. injection H as <-.
  unfold change_board in E0. rewrite Hp in E0. cbn [mbind result_bind] in E0.
  rewrite Hcur in E0. cbn [mbind result_bind iter_cells] in E0.
  bind_ok E0. rewrite Et in E0. cbn [mbind result_bind iter_cells] in E0.
  bind_ok E0. injection E0 as <-.
  eauto 10.
Qed.






(** ** Locking *)

Lemma next_piece_frame (g g' : TetrominoGame) :
  next_piece g = Ok g' ->
  current_combo g' = current_combo g /\
  back_to_back g' = back_to_back g /\
  pending_garbage g' = pending_garbage g /\
  sent_garbage g' = sent_garbage g /\
  total_attack g' = total_attack g /\
  previous_action g' = previous_action g.
Proof.
  intros H. unfold next_piece in H. do 4 bind_ok H. injection H as <-.
  by match goal with |- context [if ?h then _ else _] => destruct h end.
Qed.

Lemma lock_piece_Ok (rnd : nat -> nat) (g g' : TetrominoGame) (out : lock_outcome) :
  lock_piece rnd g = Ok (out, g') ->
  exists spin tiled raw pt g1 g2,
    detect_spin (set_hold false g) = Ok spin /\
    check_tiled (set_hold false g) = Ok tiled /\
    match tiled with
    | [] => Ok (0, -1, lock_no_clear rnd (set_hold false g))
    | _ => lock_clear (set_hold false g) spin tiled
    end = Ok (raw, pt, g1) /\
    next_piece (set_previous_action act_lock g1) = Ok g2 /\
    out = (raw, tiled, pt) /\
    g' = set_total_attack (total_attack g2 + raw) g2.
Proof.
  intros H. unfold lock_piece in H. do 3 bind_ok H.
  destruct a1 as [[raw pt] g1]. bind_ok H. injection H as <- <-.
  eauto 12.
Qed.

Lemma take_app_take {A} (n : nat) (l k : list A) :
  take n (l ++ take n k) = take n (l ++ k).
Proof.
  rewrite !take_app. f_equal. rewrite take_take. f_equal. lia.
Qed.

Lemma push_row_take (row : list tag) (b : board_t) :
  push_row row b = take (length b) (row :: b).
Proof. unfold push_row. by rewrite removelast_firstn_len. Qed.

Lemma accept_pending_take (r : nat) (n : Z) (b : board_t) :
  accept_pending r n b =
  take (length b) (replicate (Z.to_nat n) (garbage_row r) ++ b).
Proof.
  unfold accept_pending. induction (Z.to_nat n) as [|k IH]; simpl.
  - by rewrite take_ge.
  - rewrite IH, push_row_take.
    rewrite length_take, length_app, length_replicate.
    replace (length b `min` (k + length b))%nat with (length b) by lia.
    change (garbage_row r :: ?l) with ([garbage_row r] ++ l).
    by rewrite take_app_take.
Qed.

Lemma drain_pending_take (rnd : nat -> nat) (pending : list Z) (k : nat) (b : board_t) :
  drain_pending rnd k pending b =
  take (length b) (garbage_stack rnd k pending ++ b).
Proof.
  revert k b. induction pending as [|n rest IH]; intros k b; simpl.
  - by rewrite take_ge.
  - rewrite IH, accept_pending_take.
    rewrite length_take, length_app, length_replicate.
    replace (length b `min` (Z.to_nat n + length b))%nat with (length b) by lia.
    by rewrite take_app_take, app_assoc.
Qed.

(** C2, as the code has it: a lock that finds no full row returns
    [(0, [], -1)], resets the combo to -1 and leaves the pending queue empty.
    Every pending entry is applied in that one call: the next piece is
    spawned on the board that has, under the old rows and lowest last, as
    many garbage rows as each entry asks for, in the order of the queue,
    cut to the height of the board. *)
Theorem no_clear_lock_drains_whole_queue (rnd : nat -> nat) (g g' : TetrominoGame)
    (out : lock_outcome) :
  lock_piece rnd g = Ok (out, g') ->
  out.1.2 = [] ->
  out = (0, [], -1) /\
  current_combo g' = -1 /\
  pending_garbage g' = [] /\
  sent_garbage g' = sent_garbage g /\
  exists g1 g2,
    board g1 = take (length (board g))
                    (garbage_stack rnd 0 (pending_garbage g) ++ board g) /\
    queue_position g1 = queue_position g /\
    next_piece g1 = Ok g2 /\
    board g' = board g2.
Proof.
  intros H Htiled.
  apply lock_piece_Ok in H
    as (spin & tiled & raw & pt & g1 & g2 & Hspin & Hscan & Hbranch & Hnext & -> & ->).
  simpl in Htiled. subst tiled. injection Hbranch as <- <- <-.
  apply next_piece_frame in Hnext as Hframe.
  destruct Hframe as (Hc & _ & Hp & Hs & _ & _).
  split; [reflexivity|]. split; [exact Hc|]. split; [exact Hp|]. split; [exact Hs|].
  eexists _, g2. split; [|split; [|split; [exact Hnext|reflexivity]]].
  - simpl. apply drain_pending_take.
  - reflexivity.
Qed.

Lemma lock_clear_Ok (g g' : TetrominoGame) (spin : spin_kind) (tiled : list Z)
    (raw pt : Z) :
  lock_clear g spin tiled = Ok (raw, pt, g') ->
  let n := Z.of_nat (length tiled) in
  exists base combo b' unspent pending,
    Py.get ATTACK_TABLE (clear_index n spin) = Ok base /\
    Py.get COMBO_TABLE (Z.min (current_combo g + 1) 12) = Ok combo /\
    remove_rows (board g) (rev tiled) = Ok b' /\
    raw = (if all_clear b' then 10 else (b2b_step (back_to_back g) n spin).1 + base + combo) /\
    pt = (if all_clear b' then 8 else clear_index n spin) /\
    cancel_garbage raw (pending_garbage g) = Ok (unspent, pending) /\
    back_to_back g' = (b2b_step (back_to_back g) n spin).2 /\
    current_combo g' = current_combo g + 1 /\
    board g' = b' /\
    pending_garbage g' = pending /\
    sent_garbage g' = (if unspent =? 0 then sent_garbage g else sent_garbage g ++ [unspent]).
Proof.
  intros H n. unfold lock_clear in H. fold n in H.
  destruct (b2b_step (back_to_back g) n spin) as [bonus b2b] eqn:Estep.
  do 4 bind_ok H. destruct a2 as [atk ptype]. bind_ok H.
  destruct a2 as [unspent pend]. injection H as <- <- <-.
  simpl in *.
  exists a, a0, a1, unspent, pend.
  destruct (all_clear a1).
  - simpl in E2. injection E2 as <- <-.
    repeat split; try assumption; by destruct (unspent =? 0).
  - injection E2 as <- <-.
    repeat split; try assumption; by destruct (unspent =? 0).
Qed.






(** ** Pruning *)

Lemma foldl_min_le (l : list Z) (x : Z) :
  foldl Z.min x l <= x /\ Forall (fun s => foldl Z.min x l <= s) l /\
  (foldl Z.min x l = x \/ foldl Z.min x l ∈ l).
Proof.
  revert x. induction l as [|y l IH]; intros x; simpl.
  - split; [lia|]. split; [constructor|]. by left.
  - destruct (IH (Z.min x y)) as (H1 & H2 & H3).
    split; [lia|]. split.
    + constructor; [lia|assumption].
    + destruct H3 as [H3|H3].
      * destruct (Z.min_spec x y) as [[_ E]|[_ E]].
        -- left. by rewrite H3.
        -- right. rewrite H3, E. by left.
      * right. by right.
Qed.

Lemma py_min_spec (l : list Z) :
  l <> [] ->
  exists m, py_min l = Ok m /\ m ∈ l /\ Forall (fun s => m <= s) l.
Proof.
  destruct l as [|x l]; [done|]. intros _. simpl.
  destruct (foldl_min_le l x) as (H1 & H2 & H3).
  eexists. split; [reflexivity|]. split.
  - destruct H3 as [->|H3]; [by left|by right].
  - by constructor.
Qed.

Lemma py_index_of_spec (v : Z) (l : list Z) :
  v ∈ l -> exists i, py_index_of v l = Ok i /\ l !! i = Some v.
Proof.
  induction l as [|x l IH]; intros Hin; [by apply elem_of_nil in Hin|].
  simpl. destruct (Z.eqb_spec x v) as [->|Hne].
  - by exists 0%nat.
  - apply elem_of_cons in Hin as [->|Hin]; [done|].
    destruct (IH Hin) as (i & -> & Hi). by exists (S i).
Qed.

Lemma StronglySorted_delete {A} (R : A -> A -> Prop) (l : list A) (i : nat) :
  StronglySorted R l -> StronglySorted R (delete i l).
Proof.
  intros H. revert i. induction H as [|x l Hl IH Hx]; intros i; [constructor|].
  destruct i as [|i]; simpl; [assumption|].
  constructor; [apply IH|by apply Forall_delete].
Qed.

Lemma StronglySorted_snoc_lt (l : list nat) (k : nat) :
  StronglySorted lt l -> Forall (fun i => i < k)%nat l -> StronglySorted lt (l ++ [k]).
Proof.
  intros H. induction H as [|x l Hl IH Hx]; intros Hk; simpl.
  - repeat constructor.
  - apply Forall_cons_1 in Hk as [Hxk Hk]. constructor; [by apply IH|].
    apply Forall_app_2; [assumption|]. by repeat constructor.
Qed.

Lemma elem_of_delete_other {A} (l : list A) (i i' : nat) (x : A) :
  l !! i' = Some x -> i' <> i -> x ∈ delete i l.
Proof.
  intros Hx Hne. destruct (decide (i' < i)%nat) as [Hlt|Hge].
  - apply (list_elem_of_lookup_2 _ i'). by rewrite list_lookup_delete_lt.
  - destruct i' as [|i']; [lia|].
    apply (list_elem_of_lookup_2 _ i'). rewrite list_lookup_delete_ge by lia. done.
Qed.

Lemma gather_take {A} (l : list A) (n : nat) :
  (n <= length l)%nat ->
  gather l (map Z.of_nat (seq 0 n)) = Ok (take n l).
Proof.
  intros Hn.
  assert (H : forall k m, (k + m <= length l)%nat ->
            gather l (map Z.of_nat (seq k m)) = Ok (take m (drop k l))).
  { intros k m. revert k. induction m as [|m IH]; intros k Hk; [reflexivity|].
    simpl. destruct (lookup_lt_is_Some_2 l k) as [x Hx]; [lia|].
    rewrite (proj2 (Py_get_of_nat l k x) Hx). simpl.
    rewrite IH by lia. simpl.
    rewrite (drop_S _ _ _ Hx). reflexivity. }
  rewrite (H 0%nat n) by lia. by rewrite drop_0.
Qed.

Lemma map_delete {A B} (f : A -> B) (l : list A) (i : nat) :
  map f (delete i l) = delete i (map f l).
Proof.
  revert i. induction l as [|x l IH]; intros [|i]; simpl; try reflexivity.
  by rewrite IH.
Qed.

Lemma prune_loop_top (scores : list Z) (m : nat) :
  forall (k : nat) (idxn : list nat) (sc : list Z),
    (k + m = length scores)%nat ->
    idxn <> [] ->
    StronglySorted lt idxn ->
    Forall (fun i => i < k)%nat idxn ->
    Forall2 (fun i s => scores !! i = Some s) idxn sc ->
    (forall j sj s, (j < k)%nat -> j ∉ idxn -> scores !! j = Some sj -> s ∈ sc -> sj <= s) ->
    exists idxn' sc',
      prune_loop scores (map Z.of_nat (seq k m)) (map Z.of_nat idxn) sc
        = Ok (map Z.of_nat idxn', sc') /\
      length idxn' = length idxn /\
      StronglySorted lt idxn' /\
      Forall (fun i => i < length scores)%nat idxn' /\
      Forall2 (fun i s => scores !! i = Some s) idxn' sc' /\
      (forall j sj s, (j < length scores)%nat -> j ∉ idxn' ->
                      scores !! j = Some sj -> s ∈ sc' -> sj <= s).
Proof.
  induction m as [|m IH]; intros k idxn sc Hlen Hne Hsorted Hlt Hsc Hlow.
  - exists idxn, sc. replace (length scores) with k by lia. simpl. auto 10.
  - simpl.
    destruct (lookup_lt_is_Some_2 scores k) as [s Hs]; [lia|].
    rewrite (proj2 (Py_get_of_nat scores k s) Hs). cbn [mbind result_bind].
    assert (Hscne : sc <> []).
    { intros ->. apply Forall2_length in Hsc. by destruct idxn. }
    destruct (py_min_spec sc Hscne) as (m0 & -> & Hm0 & Hmin).
    cbn [mbind result_bind].
    destruct (s >? m0) eqn:Egt.
    + destruct (py_index_of_spec m0 sc Hm0) as (i & -> & Hi).
      cbn [mbind result_bind].
      destruct (Forall2_lookup_r _ _ _ _ _ Hsc Hi) as (ji & Hji & Hjs).
      assert (Hgt : m0 < s) by (apply Z.gtb_lt in Egt; lia).
      destruct (IH (S k) (delete i idxn ++ [k]) (delete i sc ++ [s]))
        as (idxn' & sc' & Hrun & Hl' & Hs' & Hlt' & Hsc' & Hlow').
      * lia.
      * by destruct (delete i idxn).
      * apply StronglySorted_snoc_lt; [by apply StronglySorted_delete|].
        by apply Forall_delete.
      * apply Forall_app_2.
        -- apply Forall_delete. revert Hlt. apply Forall_impl. intros; lia.
        -- repeat constructor.
      * apply Forall2_app; [by apply Forall2_delete|]. by repeat constructor.
      * intros j sj s0 Hj Hnot Hsj Hs0.
        apply not_elem_of_app in Hnot as [Hnd Hnk].
        assert (Hjk : j <> k) by (intros ->; apply Hnk; left).
        assert (Hsj_le : sj <= m0).
        { destruct (decide (j ∈ idxn)) as [Hin|Hnin].
          - apply list_elem_of_lookup_1 in Hin as [i' Hi'].
            destruct (decide (i' = i)) as [->|Hne'].
            + rewrite Hji in Hi'. injection Hi' as ->. rewrite Hjs in Hsj.
              injection Hsj as ->. lia.
            + exfalso. apply Hnd. eapply elem_of_delete_other; eassumption.
          - apply (Hlow j sj m0); [lia|assumption..]. }
        apply elem_of_app in Hs0 as [Hs0|Hs0].
        -- apply list_elem_of_delete_inv in Hs0.
           pose proof (Forall_elem_of _ _ _ Hmin Hs0). simpl in *. lia.
        -- apply list_elem_of_singleton in Hs0 as ->. lia.
      * exists idxn', sc'.
        rewrite map_app, map_delete in Hrun. simpl in Hrun.
        split; [exact Hrun|]. split; [|auto].
        rewrite Hl', length_app, length_delete; simpl.
        -- apply lookup_lt_Some in Hji. lia.
        -- eauto.
    + assert (Hle : s <= m0).
      { destruct (Z.gtb_spec s m0); [discriminate|lia]. }
      apply (IH (S k) idxn sc); try assumption.
      * lia.
      * revert Hlt. apply Forall_impl. intros; lia.
      * intros j sj s0 Hj Hnot Hsj Hs0.
        pose proof (Forall_elem_of _ _ _ Hmin Hs0) as Hm. simpl in Hm.
        destruct (decide (j = k)) as [->|Hjk].
        -- rewrite Hs in Hsj. injection Hsj as ->. lia.
        -- apply (Hlow j sj s0); [lia|assumption..].
Qed.

Lemma lookup_map {A B} (f : A -> B) (l : list A) (i : nat) :
  map f l !! i = f <$> (l !! i).
Proof. revert i. induction l as [|x l IH]; intros [|i]; simpl; auto. Qed.

Lemma StronglySorted_seq (a n : nat) : StronglySorted lt (seq a n).
Proof.
  revert a. induction n as [|n IH]; intros a; simpl; constructor; [apply IH|].
  apply Forall_forall. intros i Hi. apply in_seq in Hi. lia.
Qed.

Lemma Forall2_seq_take {A} (l : list A) (m : nat) :
  forall k, (k + m <= length l)%nat ->
            Forall2 (fun i s => l !! i = Some s) (seq k m) (take m (drop k l)).
Proof.
  induction m as [|m IH]; intros k Hk; simpl; [constructor|].
  destruct (lookup_lt_is_Some_2 l k) as [x Hx]; [lia|].
  rewrite (drop_S _ _ _ Hx). simpl. constructor; [assumption|]. apply IH. lia.
Qed.

Lemma gather_lookup {A} (l : list A) (idx : list nat) :
  Forall (fun i => i < length l)%nat idx ->
  exists xs, gather l (map Z.of_nat idx) = Ok xs /\
             Forall2 (fun i t => l !! i = Some t) idx xs.
Proof.
  induction idx as [|i idx IH]; intros Hall.
  - exists []. split; [reflexivity|constructor].
  - apply Forall_cons_1 in Hall as [Hi Hall].
    destruct (IH Hall) as (xs & Hxs & Hf).
    destruct (lookup_lt_is_Some_2 l i Hi) as [x Hx].
    exists (x :: xs). simpl. rewrite (proj2 (Py_get_of_nat l i x) Hx). simpl.
    rewrite Hxs. simpl. split; [reflexivity|by constructor].
Qed.

(** ** The pruning step, one child at a time *)

Lemma prune_loop_app (scores : list Z) (ks1 ks2 : list Z) :
  forall (idx sc : list Z),
    prune_loop scores (ks1 ++ ks2) idx sc =
      '(idx1, sc1) ← prune_loop scores ks1 idx sc; prune_loop scores ks2 idx1 sc1.
Proof.
  induction ks1 as [|k ks1 IH]; intros idx sc; [reflexivity|].
  cbn [app prune_loop].
  destruct (Py.get scores k) as [s| |]; try reflexivity. cbn [mbind result_bind].
  destruct (py_min sc) as [m| |]; try reflexivity. cbn [mbind result_bind].
  destruct (s >? m); [|apply IH].
  destruct (py_index_of m sc) as [i| |]; try reflexivity. cbn [mbind result_bind].
  apply IH.
Qed.

(** The rounds over the children of a list are the same when more children
    follow. *)
Lemma prune_loop_more (scores extra : list Z) (ks : list Z) :
  Forall (fun k => 0 <= k < Z.of_nat (length scores)) ks ->
  forall (idx sc : list Z),
    prune_loop (scores ++ extra) ks idx sc = prune_loop scores ks idx sc.
Proof.
  induction ks as [|k ks IH]; intros Hks idx sc; [reflexivity|].
  apply Forall_cons_1 in Hks as [Hk Hks]. cbn [prune_loop].
  assert (Hget : Py.get (scores ++ extra) k = Py.get scores k).
  { rewrite !Py_get_nonneg by lia. by rewrite lookup_app_l by lia. }
  rewrite Hget.
  destruct (Py.get scores k) as [s| |]; try reflexivity. cbn [mbind result_bind].
  destruct (py_min sc) as [m| |]; try reflexivity. cbn [mbind result_bind].
  destruct (s >? m); [|by apply IH].
  destruct (py_index_of m sc) as [i| |]; try reflexivity. cbn [mbind result_bind].
  by apply IH.
Qed.

Lemma py_index_of_first (v : Z) (l : list Z) :
  v ∈ l ->
  exists i, py_index_of v l = Ok i /\ l !! i = Some v /\
            forall j, (j < i)%nat -> l !! j <> Some v.
Proof.
  induction l as [|x l IH]; intros Hin; [by apply elem_of_nil in Hin|].
  simpl. destruct (Z.eqb_spec x v) as [->|Hne].
  - exists 0%nat. split; [reflexivity|]. split; [reflexivity|]. intros j Hj. lia.
  - apply elem_of_cons in Hin as [->|Hin]; [done|].
    destruct (IH Hin) as (i & Hi & Hl & Hfirst). exists (S i). rewrite Hi.
    split; [reflexivity|]. split; [exact Hl|].
    intros [|j] Hj; simpl; [congruence|]. apply Hfirst. lia.
Qed.

Lemma StronglySorted_lookup_le (l : list nat) (a b x y : nat) :
  StronglySorted lt l -> l !! a = Some x -> l !! b = Some y -> (a <= b)%nat ->
  (x <= y)%nat.
Proof.
  intros Hs. revert a b. induction Hs as [|z l Hl IH Hz]; intros a b Ha Hb Hab.
  - by rewrite lookup_nil in Ha.
  - destruct a as [|a], b as [|b]; simpl in *; try lia.
    + injection Ha as <-. injection Hb as <-. lia.
    + injection Ha as <-. apply list_elem_of_lookup_2 in Hb.
      pose proof (Forall_elem_of _ _ _ Hz Hb). simpl in *. lia.
    + apply (IH a b); [assumption..|lia].
Qed.

Lemma filter_all {A} (P : A -> Prop) `{forall x, Decision (P x)} (l : list A) :
  Forall P l -> filter P l = l.
Proof.
  induction l as [|x l IH]; intros Hall; [reflexivity|].
  apply Forall_cons_1 in Hall as [Hx Hall].
  rewrite filter_cons_True by exact Hx. f_equal. by apply IH.
Qed.

(** In a list in strictly increasing order, removing a position removes
    the entry there and no other. *)
Lemma delete_sorted_filter (l : list nat) (i e : nat) :
  StronglySorted lt l -> l !! i = Some e ->
  delete i l = filter (fun x => x <> e) l.
Proof.
  intros Hs. revert i. induction Hs as [|z l Hl IH Hz]; intros i Hi.
  - by rewrite lookup_nil in Hi.
  - destruct i as [|i]; simpl in Hi.
    + injection Hi as ->. cbn [delete list_delete].
      rewrite filter_cons_False by (intros Hne; by apply Hne).
      symmetry. apply filter_all. revert Hz. apply Forall_impl. intros x Hx. lia.
    + cbn [delete list_delete]. apply list_elem_of_lookup_2 in Hi as Hin.
      pose proof (Forall_elem_of _ _ _ Hz Hin) as Hlt. simpl in Hlt.
      rewrite filter_cons_True by lia. f_equal.
      apply IH. exact Hi.
Qed.

(** The pruning of a list with one more child, from the pruning of the list
    without it. *)
Lemma prune_indices_snoc (best_n : Z) (scores : list Z) (s : Z) :
  1 <= best_n <= Z.of_nat (length scores) ->
  exists (prev_idx : list nat) (e : nat) (m : Z),
    prune_indices best_n scores = Ok (map Z.of_nat prev_idx) /\
    (length scores = Z.to_nat best_n -> prev_idx = seq 0 (length scores)) /\
    e ∈ prev_idx /\ scores !! e = Some m /\
    (forall i v, i ∈ prev_idx -> scores !! i = Some v ->
                 m <= v /\ (v = m -> (e <= i)%nat)) /\
    prune_indices best_n (scores ++ [s]) =
      Ok (map Z.of_nat (if m <? s
                        then filter (fun i => i <> e) prev_idx ++ [length scores]
                        else prev_idx)).
Proof.
  intros Hn. set (N := Z.to_nat best_n). set (L := length scores).
  assert (Hr0 : Py.range 0 best_n = map Z.of_nat (seq 0 N)).
  { rewrite <- (Py_range_nonneg 0 N). f_equal. lia. }
  assert (Hr1 : Py.range best_n (Z.of_nat L) = map Z.of_nat (seq N (L - N))).
  { rewrite <- (Py_range_nonneg N (L - N)). f_equal; lia. }
  destruct (prune_loop_top scores (L - N) N (seq 0 N) (take N scores))
    as (idx1 & sc1 & Hrun & Hl & Hsorted & Hlt & Hsc & _).
  { fold L. lia. }
  { destruct N eqn:EN; [lia|discriminate]. }
  { apply StronglySorted_seq. }
  { apply Forall_forall. intros i Hi. apply in_seq in Hi. lia. }
  { pose proof (Forall2_seq_take scores N 0%nat) as Hseq.
    rewrite drop_0 in Hseq. apply Hseq. fold L. lia. }
  { intros j sj s' Hj Hnot. exfalso. apply Hnot.
    apply list_elem_of_In, in_seq. lia. }
  assert (Hprev : prune_indices best_n scores = Ok (map Z.of_nat idx1)).
  { unfold prune_indices. fold L. rewrite Z.min_l by lia. cbv zeta.
    rewrite Hr0, Hr1, gather_take by (fold L; lia). cbn [mbind result_bind].
    rewrite Hrun. reflexivity. }
  rewrite length_seq in Hl.
  assert (Hlsc : length sc1 = N) by (apply Forall2_length in Hsc; lia).
  destruct (py_min_spec sc1) as (m & Hmin & Hm & Hle).
  { intros ->. simpl in Hlsc. lia. }
  destruct (py_index_of_first m sc1 Hm) as (pos & Hpos & Hposm & Hfirst).
  destruct (Forall2_lookup_r _ _ _ _ _ Hsc Hposm) as (e & He & Hem).
  exists idx1, e, m. split; [exact Hprev|]. split.
  { intros HLN. unfold L in *. rewrite HLN in Hrun.
    replace (N - N)%nat with 0%nat in Hrun by lia. cbn [seq map prune_loop] in Hrun.
    injection Hrun as Hrun _. fold N in HLN. rewrite HLN.
    clear -Hrun. revert Hrun. generalize (seq 0 N). revert idx1.
    induction idx1 as [|a idx1 IH]; intros [|b l] H; simpl in H; try discriminate;
      [reflexivity|].
    injection H as Hab H. f_equal; [lia|by apply IH]. }
  split; [eapply list_elem_of_lookup_2, He|]. split; [exact Hem|]. split.
  { intros i v Hi Hv. apply list_elem_of_lookup_1 in Hi as [q Hq].
    destruct (Forall2_lookup_l _ _ _ _ _ Hsc Hq) as (v' & Hv' & Hiv').
    rewrite Hv in Hiv'. injection Hiv' as <-. split.
    - apply (Forall_elem_of _ _ _ Hle). eapply list_elem_of_lookup_2, Hv'.
    - intros ->. destruct (decide (q < pos)%nat) as [Hqp|Hqp].
      + exfalso. exact (Hfirst q Hqp Hv').
      + apply (StronglySorted_lookup_le idx1 pos q); [assumption..|lia]. }
  unfold prune_indices. rewrite length_app. cbn [length]. fold L.
  rewrite Z.min_l by lia. cbv zeta. rewrite Hr0.
  rewrite gather_take by (rewrite length_app; simpl; fold L; lia).
  rewrite take_app_le by (fold L; lia). cbn [mbind result_bind].
  assert (Hr2 : Py.range best_n (Z.of_nat (L + 1))
                = map Z.of_nat (seq N (L - N)) ++ [Z.of_nat L]).
  { assert (Hr3 : Py.range best_n (Z.of_nat (L + 1))
                   = map Z.of_nat (seq N (S (L - N)))).
    { rewrite <- (Py_range_nonneg N (S (L - N))). f_equal; lia. }
    rewrite Hr3, seq_S, map_app. cbn [map]. do 3 f_equal. lia. }
  rewrite Hr2, prune_loop_app.
  rewrite prune_loop_more.
  2:{ apply Forall_forall. intros k Hk. apply in_map_iff in Hk as (j & <- & Hj).
      apply in_seq in Hj. fold L. lia. }
  rewrite Hrun. cbn [mbind result_bind prune_loop].
  assert (Hget : Py.get (scores ++ [s]) (Z.of_nat L) = Ok s).
  { apply Py_get_of_nat. rewrite lookup_app_r by (fold L; lia).
    fold L. by rewrite Nat.sub_diag. }
  rewrite Hget. cbn [mbind result_bind]. rewrite Hmin. cbn [mbind result_bind].
  rewrite Z.gtb_ltb. destruct (m <? s); [|reflexivity].
  rewrite Hpos. cbn [mbind result_bind]. f_equal.
  rewrite map_app, <- (delete_sorted_filter idx1 pos e Hsorted He), map_delete.
  reflexivity.
Qed.

Lemma map_of_nat_inj (l1 l2 : list nat) :
  map Z.of_nat l1 = map Z.of_nat l2 -> l1 = l2.
Proof.
  revert l2. induction l1 as [|a l1 IH]; intros [|b l2] H; simpl in H;
    try discriminate; [reflexivity|].
  injection H as Hab H. f_equal; [lia|by apply IH].
Qed.

(** C9, as the code has it: when a node has more than [best_n] children and
    [best_n] is at least 1, the pruning keeps [best_n] of them, distinct and
    in the order of their generation, and no child it drops has a raw score
    above that of a child it keeps.  Ties are decided by the rounds of the
    loop.  Take the children but the last, [init], and what the pruning keeps
    of them, which is all of them when they are [best_n]; let [e] be the
    earliest of the kept children that have the lowest raw score among the
    kept.  The last child, [t], gets in only when its raw score is strictly
    above that lowest score, and then it is child [e] that goes; otherwise
    the kept children are those kept of [init]. *)
Theorem prune_keeps_best_n {A} (best_n : Z) (raw_score : A -> Z) (subtrees : list A) :
  1 <= best_n < Z.of_nat (length subtrees) ->
  exists (kept_idx : list nat) (kept : list A),
    prune_indices best_n (map raw_score subtrees) = Ok (map Z.of_nat kept_idx) /\
    prune best_n raw_score subtrees = Ok kept /\
    length kept = Z.to_nat best_n /\
    StronglySorted lt kept_idx /\
    Forall2 (fun i t => subtrees !! i = Some t) kept_idx kept /\
    (forall i j ti tj,
        i ∈ kept_idx -> j ∉ kept_idx ->
        subtrees !! i = Some ti -> subtrees !! j = Some tj ->
        raw_score tj <= raw_score ti) /\
    exists (init : list A) (t : A) (prev_idx : list nat) (e : nat) (te : A),
      subtrees = init ++ [t] /\
      prune_indices best_n (map raw_score init) = Ok (map Z.of_nat prev_idx) /\
      (length init = Z.to_nat best_n -> prev_idx = seq 0 (length init)) /\
      e ∈ prev_idx /\ init !! e = Some te /\
      (forall i ti,
          i ∈ prev_idx -> init !! i = Some ti ->
          raw_score te <= raw_score ti /\
          (raw_score ti = raw_score te -> (e <= i)%nat)) /\
      kept_idx = if raw_score te <? raw_score t
                 then filter (fun i => i <> e) prev_idx ++ [length init]
                 else prev_idx.
Proof.
  intros Hn. set (scores := map raw_score subtrees).
  assert (Hlen : length scores = length subtrees) by apply length_map.
  set (N := Z.to_nat best_n).
  destruct (prune_loop_top scores (length scores - N) N (seq 0 N) (take N scores))
    as (idxn & sc & Hrun & Hl & Hsorted & Hlt & Hsc & Hlow).
  - lia.
  - destruct N eqn:EN; [lia|discriminate].
  - apply StronglySorted_seq.
  - apply Forall_forall. intros i Hi. apply in_seq in Hi. lia.
  - pose proof (Forall2_seq_take scores N 0%nat) as Hseq.
    rewrite drop_0 in Hseq. apply Hseq. lia.
  - intros j sj s Hj Hnot. exfalso. apply Hnot.
    apply list_elem_of_In, in_seq. lia.
  - assert (Hidx : prune_indices best_n scores = Ok (map Z.of_nat idxn)).
    { assert (Hr0 : Py.range 0 best_n = map Z.of_nat (seq 0 N)).
      { rewrite <- (Py_range_nonneg 0 N). f_equal. lia. }
      assert (Hr1 : Py.range best_n (Z.of_nat (length scores))
                    = map Z.of_nat (seq N (length scores - N))).
      { rewrite <- (Py_range_nonneg N (length scores - N)). f_equal; lia. }
      unfold prune_indices. rewrite Z.min_l by lia. cbv zeta.
      rewrite Hr0, Hr1, gather_take by lia. cbn [mbind result_bind].
      rewrite Hrun. reflexivity. }
    rewrite Hlen in Hlt.
    destruct (gather_lookup subtrees idxn Hlt) as (kept & Hkept & Hf).
    exists idxn, kept. split; [exact Hidx|]. split.
    { unfold prune. fold scores. rewrite Hidx. exact Hkept. }
    split.
    { apply Forall2_length in Hf. rewrite <- Hf, Hl, length_seq. reflexivity. }
    split; [assumption|]. split; [assumption|]. split.
    { intros i j ti tj Hi Hj Hti Htj.
      apply list_elem_of_lookup_1 in Hi as [pos Hpos].
      destruct (Forall2_lookup_l _ _ _ _ _ Hsc Hpos) as (s & Hs & Hsi).
      unfold scores in Hsi. rewrite lookup_map, Hti in Hsi. injection Hsi as <-.
      apply (Hlow j (raw_score tj)).
      + rewrite Hlen. eapply lookup_lt_Some; eassumption.
      + assumption.
      + unfold scores. by rewrite lookup_map, Htj.
      + eapply list_elem_of_lookup_2; eassumption. }
    assert (Hsnoc : exists init t, subtrees = init ++ [t]).
    { clear -Hn. destruct subtrees as [|x l] using rev_ind; [simpl in Hn; lia|eauto]. }
    destruct Hsnoc as (init & t & Hsub).
    assert (Hn' : 1 <= best_n <= Z.of_nat (length (map raw_score init))).
    { rewrite length_map. rewrite Hsub, length_app in Hn. simpl in Hn. lia. }
    destruct (prune_indices_snoc best_n (map raw_score init) (raw_score t) Hn')
      as (prev_idx & e & m & Hprev & Hbase & He & Hem & Hrule & Hlast).
    rewrite length_map in Hbase, Hlast.
    rewrite lookup_map in Hem.
    destruct (init !! e) as [te|] eqn:Hte; [|discriminate].
    injection Hem as <-.
    exists init, t, prev_idx, e, te.
    split; [exact Hsub|]. split; [exact Hprev|]. split; [exact Hbase|].
    split; [exact He|]. split; [exact Hte|]. split.
    { intros i ti Hi Hti. apply (Hrule i (raw_score ti) Hi).
      by rewrite lookup_map, Hti. }
    apply map_of_nat_inj.
    assert (Hsame : prune_indices best_n scores
                    = prune_indices best_n (map raw_score init ++ [raw_score t])).
    { unfold scores. by rewrite Hsub, map_app. }
    rewrite Hidx, Hlast in Hsame. by injection Hsame.
Qed.

(** ** Garbage cancelling *)

Lemma cancel_loop_returns (fuel : nat) :
  forall (attack : Z) (pending : list Z),
    0 <= attack ->
    (cancel_fuel pending <= fuel)%nat ->
    exists r, cancel_loop fuel attack pending = Ok r.
Proof.
  induction fuel as [|fuel IH]; intros attack pending Ha Hfuel;
    [unfold cancel_fuel in Hfuel; lia|].
  simpl. destruct (attack =? 0) eqn:E0; [eauto|].
  destruct pending as [|p rest]; [eauto|].
  apply Z.eqb_neq in E0. unfold cancel_fuel in *. simpl in Hfuel.
  assert (Hsum : 0 <= foldr (fun p acc => Z.max p 0 + acc) 0 rest).
  { clear. induction rest as [|q rest IH]; simpl; lia. }
  destruct (p <=? attack) eqn:Ele.
  - apply Z.leb_le in Ele. apply IH; lia.
  - apply Z.leb_gt in Ele. apply IH; [assumption|]. simpl. lia.
Qed.

(** In [lock_piece] the attack is a sum of table entries and so is never
    negative: the cancelling loop ends. *)
Lemma cancel_garbage_returns (attack : Z) (pending : list Z) :
  0 <= attack -> exists r, cancel_garbage attack pending = Ok r.
Proof. intros Ha. by apply cancel_loop_returns. Qed.

Lemma cancel_loop_shrinks (fuel : nat) :
  forall (attack attack' : Z) (pending pending' : list Z),
    cancel_loop fuel attack pending = Ok (attack', pending') ->
    (length pending' <= length pending)%nat.
Proof.
  induction fuel as [|fuel IH]; intros attack attack' pending pending' H;
    [discriminate|].
  simpl in H. destruct (attack =? 0); [injection H as <- <-; lia|].
  destruct pending as [|p rest]; [injection H as <- <-; lia|].
  destruct (p <=? attack).
  - apply IH in H. simpl. lia.
  - apply IH in H. simpl in *. lia.
Qed.

(** The defect behind C1, in general: an attack that is not zero never
    leaves a positive head entry in the queue, lowered or not; the entry is
    always removed. *)
Lemma cancel_loop_drops_head (fuel : nat) :
  forall (attack attack' p : Z) (rest pending' : list Z),
    attack <> 0 -> 0 < p ->
    cancel_loop fuel attack (p :: rest) = Ok (attack', pending') ->
    (length pending' <= length rest)%nat.
Proof.
  induction fuel as [|fuel IH]; intros attack attack' p rest pending' Ha Hp H;
    [discriminate|].
  simpl in H. rewrite (proj2 (Z.eqb_neq attack 0) Ha) in H.
  destruct (p <=? attack) eqn:Ele.
  - by apply cancel_loop_shrinks in H.
  - apply Z.leb_gt in Ele. apply IH in H; [assumption..|lia].
Qed.

(** ** Instances *)

Lemma beside_state_reachable : reachable Demo.beside_state.
Proof.
  exists [pc_o; pc_o; pc_t], Demo.beside_actions.
  destruct (new_game [pc_o; pc_o; pc_t]) as [g0| |] eqn:E;
    try (vm_compute in E; discriminate).
  exists g0. split; [reflexivity|].
  vm_compute in E. injection E as <-. reflexivity.
Qed.

Lemma demo_dims (rows : list (list tag)) :
  length rows = 40%nat -> forallb (fun row => Nat.eqb (length row) 10) rows = true ->
  board_dims rows.
Proof.
  intros Hlen Hrows. split; [assumption|].
  apply Forall_forall. intros row Hrow.
  rewrite forallb_forall in Hrows. by apply Nat.eqb_eq, Hrows.
Qed.

(** C2 at a concrete input: two pending entries, both drained by one lock. *)
Lemma no_clear_lock_witness :
  pending_garbage Demo.drain_state = [1; 2] /\
  pending_garbage Demo.drain_locked = [] /\
  current_combo Demo.drain_locked = -1.
Proof.
  split; [reflexivity|].
  destruct (no_clear_lock_drains_whole_queue Demo.rnd0 Demo.drain_state
              Demo.drain_locked (0, [], -1)) as (_ & Hc & Hp & _).
  - vm_compute. reflexivity.
  - reflexivity.
  - split; assumption.
Defined.

(** C3 at a concrete input: the T piece spawned onto a garbage cell. *)
Lemma next_piece_spawns_witness :
  exists cells hit g',
    get_filled (shape pc_t) (19, 4) 0 = Some cells /\
    any_occupied (board Demo.spawn_state) cells = Ok hit /\
    next_piece Demo.spawn_state = Ok g' /\
    game_over g' = game_over Demo.spawn_state || hit.
Proof.
  destruct (next_piece_spawns Demo.spawn_state pc_t)
    as (cells & hit & g' & H1 & H2 & _ & H4 & _ & _ & _ & H8 & _).
  - apply demo_dims; reflexivity.
  - reflexivity.
  - exists cells, hit, g'. auto.
Defined.

(** C6 at a concrete input: a square with another one on its left. *)
Lemma refused_attempt_witness :
  move_left Demo.beside_state = Ok (not_moved, Demo.beside_state).
Proof.
  refine (proj1 (refused_attempt_is_noop Demo.beside_state (shape pc_o)
                   [(0, 5); (1, 4); (0, 4); (1, 5)] _ _ _ _) _).
  - apply demo_dims; reflexivity.
  - reflexivity.
  - reflexivity.
  - unfold on_board. repeat apply Forall_cons; try apply Forall_nil; simpl; lia.
  - vm_compute. reflexivity.
Defined.



(** C9 at a concrete input: the example of the specification. *)
Lemma prune_keeps_best_n_witness :
  exists (kept_idx : list nat) (kept : list Z),
    prune_indices 2 (map (fun s => s) [5; 1; 9; 3; 7]) = Ok (map Z.of_nat kept_idx) /\
    prune 2 (fun s => s) [5; 1; 9; 3; 7] = Ok kept /\
    length kept = Z.to_nat 2.
Proof.
  destruct (prune_keeps_best_n 2 (fun s : Z => s) [5; 1; 9; 3; 7])
    as (kept_idx & kept & H1 & H2 & H3 & _).
  - simpl. lia.
  - exists kept_idx, kept. auto.
Defined.

(** C10 at a concrete input: a state reached by a game. *)
Lemma board_dimensions_witness : board_dims (board Demo.beside_state).
Proof.
  apply (proj2 (proj2 board_dimensions_invariant)). apply beside_state_reachable.
Defined.

(** ** Candidates within the board *)

Lemma kicks_cw_rise (p : tag) (o : Z) : Forall (fun k : kick => k.1.1 <= 2) (kicks_cw p o).
Proof.
  unfold kicks_cw. repeat case_match;
    repeat apply Forall_cons; try apply Forall_nil; simpl; lia.
Qed.

Lemma kicks_ccw_rise (p : tag) (o : Z) : Forall (fun k : kick => k.1.1 <= 2) (kicks_ccw p o).
Proof.
  unfold kicks_ccw. repeat case_match;
    repeat apply Forall_cons; try apply Forall_nil; simpl; lia.
Qed.

(** With the anchor in row 35 or below, every rotation candidate lies within
    the 40 rows. *)
Lemma kick_rows_in_board (g : TetrominoGame) (p : tag) (cands : list kick) :
  (piece_position g).1 <= 35 ->
  Forall (fun k : kick => k.1.1 <= 2) cands ->
  Forall (fun k => forall cells, kick_target g p k = Some cells ->
                                 Forall (fun c => c.1 <= 39) cells) cands.
Proof.
  intros Hy. apply Forall_impl. intros [[dy dx] o] Hdy cells Hcells.
  unfold kick_target in Hcells. simpl in *.
  apply get_filled_bounds in Hcells as [_ Hb].
  revert Hb. apply Forall_impl. intros c Hc. lia.
Qed.

(** ** The lock always ends *)

Lemma bind_not_Diverge {A B} (c : result A) (k : A -> result B) :
  c <> Diverge -> (forall a, k a <> Diverge) -> c ≫= k <> Diverge.
Proof. destruct c; simpl; auto. Qed.

Lemma Py_get_not_Diverge {A} (l : list A) (i : Z) : Py.get l i <> Diverge.
Proof. unfold Py.get. repeat case_match; discriminate. Qed.

Lemma Py_set_not_Diverge {A} (l : list A) (i : Z) (v : A) : Py.set l i v <> Diverge.
Proof. unfold Py.set. repeat case_match; discriminate. Qed.

Lemma Py_pop_at_not_Diverge {A} (l : list A) (i : Z) : Py.pop_at l i <> Diverge.
Proof. unfold Py.pop_at. repeat case_match; discriminate. Qed.

Ltac no_div :=
  repeat first
    [ apply bind_not_Diverge; [|intros ?]
    | apply Py_get_not_Diverge
    | apply Py_set_not_Diverge
    | apply Py_pop_at_not_Diverge
    | discriminate
    | assumption
    | match goal with
      | |- (match ?x with _ => _ end) <> Diverge => destruct x
      | |- (let '(_, _) := ?x in _) <> Diverge => destruct x
      end ].

Lemma board_get_not_Diverge (b : board_t) (c : cell) : board_get b c <> Diverge.
Proof. unfold board_get. no_div. Qed.

Lemma board_set_not_Diverge (b : board_t) (c : cell) (v : tag) :
  board_set b c v <> Diverge.
Proof. unfold board_set. no_div. Qed.

Lemma fill_cells_not_Diverge (cells : list cell) (b : board_t) (v : tag) :
  fill_cells b cells v <> Diverge.
Proof.
  revert b. induction cells as [|c cells IH]; intros b; simpl; [discriminate|].
  apply bind_not_Diverge; [apply board_set_not_Diverge|auto].
Qed.

Lemma any_occupied_not_Diverge (cells : list cell) (b : board_t) :
  any_occupied b cells <> Diverge.
Proof.
  induction cells as [|c cells IH]; simpl; [discriminate|].
  apply bind_not_Diverge; [apply board_get_not_Diverge|].
  intros v. by destruct (is_blank v).
Qed.

Lemma get_piece_not_Diverge (g : TetrominoGame) (pos : Z) : get_piece g pos <> Diverge.
Proof. unfold get_piece, queue_at. no_div. Qed.

Lemma next_piece_not_Diverge (g : TetrominoGame) : next_piece g <> Diverge.
Proof.
  unfold next_piece. cbv zeta.
  apply bind_not_Diverge; [apply get_piece_not_Diverge|intros p].
  apply bind_not_Diverge; [unfold iter_cells; no_div|intros filled].
  apply bind_not_Diverge; [apply any_occupied_not_Diverge|intros hit].
  apply bind_not_Diverge; [apply fill_cells_not_Diverge|discriminate].
Qed.

Lemma scan_rows_not_Diverge (b : board_t) (rows : list Z) : scan_rows b rows <> Diverge.
Proof.
  induction rows as [|i rows IH]; simpl; [discriminate|].
  apply bind_not_Diverge; [apply Py_get_not_Diverge|intros row].
  apply bind_not_Diverge; [assumption|discriminate].
Qed.

Lemma filled_at_not_Diverge (g : TetrominoGame) (y x : Z) : filled_at g y x <> Diverge.
Proof.
  unfold filled_at. apply bind_not_Diverge; [apply board_get_not_Diverge|discriminate].
Qed.

Lemma check_t_spin_not_Diverge (g : TetrominoGame) : check_t_spin g <> Diverge.
Proof.
  unfold check_t_spin. destruct (piece_position g) as [y x].
  repeat first
    [ discriminate
    | apply bind_not_Diverge; [apply filled_at_not_Diverge|intros ?]
    | match goal with
      | |- (if ?c then _ else _) <> Diverge => destruct c
      end ].
Qed.

Lemma remove_rows_not_Diverge (rows : list Z) (b : board_t) :
  remove_rows b rows <> Diverge.
Proof.
  revert b. induction rows as [|i rows IH]; intros b; simpl; [discriminate|].
  apply bind_not_Diverge; [apply Py_pop_at_not_Diverge|auto].
Qed.

Lemma table_entry_nonneg (table : list Z) (i v : Z) :
  Forall (fun t => 0 <= t) table -> Py.get table i = Ok v -> 0 <= v.
Proof.
  intros Htab H. apply Py_get_elem_of in H. exact (Forall_elem_of _ _ _ Htab H).
Qed.

Lemma ATTACK_TABLE_nonneg : Forall (fun t => 0 <= t) ATTACK_TABLE.
Proof. unfold ATTACK_TABLE. repeat apply Forall_cons; try apply Forall_nil; lia. Qed.

Lemma COMBO_TABLE_nonneg : Forall (fun t => 0 <= t) COMBO_TABLE.
Proof. unfold COMBO_TABLE. repeat apply Forall_cons; try apply Forall_nil; lia. Qed.

Lemma b2b_step_nonneg (b2b : bool) (n : Z) (spin : spin_kind) :
  0 <= (b2b_step b2b n spin).1.
Proof. unfold b2b_step, B2B_BONUS. repeat case_match; simpl; lia. Qed.

Lemma bind_not_Diverge_eq {A B} (c : result A) (k : A -> result B) :
  c <> Diverge -> (forall a, c = Ok a -> k a <> Diverge) -> c ≫= k <> Diverge.
Proof. destruct c; simpl; auto. Qed.

Lemma lock_clear_not_Diverge (g : TetrominoGame) (spin : spin_kind) (tiled : list Z) :
  lock_clear g spin tiled <> Diverge.
Proof.
  unfold lock_clear.
  pose proof (b2b_step_nonneg (back_to_back g) (Z.of_nat (length tiled)) spin) as Hbonus.
  destruct (b2b_step _ _ _) as [bonus b2b]. simpl in Hbonus.
  apply bind_not_Diverge_eq; [apply Py_get_not_Diverge|intros base Ebase].
  apply bind_not_Diverge_eq; [apply Py_get_not_Diverge|intros combo Ecombo].
  apply (table_entry_nonneg _ _ _ ATTACK_TABLE_nonneg) in Ebase.
  apply (table_entry_nonneg _ _ _ COMBO_TABLE_nonneg) in Ecombo.
  apply bind_not_Diverge; [apply remove_rows_not_Diverge|intros b].
  apply bind_not_Diverge_eq.
  { destruct (all_clear b); [|discriminate].
    apply bind_not_Diverge; [apply Py_get_not_Diverge|discriminate]. }
  intros [attack pt] Eatk.
  assert (Hatk : 0 <= attack).
  { destruct (all_clear b).
    - vm_compute in Eatk. injection Eatk as <- _. lia.
    - injection Eatk as <- _. lia. }
  destruct (cancel_garbage_returns attack (pending_garbage g) Hatk) as [[u pend] Hc].
  simpl pending_garbage. rewrite Hc. simpl. discriminate.
Qed.

(** The model of [lock_piece] never runs out of fuel: the call returns or
    raises. *)
Lemma lock_piece_not_Diverge (rnd : nat -> nat) (g : TetrominoGame) :
  lock_piece rnd g <> Diverge.
Proof.
  unfold lock_piece. cbv zeta.
  apply bind_not_Diverge.
  { unfold detect_spin. apply bind_not_Diverge; [apply get_piece_not_Diverge|].
    intros p. destruct (bool_decide _); [apply check_t_spin_not_Diverge|discriminate]. }
  intros spin. apply bind_not_Diverge; [apply scan_rows_not_Diverge|].
  intros tiled. apply bind_not_Diverge.
  { destruct tiled; [discriminate|apply lock_clear_not_Diverge]. }
  intros [[raw pt] g1].
  apply bind_not_Diverge; [apply next_piece_not_Diverge|discriminate].
Qed.

Lemma get_filled_anchor (p : tag) (y x o : Z) (cells : list cell) :
  get_filled p (y, x) o = Some cells -> (y, x) ∈ cells /\ NoDup cells.
Proof.
  unfold get_filled.
  destruct p as [| |[]]; cbn [not_o_i bool_decide decide_rel negb orb andb];
    split_orientation o; simpl; intros Hcells;
    repeat case_match; try discriminate;
    injection Hcells as <-;
    (split;
     [rewrite !elem_of_cons; auto 10
     |repeat (apply NoDup_cons_2;
              [rewrite ?elem_of_cons, elem_of_nil; intros Hin;
               repeat destruct Hin as [Hin|Hin];
               try (injection Hin; lia); exact Hin|]);
      apply NoDup_nil_2]).
Qed.

(** X1: a footprint consists of distinct cells and
    contains its anchor. *)
Theorem get_filled_distinct_cells (p : tag) (pos : cell) (o : Z) (cells : list cell) :
  get_filled p pos o = Some cells -> pos ∈ cells /\ NoDup cells.
Proof. destruct pos as [y x]. apply get_filled_anchor. Qed.

(** X1 at a concrete input: the S piece at the
    spawn anchor. *)
Lemma get_filled_distinct_cells_witness :
  (19, 4) ∈ [(19, 3); (19, 4); (20, 4); (20, 5)] /\
  NoDup [(19, 3); (19, 4); (20, 4); (20, 5)].
Proof. apply (get_filled_distinct_cells (shape pc_s) (19, 4) 0). reflexivity. Defined.

(** X2: moving the anchor moves the footprint with it, and nothing else
    decides whether the new placement exists: from a placement that has a
    footprint, the placement at the shifted anchor has the shifted cells as
    its footprint when all of them lie in columns 0..9 at or above row 0,
    and has none otherwise. *)
Theorem get_filled_translates (p : tag) (y x dy dx o : Z) (cur : list cell) :
  get_filled p (y, x) o = Some cur ->
  get_filled p (y + dy, x + dx) o =
    (let moved := map (fun c => (c.1 + dy, c.2 + dx)) cur in
     if forallb above_floorb moved then Some moved else None).
Proof.
  unfold get_filled, above_floorb.
  destruct p as [| |[]]; cbn [not_o_i bool_decide decide_rel negb orb andb];
    split_orientation o; simpl; intros Hcur;
    repeat case_match; try discriminate;
    injection Hcur as <-; simpl in *; bool_hyps;
    try reflexivity; try (repeat (f_equal; try lia); fail); exfalso; lia.
Qed.

(** X2 at a concrete input: a T piece moved from the spawn anchor one row
    down and four columns right. *)
Lemma get_filled_translates_witness :
  get_filled (shape pc_t) (19 + -1, 4 + 4) 0 =
    (let moved := map (fun c => (c.1 + -1, c.2 + 4)) [(19, 3); (19, 4); (19, 5); (20, 4)] in
     if forallb above_floorb moved then Some moved else None).
Proof. apply (get_filled_translates (shape pc_t) 19 4 (-1) 4 0). reflexivity. Defined.

Lemma get_filled_anchor_bounds (p : tag) (y x o : Z) (cells : list cell) :
  get_filled p (y, x) o = Some cells -> 0 <= y /\ 0 <= x <= 9.
Proof.
  intros H. pose proof (get_filled_anchor _ _ _ _ _ H) as [Hin _].
  apply get_filled_bounds in H as [_ Hall].
  pose proof (Forall_elem_of _ _ _ Hall Hin) as Hc. simpl in Hc. lia.
Qed.

Lemma try_place_Some (g g' : TetrominoGame) (p : tag) (pos : cell) (o : Z)
    (act : last_action) :
  get_piece g 0 = Ok p ->
  try_place g p (get_filled p (piece_position g) (piece_orientation g)) pos o act
    = Ok (Some g') ->
  exists cur tiled b1 b2,
    get_filled p (piece_position g) (piece_orientation g) = Some cur /\
    get_filled p pos o = Some tiled /\
    all_free (board g) (Some cur) tiled = Ok true /\
    fill_cells (board g) cur blank = Ok b1 /\
    fill_cells b1 tiled p = Ok b2 /\
    g' = set_previous_action act (set_placement pos o (set_board b2 g)).
Proof.
  intros Hp H.
  destruct (get_filled p (piece_position g) (piece_orientation g)) as [cur|] eqn:Ecur.
  - destruct (try_place_moved _ _ _ _ _ _ _ Hp Ecur H) as (tiled & b1 & b2 & ?).
    exists cur, tiled, b1, b2. tauto.
  - exfalso. unfold try_place in H.
    destruct (get_filled p pos o) as [tiled|]; [|discriminate].
    bind_ok H. destruct a; [|discriminate]. bind_ok H.
    unfold change_board in E0. rewrite Hp in E0. cbn [mbind result_bind] in E0.
    rewrite Ecur in E0. discriminate.
Qed.

(** What a translation attempt does: nothing, or it moves the anchor by the
    offset, redraws the piece and records the move. *)
Lemma try_move_inv (dy dx : Z) (g g' : TetrominoGame) (st : move_status) :
  try_move dy dx g = Ok (st, g') ->
  (st = not_moved /\ g' = g) \/
  (st = moved /\
   exists p cur tiled b1 b2,
     get_piece g 0 = Ok p /\
     get_filled p (piece_position g) (piece_orientation g) = Some cur /\
     get_filled p ((piece_position g).1 + dy, (piece_position g).2 + dx)
       (piece_orientation g) = Some tiled /\
     all_free (board g) (Some cur) tiled = Ok true /\
     fill_cells (board g) cur blank = Ok b1 /\
     fill_cells b1 tiled p = Ok b2 /\
     g' = set_previous_action act_move
            (set_placement ((piece_position g).1 + dy, (piece_position g).2 + dx)
               (piece_orientation g) (set_board b2 g))).
Proof.
  unfold try_move. intros H. bind_ok H. rename a into p.
  destruct (piece_position g) as [y x] eqn:Epos. bind_ok H.
  destruct a as [g1|]; injection H as <- <-; [right|left; auto].
  split; [reflexivity|]. rewrite <- Epos in E0.
  destruct (try_place_Some _ _ _ _ _ _ E E0) as (cur & tiled & b1 & b2 & ?).
  exists p, cur, tiled, b1, b2. cbn [fst snd]. rewrite Epos in *. tauto.
Qed.

(** An attempt towards an anchor with no footprint is refused. *)
Lemma try_move_no_target (dy dx : Z) (g : TetrominoGame) (p : tag) :
  get_piece g 0 = Ok p ->
  get_filled p ((piece_position g).1 + dy, (piece_position g).2 + dx)
    (piece_orientation g) = None ->
  try_move dy dx g = Ok (not_moved, g).
Proof.
  intros Hp Hn. unfold try_move. rewrite Hp. cbn [mbind result_bind].
  destruct (piece_position g) as [y x]. cbn [fst snd] in Hn.
  unfold try_place. rewrite Hn. reflexivity.
Qed.

Lemma shift_loop_inv (dy dx : Z) (n : nat) :
  forall g g',
    shift_loop (try_move dy dx) n g = Ok g' ->
    exists k : nat,
      (k <= n)%nat /\
      piece_position g' =
        ((piece_position g).1 + Z.of_nat k * dy, (piece_position g).2 + Z.of_nat k * dx) /\
      piece_orientation g' = piece_orientation g /\
      (forall i, get_piece g' i = get_piece g i) /\
      (try_move dy dx g' = Ok (not_moved, g') \/
       k = n /\
       ((0 < n)%nat ->
        exists p c1 cn,
          get_piece g 0 = Ok p /\
          get_filled p ((piece_position g).1 + dy, (piece_position g).2 + dx)
            (piece_orientation g) = Some c1 /\
          get_filled p (piece_position g') (piece_orientation g') = Some cn)).
Proof.
  induction n as [|n IH]; intros g g' H.
  - simpl in H. injection H as <-. exists 0%nat.
    destruct (piece_position g) as [y x]. cbn [fst snd].
    repeat split; try lia; try (f_equal; lia).
  - cbn [shift_loop] in H. bind_ok H. destruct a as [st g1].
    destruct (try_move_inv _ _ _ _ _ E) as [[-> ->]|[-> Hmv]].
    + injection H as <-. exists 0%nat.
      destruct (piece_position g) as [y x] eqn:Epos. cbn [fst snd].
      repeat split; try lia; try (f_equal; lia). left. exact E.
    + destruct Hmv as (p & cur & tiled & b1 & b2 & Hp & Hcur & Ht & _ & _ & _ & Hg1).
      apply IH in H as (k & Hk & Hpos & Ho & Hpc & Hend).
      assert (Hpos1 : piece_position g1 =
                ((piece_position g).1 + dy, (piece_position g).2 + dx))
        by (rewrite Hg1; reflexivity).
      assert (Ho1 : piece_orientation g1 = piece_orientation g)
        by (rewrite Hg1; reflexivity).
      assert (Hpc1 : forall i, get_piece g1 i = get_piece g i)
        by (intros i; rewrite Hg1; reflexivity).
      exists (S k). rewrite Hpos, Hpos1, Ho, Ho1. cbn [fst snd].
      split; [lia|]. split; [f_equal; lia|]. split; [reflexivity|].
      split; [intros i; rewrite Hpc; apply Hpc1|].
      destruct Hend as [Hend|[-> Hend]]; [left; exact Hend|right].
      split; [reflexivity|]. intros _.
      destruct n as [|n].
      * exists p, tiled, tiled. split; [exact Hp|]. split; [exact Ht|].
        change (Z.of_nat 0) with 0. rewrite !Z.mul_0_l, !Z.add_0_r. exact Ht.
      * destruct Hend as (p' & c1 & cn & Hp' & _ & Hcn); [lia|].
        rewrite Hpc1, Hp in Hp'. injection Hp' as <-.
        exists p, tiled, cn. split; [exact Hp|]. split; [exact Ht|].
        rewrite Hpos, Hpos1, Ho, Ho1 in Hcn. cbn [fst snd] in Hcn.
        exact Hcn.
Qed.

Lemma drop_loop_shift (n : nat) (g : TetrominoGame) :
  drop_loop n g = shift_loop move_down n g.
Proof.
  revert g. induction n as [|n IH]; intros g; [reflexivity|].
  cbn [drop_loop shift_loop]. destruct (move_down g) as [[[] g1]| |]; simpl; auto.
Qed.

(** A run of translations that returns ends where one more is refused,
    provided the run is long enough to cross the board. *)
Lemma shift_loop_rests (dy dx : Z) (n : nat) (g g' : TetrominoGame) :
  shift_loop (try_move dy dx) n g = Ok g' ->
  (0 < n)%nat ->
  (forall p y x o c1 cn,
      get_filled p (y + dy, x + dx) o = Some c1 ->
      get_filled p (y + Z.of_nat n * dy, x + Z.of_nat n * dx) o = Some cn ->
      (y, x) = piece_position g ->
      get_filled p (y + Z.of_nat n * dy + dy, x + Z.of_nat n * dx + dx) o = None) ->
  try_move dy dx g' = Ok (not_moved, g').
Proof.
  intros H Hn Hedge.
  apply shift_loop_inv in H as (k & _ & Hpos & Ho & Hpc & [Hend|[-> Hend]]);
    [exact Hend|].
  destruct (Hend Hn) as (p & c1 & cn & Hp & Hc1 & Hcn).
  apply try_move_no_target with (p := p); [rewrite Hpc; exact Hp|].
  rewrite Hpos, Ho in *. cbn [fst snd] in *.
  destruct (piece_position g) as [y x] eqn:Epos. cbn [fst snd] in *.
  eapply Hedge; eauto.
Qed.

(** X3: [das_left] moves the piece as far left as it goes: when it returns,
    the row and the orientation are those it started with, the column has
    not grown, and one more [move_left] is refused and changes nothing. *)
Theorem das_left_rests (g g' : TetrominoGame) :
  das_left g = Ok g' ->
  move_left g' = Ok (not_moved, g') /\
  piece_orientation g' = piece_orientation g /\
  (piece_position g').1 = (piece_position g).1 /\
  (piece_position g').2 <= (piece_position g).2.
Proof.
  unfold das_left, move_left. intros H. split.
  - eapply shift_loop_rests; [exact H|lia|].
    intros p y x o c1 cn H1 Hn _.
    apply get_filled_anchor_bounds in H1, Hn.
    destruct (get_filled p _ o) as [c|] eqn:Ec; [|reflexivity].
    apply get_filled_anchor_bounds in Ec. lia.
  - apply shift_loop_inv in H as (k & _ & Hpos & Ho & _).
    rewrite Hpos. cbn [fst snd]. split; [exact Ho|]. lia.
Qed.

(** X4: [das_right], likewise, to the right. *)
Theorem das_right_rests (g g' : TetrominoGame) :
  das_right g = Ok g' ->
  move_right g' = Ok (not_moved, g') /\
  piece_orientation g' = piece_orientation g /\
  (piece_position g').1 = (piece_position g).1 /\
  (piece_position g).2 <= (piece_position g').2.
Proof.
  unfold das_right, move_right. intros H. split.
  - eapply shift_loop_rests; [exact H|lia|].
    intros p y x o c1 cn H1 Hn _.
    apply get_filled_anchor_bounds in H1, Hn.
    destruct (get_filled p _ o) as [c|] eqn:Ec; [|reflexivity].
    apply get_filled_anchor_bounds in Ec. lia.
  - apply shift_loop_inv in H as (k & _ & Hpos & Ho & _).
    rewrite Hpos. cbn [fst snd]. split; [exact Ho|]. lia.
Qed.

Lemma soft_drop_stops (g g' : TetrominoGame) :
  (piece_position g).1 <= 40 ->
  soft_drop g = Ok g' ->
  move_down g' = Ok (not_moved, g') /\
  piece_orientation g' = piece_orientation g /\
  (piece_position g').2 = (piece_position g).2 /\
  (piece_position g').1 <= (piece_position g).1.
Proof.
  unfold soft_drop, move_down. rewrite drop_loop_shift. unfold move_down.
  intros Hy H. split.
  - eapply shift_loop_rests; [exact H|lia|].
    intros p y x o c1 cn H1 Hn Heq. rewrite <- Heq in Hy. cbn [fst] in Hy.
    apply get_filled_anchor_bounds in H1, Hn.
    destruct (get_filled p _ o) as [c|] eqn:Ec; [|reflexivity].
    apply get_filled_anchor_bounds in Ec. lia.
  - apply shift_loop_inv in H as (k & _ & Hpos & Ho & _).
    rewrite Hpos. cbn [fst snd]. split; [exact Ho|]. lia.
Qed.

(** X5: [soft_drop] from an anchor row of at most 40 leaves the piece where
    [move_down] is refused; the column and the orientation are unchanged and
    the row has not grown. *)
Theorem soft_drop_rests (g g' : TetrominoGame) :
  (piece_position g).1 <= 40 ->
  soft_drop g = Ok g' ->
  move_down g' = Ok (not_moved, g') /\
  piece_orientation g' = piece_orientation g /\
  (piece_position g').2 = (piece_position g).2 /\
  (piece_position g').1 <= (piece_position g).1.
Proof. exact (soft_drop_stops g g'). Qed.

(** X3 at a concrete input: the square of a new game. *)
Lemma das_left_rests_witness :
  move_left Sample.left_wall = Ok (not_moved, Sample.left_wall) /\
  piece_orientation Sample.left_wall = piece_orientation Demo.fresh_state /\
  (piece_position Sample.left_wall).1 = (piece_position Demo.fresh_state).1 /\
  (piece_position Sample.left_wall).2 <= (piece_position Demo.fresh_state).2.
Proof. apply (das_left_rests Demo.fresh_state Sample.left_wall). vm_compute. reflexivity. Defined.

(** X4 at a concrete input: the square of a new game. *)
Lemma das_right_rests_witness :
  move_right Sample.right_wall = Ok (not_moved, Sample.right_wall) /\
  piece_orientation Sample.right_wall = piece_orientation Demo.fresh_state /\
  (piece_position Sample.right_wall).1 = (piece_position Demo.fresh_state).1 /\
  (piece_position Demo.fresh_state).2 <= (piece_position Sample.right_wall).2.
Proof. apply (das_right_rests Demo.fresh_state Sample.right_wall). vm_compute. reflexivity. Defined.

(** X5 at a concrete input: the square of a new game. *)
Lemma soft_drop_rests_witness :
  move_down Sample.on_floor = Ok (not_moved, Sample.on_floor) /\
  piece_orientation Sample.on_floor = piece_orientation Demo.fresh_state /\
  (piece_position Sample.on_floor).2 = (piece_position Demo.fresh_state).2 /\
  (piece_position Sample.on_floor).1 <= (piece_position Demo.fresh_state).1.
Proof.
  apply (soft_drop_rests Demo.fresh_state Sample.on_floor).
  - simpl. lia.
  - vm_compute. reflexivity.
Defined.

Lemma same_bookkeeping_refl (g : TetrominoGame) : same_bookkeeping g g.
Proof. unfold same_bookkeeping. tauto. Qed.

Lemma same_bookkeeping_trans (g1 g2 g3 : TetrominoGame) :
  same_bookkeeping g1 g2 -> same_bookkeeping g2 g3 -> same_bookkeeping g1 g3.
Proof. unfold same_bookkeeping. intuition congruence. Qed.

Lemma same_bookkeeping_placed (g : TetrominoGame) (b : board_t) (pos : cell) (o : Z)
    (act : last_action) :
  same_bookkeeping g (set_previous_action act (set_placement pos o (set_board b g))).
Proof. unfold same_bookkeeping. simpl. tauto. Qed.

Lemma try_move_bookkeeping (dy dx : Z) (g g' : TetrominoGame) (st : move_status) :
  try_move dy dx g = Ok (st, g') -> same_bookkeeping g g'.
Proof.
  intros H. destruct (try_move_inv _ _ _ _ _ H) as [[_ ->]|[_ Hmv]].
  - apply same_bookkeeping_refl.
  - destruct Hmv as (p & cur & tiled & b1 & b2 & _ & _ & _ & _ & _ & _ & ->).
    apply same_bookkeeping_placed.
Qed.

Lemma shift_loop_bookkeeping (dy dx : Z) (n : nat) :
  forall g g', shift_loop (try_move dy dx) n g = Ok g' -> same_bookkeeping g g'.
Proof.
  induction n as [|n IH]; intros g g' H.
  - injection H as <-. apply same_bookkeeping_refl.
  - cbn [shift_loop] in H. bind_ok H. destruct a as [st g1].
    apply try_move_bookkeeping in E. destruct st.
    + eapply same_bookkeeping_trans; eauto.
    + by injection H as <-.
Qed.

(** What a rotation does: nothing, or it applies one candidate of its
    table. *)
Lemma try_kicks_inv (cands : list kick) (g g' : TetrominoGame) (p : tag) :
  get_piece g 0 = Ok p ->
  try_kicks g p (get_filled p (piece_position g) (piece_orientation g)) cands = Ok g' ->
  g' = g \/
  exists k cur tiled b1 b2,
    k ∈ cands /\
    get_filled p (piece_position g) (piece_orientation g) = Some cur /\
    get_filled p ((piece_position g).1 + k.1.1, (piece_position g).2 + k.1.2) k.2
      = Some tiled /\
    all_free (board g) (Some cur) tiled = Ok true /\
    fill_cells (board g) cur blank = Ok b1 /\
    fill_cells b1 tiled p = Ok b2 /\
    g' = set_previous_action act_rotate
           (set_placement ((piece_position g).1 + k.1.1, (piece_position g).2 + k.1.2)
              k.2 (set_board b2 g)).
Proof.
  intros Hp. induction cands as [|[[dy dx] o] cands IH]; intros H; simpl in H.
  - left. by injection H as <-.
  - bind_ok H. destruct a as [g1|].
    + injection H as <-. right.
      destruct (try_place_Some _ _ _ _ _ _ Hp E) as (cur & tiled & b1 & b2 & ?).
      exists (dy, dx, o), cur, tiled, b1, b2. cbn [fst snd].
      split; [apply list_elem_of_here|tauto].
    + destruct (IH H) as [->|(k & cur & tiled & b1 & b2 & Hk & ?)]; [by left|right].
      exists k, cur, tiled, b1, b2. split; [by apply list_elem_of_further|tauto].
Qed.

Lemma kicks_cw_shape (p : tag) (o : Z) :
  Forall (fun k : kick =>
            0 <= o <= 3 /\ k.2 = (o + 1) mod 4 /\
            -2 <= k.1.1 <= 2 /\ -2 <= k.1.2 <= 2) (kicks_cw p o).
Proof.
  unfold kicks_cw. repeat case_match; bool_hyps; subst;
    repeat apply Forall_cons; try apply Forall_nil; simpl;
    (split; [lia|split; [reflexivity|lia]]).
Qed.

Lemma kicks_ccw_shape (p : tag) (o : Z) :
  Forall (fun k : kick =>
            0 <= o <= 3 /\ k.2 = (o + 3) mod 4 /\
            -2 <= k.1.1 <= 2 /\ -2 <= k.1.2 <= 2) (kicks_ccw p o).
Proof.
  unfold kicks_ccw. repeat case_match; bool_hyps; subst;
    repeat apply Forall_cons; try apply Forall_nil; simpl;
    (split; [lia|split; [reflexivity|lia]]).
Qed.

(** X6: a clockwise rotation that returns either leaves the state as it was
    or turns the piece from an orientation in 0..3 to the next one modulo 4,
    moving the anchor by at most two rows and two columns, and records the
    rotation; nothing but the board, the placement and the last action
    changes. *)
Theorem rotate_cw_quarter_turn (g g' : TetrominoGame) :
  rotate_cw g = Ok g' ->
  g' = g \/
  (0 <= piece_orientation g <= 3 /\
   piece_orientation g' = (piece_orientation g + 1) mod 4 /\
   Z.abs ((piece_position g').1 - (piece_position g).1) <= 2 /\
   Z.abs ((piece_position g').2 - (piece_position g).2) <= 2 /\
   previous_action g' = act_rotate /\
   same_bookkeeping g g').
Proof.
  unfold rotate_cw. intros H. bind_ok H. rename a into p.
  destruct (try_kicks_inv _ _ _ _ E H)
    as [->|(k & cur & tiled & b1 & b2 & Hk & _ & _ & _ & _ & _ & ->)]; [by left|right].
  pose proof (Forall_elem_of _ _ _ (kicks_cw_shape p (piece_orientation g)) Hk)
    as (Ho & Hk2 & Hdy & Hdx).
  cbn [piece_orientation piece_position previous_action set_previous_action
       set_placement set_board fst snd].
  repeat split; try lia; try exact Hk2; apply same_bookkeeping_placed.
Qed.

(** X7: a counter-clockwise rotation, likewise, to the previous orientation
    modulo 4. *)
Theorem rotate_ccw_quarter_turn (g g' : TetrominoGame) :
  rotate_ccw g = Ok g' ->
  g' = g \/
  (0 <= piece_orientation g <= 3 /\
   piece_orientation g' = (piece_orientation g + 3) mod 4 /\
   Z.abs ((piece_position g').1 - (piece_position g).1) <= 2 /\
   Z.abs ((piece_position g').2 - (piece_position g).2) <= 2 /\
   previous_action g' = act_rotate /\
   same_bookkeeping g g').
Proof.
  unfold rotate_ccw. intros H. bind_ok H. rename a into p.
  destruct (try_kicks_inv _ _ _ _ E H)
    as [->|(k & cur & tiled & b1 & b2 & Hk & _ & _ & _ & _ & _ & ->)]; [by left|right].
  pose proof (Forall_elem_of _ _ _ (kicks_ccw_shape p (piece_orientation g)) Hk)
    as (Ho & Hk2 & Hdy & Hdx).
  cbn [piece_orientation piece_position previous_action set_previous_action
       set_placement set_board fst snd].
  repeat split; try lia; try exact Hk2; apply same_bookkeeping_placed.
Qed.

Lemma rotate_cw_bookkeeping (g g' : TetrominoGame) :
  rotate_cw g = Ok g' -> same_bookkeeping g g'.
Proof.
  unfold rotate_cw. intros H. bind_ok H.
  destruct (try_kicks_inv _ _ _ _ E H)
    as [->|(k & cur & tiled & b1 & b2 & _ & _ & _ & _ & _ & _ & ->)];
    [apply same_bookkeeping_refl|apply same_bookkeeping_placed].
Qed.

Lemma rotate_ccw_bookkeeping (g g' : TetrominoGame) :
  rotate_ccw g = Ok g' -> same_bookkeeping g g'.
Proof.
  unfold rotate_ccw. intros H. bind_ok H.
  destruct (try_kicks_inv _ _ _ _ E H)
    as [->|(k & cur & tiled & b1 & b2 & _ & _ & _ & _ & _ & _ & ->)];
    [apply same_bookkeeping_refl|apply same_bookkeeping_placed].
Qed.

(** X8: moving, dropping without locking and rotating change nothing but
    the board, the placement of the active piece and the last action: the
    queue and its cursor, the combo and back-to-back counters, the hold
    state, the garbage queues, the attack total and the game-over flag
    stay as they were. *)
Theorem piece_actions_keep_bookkeeping (a : action) (g g' : TetrominoGame) :
  moves_piece_only a = true ->
  step a g = Ok g' ->
  same_bookkeeping g g'.
Proof.
  intros Ha H. destruct a; try discriminate; cbn [step] in H.
  - apply fmap_Ok in H as ([st g1] & H & ->). unfold move_left in H.
    exact (try_move_bookkeeping _ _ _ _ _ H).
  - apply fmap_Ok in H as ([st g1] & H & ->). unfold move_right in H.
    exact (try_move_bookkeeping _ _ _ _ _ H).
  - apply fmap_Ok in H as ([st g1] & H & ->). unfold move_down in H.
    exact (try_move_bookkeeping _ _ _ _ _ H).
  - unfold soft_drop in H. rewrite drop_loop_shift in H. unfold move_down in H.
    exact (shift_loop_bookkeeping _ _ _ _ _ H).
  - by apply rotate_cw_bookkeeping.
  - by apply rotate_ccw_bookkeeping.
Qed.

(** X6 at a concrete input: the T piece of a new game. *)
Lemma rotate_cw_quarter_turn_witness :
  Sample.t_cw = Sample.t_state \/
  (0 <= piece_orientation Sample.t_state <= 3 /\
   piece_orientation Sample.t_cw = (piece_orientation Sample.t_state + 1) mod 4 /\
   Z.abs ((piece_position Sample.t_cw).1 - (piece_position Sample.t_state).1) <= 2 /\
   Z.abs ((piece_position Sample.t_cw).2 - (piece_position Sample.t_state).2) <= 2 /\
   previous_action Sample.t_cw = act_rotate /\
   same_bookkeeping Sample.t_state Sample.t_cw).
Proof. apply (rotate_cw_quarter_turn Sample.t_state Sample.t_cw). vm_compute. reflexivity. Defined.

(** X7 at a concrete input: the T piece of a new game. *)
Lemma rotate_ccw_quarter_turn_witness :
  Sample.t_ccw = Sample.t_state \/
  (0 <= piece_orientation Sample.t_state <= 3 /\
   piece_orientation Sample.t_ccw = (piece_orientation Sample.t_state + 3) mod 4 /\
   Z.abs ((piece_position Sample.t_ccw).1 - (piece_position Sample.t_state).1) <= 2 /\
   Z.abs ((piece_position Sample.t_ccw).2 - (piece_position Sample.t_state).2) <= 2 /\
   previous_action Sample.t_ccw = act_rotate /\
   same_bookkeeping Sample.t_state Sample.t_ccw).
Proof. apply (rotate_ccw_quarter_turn Sample.t_state Sample.t_ccw). vm_compute. reflexivity. Defined.

(** X8 at a concrete input: a soft drop. *)
Lemma piece_actions_keep_bookkeeping_witness :
  same_bookkeeping Demo.fresh_state Sample.on_floor.
Proof.
  apply (piece_actions_keep_bookkeeping SoftDrop Demo.fresh_state Sample.on_floor).
  - reflexivity.
  - vm_compute. reflexivity.
Defined.

(** ** Spawning, seen from the result *)

Lemma next_piece_Ok (g g' : TetrominoGame) :
  next_piece g = Ok g' ->
  exists p cells hit b',
    get_piece (advance g) 0 = Ok p /\
    get_filled p (19, 4) 0 = Some cells /\
    any_occupied (board g) cells = Ok hit /\
    fill_cells (board g) cells p = Ok b' /\
    g' = set_board b' (if (hit : bool) then set_game_over true (advance g) else advance g).
Proof.
  intros H. unfold next_piece in H. cbv zeta in H. fold (advance g) in H.
  bind_ok H. rename a into p. bind_ok H. rename a into cells.
  change (piece_position (advance g)) with ((19, 4) : cell) in E0.
  change (piece_orientation (advance g)) with 0 in E0.
  destruct (get_filled p (19, 4) 0) as [cells'|] eqn:Ecells; [|discriminate].
  injection E0 as ->.
  change (board (advance g)) with (board g) in H.
  bind_ok H. rename a into hit. bind_ok H. rename a into b'. injection H as <-.
  exists p, cells, hit, b'.
  split; [exact E|]. split; [exact Ecells|]. split; [exact E0|].
  split; [|reflexivity]. by destruct hit.
Qed.

(** Cells written by [fill_cells] hold the value written. *)
Lemma fill_cells_written (cells : list cell) (b b' : board_t) (v : tag) :
  Forall (fun c => 0 <= c.1 /\ 0 <= c.2) cells ->
  fill_cells b cells v = Ok b' ->
  Forall (fun c => board_get b' c = Ok v) cells.
Proof.
  intros Hnn H.
  pose proof (fill_cells_Ok_peek _ _ _ _ Hnn H) as Hpk.
  assert (Hall : Forall (fun c => 0 <= c.1 /\ 0 <= c.2 /\ is_Some (peek b c)) cells).
  { apply Forall_forall. intros c Hc. apply list_elem_of_In in Hc.
    pose proof (Forall_elem_of _ _ _ Hnn Hc). pose proof (Forall_elem_of _ _ _ Hpk Hc).
    cbv beta in *. tauto. }
  destruct (fill_cells_peek cells b v Hall) as (b2 & Hfill & Hin & _).
  rewrite H in Hfill. injection Hfill as <-.
  apply Forall_forall. intros c Hc. apply list_elem_of_In in Hc.
  pose proof (Forall_elem_of _ _ _ Hnn Hc) as [? ?].
  rewrite board_get_peek by assumption. by rewrite (Hin c Hc).
Qed.

Lemma get_filled_nonneg (p : tag) (pos : cell) (o : Z) (cells : list cell) :
  get_filled p pos o = Some cells -> Forall (fun c => 0 <= c.1 /\ 0 <= c.2) cells.
Proof.
  destruct pos as [y x]. intros H. apply get_filled_bounds in H as [_ H].
  revert H. apply Forall_impl. intros c Hc. lia.
Qed.

Lemma next_piece_drawn (g g' : TetrominoGame) :
  next_piece g = Ok g' ->
  get_piece g' 0 = get_piece (advance g) 0 ->
  piece_drawn g'.
Proof.
  intros H Hsame.
  destruct (next_piece_Ok _ _ H) as (p & cells & hit & b' & Hp & Hc & _ & Hfill & ->).
  exists p, cells. split; [by rewrite Hsame|].
  split; [by destruct hit|].
  assert (Hb : board (set_board b' (if hit then set_game_over true (advance g)
                                    else advance g)) = b') by reflexivity.
  rewrite Hb. eapply fill_cells_written; [|exact Hfill].
  eapply get_filled_nonneg, Hc.
Qed.

Lemma next_piece_fields (g g' : TetrominoGame) :
  next_piece g = Ok g' ->
  queue g' = queue g /\ queue_position g' = queue_position g + 1 /\
  piece_position g' = (19, 4) /\ piece_orientation g' = 0 /\
  hold g' = hold g /\ held g' = held g /\ prev_held g' = prev_held g /\
  held_index g' = held_index g.
Proof.
  intros H.
  destruct (next_piece_Ok _ _ H) as (p & cells & hit & b' & _ & _ & _ & _ & ->).
  by destruct hit.
Qed.

Lemma placed_drawn (g : TetrominoGame) (p : tag) (tiled : list cell) (b1 b2 : board_t)
    (pos : cell) (o : Z) (act : last_action) :
  get_piece g 0 = Ok p ->
  get_filled p pos o = Some tiled ->
  fill_cells b1 tiled p = Ok b2 ->
  piece_drawn (set_previous_action act (set_placement pos o (set_board b2 g))).
Proof.
  intros Hp Ht Hfill. exists p, tiled.
  split; [exact Hp|]. split; [exact Ht|].
  eapply fill_cells_written; [|exact Hfill]. eapply get_filled_nonneg, Ht.
Qed.

Lemma try_move_drawn (dy dx : Z) (g g' : TetrominoGame) (st : move_status) :
  piece_drawn g -> try_move dy dx g = Ok (st, g') -> piece_drawn g'.
Proof.
  intros Hd H. destruct (try_move_inv _ _ _ _ _ H) as [[_ ->]|[_ Hmv]]; [exact Hd|].
  destruct Hmv as (p & cur & tiled & b1 & b2 & Hp & _ & Ht & _ & _ & Hfill & ->).
  eapply placed_drawn; eauto.
Qed.

Lemma shift_loop_drawn (dy dx : Z) (n : nat) :
  forall g g', piece_drawn g -> shift_loop (try_move dy dx) n g = Ok g' -> piece_drawn g'.
Proof.
  induction n as [|n IH]; intros g g' Hd H.
  - by injection H as <-.
  - cbn [shift_loop] in H. bind_ok H. destruct a as [st g1].
    apply (try_move_drawn _ _ _ _ _ Hd) in E. destruct st; [eauto|by injection H as <-].
Qed.

Lemma try_kicks_drawn (cands : list kick) (g g' : TetrominoGame) (p : tag) :
  piece_drawn g ->
  get_piece g 0 = Ok p ->
  try_kicks g p (get_filled p (piece_position g) (piece_orientation g)) cands = Ok g' ->
  piece_drawn g'.
Proof.
  intros Hd Hp H.
  destruct (try_kicks_inv _ _ _ _ Hp H)
    as [->|(k & cur & tiled & b1 & b2 & _ & _ & Ht & _ & _ & Hfill & ->)]; [exact Hd|].
  eapply placed_drawn; eauto.
Qed.

(** ** Hold *)

Lemma hold_piece_Ok (g g' : TetrominoGame) :
  hold g = false ->
  hold_piece g = Ok g' ->
  exists p cur b g3,
    get_piece g 0 = Ok p /\
    get_filled p (piece_position g) (piece_orientation g) = Some cur /\
    fill_cells (board g) cur blank = Ok b /\
    ((held g = blank /\
      exists h,
        queue_at g (queue_position g) = Ok h /\
        next_piece (set_held h (queue_position g) (set_board b g)) = Ok g3 /\
        g' = set_hold true g3) \/
     (held g <> blank /\
      next_piece (set_hold true (set_prev_held (held g) (set_board b g))) = Ok g3 /\
      exists h,
        queue_at g (queue_position g3 - 1) = Ok h /\
        g' = set_held h (queue_position g3 - 1)
               (set_queue_position (queue_position g3 - 1) g3))).
Proof.
  intros Hh H. unfold hold_piece in H. rewrite Hh in H.
  bind_ok H. rename a into p. bind_ok H. rename a into cur.
  destruct (get_filled p _ _) as [cur'|] eqn:Ecur; [|discriminate].
  injection E0 as ->. bind_ok H. rename a into b.
  exists p, cur, b.
  change (held (set_board b g)) with (held g) in H.
  destruct (bool_decide (held g = blank)) eqn:Eheld.
  - apply bool_decide_eq_true in Eheld. bind_ok H. rename a into h.
    bind_ok H. rename a into g3. injection H as <-.
    exists g3. repeat split; try assumption. left. split; [assumption|].
    exists h. repeat split; assumption.
  - apply bool_decide_eq_false in Eheld. bind_ok H. rename a into g3.
    bind_ok H. rename a into h. injection H as <-.
    exists g3. repeat split; try assumption. right. split; [assumption|].
    split; [assumption|]. exists h. split; [|reflexivity].
    pose proof (next_piece_fields _ _ E1) as (Hq & _).
    unfold queue_at in *. simpl in E2. simpl in Hq. by rewrite <- Hq.
Qed.

Lemma hold_piece_first_effect (g g' : TetrominoGame) :
  hold g = false ->
  held g = blank ->
  hold_piece g = Ok g' ->
  hold g' = true /\
  queue_at g (queue_position g) = Ok (held g') /\
  held_index g' = queue_position g /\
  queue_position g' = queue_position g + 1 /\
  get_piece g' 0 = queue_at g (queue_position g + 1) /\
  piece_position g' = (19, 4) /\ piece_orientation g' = 0 /\
  piece_drawn g'.
Proof.
  intros Hh Hheld H.
  destruct (hold_piece_Ok _ _ Hh H)
    as (p & cur & b & g3 & _ & _ & _ & [(_ & h & Hq & Hnext & ->)|(Hne & _)]);
    [|contradiction].
  pose proof (next_piece_fields _ _ Hnext)
    as (Hqu & Hqp & Hpos & Ho & Hhold & Hhd & _ & Hhi).
  simpl in Hqu, Hqp, Hhold, Hhd, Hhi.
  assert (Hgp : get_piece (set_hold true g3) 0 = queue_at g (queue_position g + 1)).
  { unfold get_piece, queue_at. simpl. rewrite Hhi, Hqp, Hqu.
    rewrite Z.eqb_refl. simpl. by rewrite Z.add_0_r. }
  split; [reflexivity|]. split; [simpl; by rewrite Hhd|].
  split; [exact Hhi|]. split; [exact Hqp|]. split; [exact Hgp|].
  split; [exact Hpos|]. split; [exact Ho|].
  assert (Hd : piece_drawn g3).
  { apply (next_piece_drawn _ _ Hnext).
    unfold get_piece, queue_at, advance. simpl. rewrite Hhold, Hh, Hqp, Hqu. simpl.
    reflexivity. }
  destruct Hd as (p' & c' & Hp' & Hc' & Hall).
  exists p', c'. split; [|split; [exact Hc'|exact Hall]].
  rewrite Hgp. rewrite <- Hp'. unfold get_piece, queue_at.
  rewrite Hhold, Hh, Hqp, Hqu. simpl. by rewrite Z.add_0_r.
Qed.

(** X9: the first hold of a game.  With nothing held and the hold available,
    [hold_piece] stores the queue entry under the cursor as the held piece,
    remembers its index, advances the cursor by one and spawns the next
    queue entry as the active piece, drawn at row 19, column 4 in
    orientation 0; the hold is then used up. *)
Theorem hold_piece_first (g g' : TetrominoGame) :
  hold g = false ->
  held g = blank ->
  hold_piece g = Ok g' ->
  hold g' = true /\
  queue_at g (queue_position g) = Ok (held g') /\
  held_index g' = queue_position g /\
  queue_position g' = queue_position g + 1 /\
  get_piece g' 0 = queue_at g (queue_position g + 1) /\
  piece_position g' = (19, 4) /\ piece_orientation g' = 0 /\
  piece_drawn g'.
Proof. exact (hold_piece_first_effect g g'). Qed.

Lemma hold_piece_swap_effect (g g' : TetrominoGame) :
  hold g = false ->
  held g <> blank ->
  hold_piece g = Ok g' ->
  hold g' = true /\
  queue_at g (queue_position g) = Ok (held g') /\
  held_index g' = queue_position g /\
  queue_position g' = queue_position g /\
  prev_held g' = held g /\
  get_piece g' 0 = Ok (held g) /\
  piece_position g' = (19, 4) /\ piece_orientation g' = 0 /\
  (held_index g <> queue_position g -> piece_drawn g').
Proof.
  intros Hh Hheld H.
  destruct (hold_piece_Ok _ _ Hh H)
    as (p & cur & b & g3 & _ & _ & _ & [(He & _)|(_ & Hnext & h & Hq & ->)]);
    [contradiction|].
  pose proof (next_piece_fields _ _ Hnext)
    as (Hqu & Hqp & Hpos & Ho & Hhold & Hhd & Hph & Hhi).
  simpl in Hqu, Hqp, Hhold, Hhd, Hph, Hhi.
  assert (Hcur : queue_position g3 - 1 = queue_position g) by lia.
  rewrite Hcur in *.
  assert (Hgp : get_piece (set_held h (queue_position g)
                             (set_queue_position (queue_position g) g3)) 0
                = Ok (held g)).
  { unfold get_piece. simpl. rewrite Hhold. simpl.
    destruct (Z.eqb_spec (queue_position g + 1) (queue_position g)); [lia|].
    by rewrite Hph. }
  split; [exact Hhold|]. split; [exact Hq|]. split; [reflexivity|].
  split; [reflexivity|]. split; [exact Hph|]. split; [exact Hgp|].
  split; [exact Hpos|]. split; [exact Ho|].
  intros Hidx.
  assert (Hd : piece_drawn g3).
  { apply (next_piece_drawn _ _ Hnext).
    unfold get_piece, advance. simpl. rewrite Hhold, Hhi. simpl.
    destruct (Z.eqb_spec (held_index g + 1) (queue_position g3));
      destruct (Z.eqb_spec (held_index g + 1) (queue_position g + 1)); try lia.
    by rewrite Hph. }
  destruct Hd as (p' & c' & Hp' & Hc' & Hall).
  exists p', c'. split; [|split; [exact Hc'|exact Hall]].
  rewrite Hgp. rewrite <- Hp'. unfold get_piece. rewrite Hhold, Hhi. simpl.
  destruct (Z.eqb_spec (held_index g + 1) (queue_position g3)); [lia|].
  by rewrite Hph.
Qed.

(** X10: a later hold.  With a piece held and the hold available,
    [hold_piece] makes the held piece the active one, spawned at row 19,
    column 4 in orientation 0, stores the queue entry under the cursor as
    the new held piece and leaves the cursor where it was; the hold is then
    used up.  The spawned piece is the one the state names as active when
    the old held index is not the cursor. *)
Theorem hold_piece_swap (g g' : TetrominoGame) :
  hold g = false ->
  held g <> blank ->
  hold_piece g = Ok g' ->
  hold g' = true /\
  queue_at g (queue_position g) = Ok (held g') /\
  held_index g' = queue_position g /\
  queue_position g' = queue_position g /\
  prev_held g' = held g /\
  get_piece g' 0 = Ok (held g) /\
  piece_position g' = (19, 4) /\ piece_orientation g' = 0 /\
  (held_index g <> queue_position g -> piece_drawn g').
Proof. exact (hold_piece_swap_effect g g'). Qed.

Lemma hold_piece_uses_hold (g g' : TetrominoGame) :
  hold_piece g = Ok g' -> hold g' = true.
Proof.
  intros H. destruct (hold g) eqn:Hh.
  - unfold hold_piece in H. rewrite Hh in H. by injection H as <-.
  - destruct (hold_piece_Ok _ _ Hh H)
      as (p & cur & b & g3 & _ & _ & _ & [(_ & h & _ & Hnext & ->)|(_ & Hnext & h & _ & ->)]).
    + reflexivity.
    + by pose proof (next_piece_fields _ _ Hnext) as (_ & _ & _ & _ & ? & _).
Qed.

(** X11: the hold is available once per piece: after a [hold_piece] that
    returns, the hold is used up and a further [hold_piece] returns the
    state as it is. *)
Theorem hold_piece_once (g g' : TetrominoGame) :
  hold_piece g = Ok g' ->
  hold g' = true /\ hold_piece g' = Ok g'.
Proof.
  intros H. apply hold_piece_uses_hold in H. split; [exact H|].
  unfold hold_piece. by rewrite H.
Qed.

(** X9 at a concrete input: the T piece of a new game is held. *)
Lemma hold_piece_first_witness :
  hold Sample.t_held = true /\
  queue_at Sample.t_state (queue_position Sample.t_state) = Ok (held Sample.t_held) /\
  held_index Sample.t_held = queue_position Sample.t_state /\
  queue_position Sample.t_held = queue_position Sample.t_state + 1 /\
  get_piece Sample.t_held 0 = queue_at Sample.t_state (queue_position Sample.t_state + 1) /\
  piece_position Sample.t_held = (19, 4) /\ piece_orientation Sample.t_held = 0 /\
  piece_drawn Sample.t_held.
Proof.
  apply (hold_piece_first Sample.t_state Sample.t_held).
  - reflexivity.
  - reflexivity.
  - vm_compute. reflexivity.
Defined.

(** X10 at a concrete input: the held T piece comes back. *)
Lemma hold_piece_swap_witness :
  hold Sample.t_swapped = true /\
  queue_at Sample.t_held_locked (queue_position Sample.t_held_locked)
    = Ok (held Sample.t_swapped) /\
  held_index Sample.t_swapped = queue_position Sample.t_held_locked /\
  queue_position Sample.t_swapped = queue_position Sample.t_held_locked /\
  prev_held Sample.t_swapped = held Sample.t_held_locked /\
  get_piece Sample.t_swapped 0 = Ok (held Sample.t_held_locked) /\
  piece_position Sample.t_swapped = (19, 4) /\ piece_orientation Sample.t_swapped = 0 /\
  (held_index Sample.t_held_locked <> queue_position Sample.t_held_locked ->
   piece_drawn Sample.t_swapped).
Proof.
  apply (hold_piece_swap Sample.t_held_locked Sample.t_swapped).
  - reflexivity.
  - discriminate.
  - vm_compute. reflexivity.
Defined.

(** X11 at a concrete input. *)
Lemma hold_piece_once_witness :
  hold Sample.t_held = true /\ hold_piece Sample.t_held = Ok Sample.t_held.
Proof. apply (hold_piece_once Sample.t_state Sample.t_held). vm_compute. reflexivity. Defined.

(** ** Garbage cancelling *)

Lemma cancel_loop_exit (fuel : nat) :
  forall (attack u : Z) (pending pend' : list Z),
    0 <= attack ->
    cancel_loop fuel attack pending = Ok (u, pend') ->
    (u = 0 \/ pend' = []) /\
    (attack = 0 -> pend' = pending) /\
    (attack <> 0 ->
     match pending with
     | [] => pend' = []
     | _ :: rest => pend' `suffix_of` rest
     end) /\
    (Forall (fun p => 0 <= p) pending -> 0 <= u <= attack).
Proof.
  induction fuel as [|fuel IH]; intros attack u pending pend' Hatk H; [discriminate|].
  cbn [cancel_loop] in H. destruct (Z.eqb_spec attack 0) as [->|Hne].
  { injection H as <- <-. repeat split; auto; try lia. }
  destruct pending as [|p rest].
  { injection H as <- <-. repeat split; auto; try lia. }
  destruct (Z.leb_spec p attack) as [Hle|Hgt].
  - assert (Hatk' : 0 <= attack - p) by lia.
    destruct (IH _ _ _ _ Hatk' H) as (Hexit & Hzero & Hpos & Hbound).
    split; [exact Hexit|]. split; [lia|]. split.
    + intros _. destruct (Z.eq_dec (attack - p) 0) as [Hz|Hnz].
      * rewrite (Hzero Hz). reflexivity.
      * specialize (Hpos Hnz). destruct rest as [|p' rest'].
        -- subst. reflexivity.
        -- by apply suffix_cons_r.
    + intros Hall. apply Forall_cons_1 in Hall as [Hp Hrest].
      specialize (Hbound Hrest). lia.
  - destruct (IH _ _ _ _ Hatk H) as (Hexit & _ & Hpos & Hbound).
    split; [exact Hexit|]. split; [lia|]. split.
    + intros _. exact (Hpos Hne).
    + intros Hall. apply Forall_cons_1 in Hall as [Hp Hrest].
      apply Hbound. apply Forall_cons; [lia|exact Hrest].
Qed.

(** X12: the cancelling loop on a non-negative attack always ends.  It
    returns what is left of the attack and of the pending queue: one of the
    two is used up, the queue returned is a tail of the queue given, with
    its entries as they were, and, the entries given being non-negative,
    the attack returned lies between 0 and the attack given. *)
Theorem cancel_garbage_leaves_tail (attack : Z) (pending : list Z) :
  0 <= attack ->
  exists u pend',
    cancel_garbage attack pending = Ok (u, pend') /\
    (u = 0 \/ pend' = []) /\
    pend' `suffix_of` pending /\
    (Forall (fun p => 0 <= p) pending -> 0 <= u <= attack).
Proof.
  intros Hatk. destruct (cancel_garbage_returns attack pending Hatk) as ([u pend'] & H).
  exists u, pend'. split; [exact H|].
  destruct (cancel_loop_exit _ _ _ _ _ Hatk H) as (Hexit & Hzero & Hpos & Hbound).
  split; [exact Hexit|]. split; [|exact Hbound].
  destruct (Z.eq_dec attack 0) as [Hz|Hnz].
  - by rewrite (Hzero Hz).
  - specialize (Hpos Hnz). destruct pending as [|p rest].
    + by subst.
    + by apply suffix_cons_r.
Qed.

(** ** Lock, seen from the result *)

Lemma lock_clear_frame (g g' : TetrominoGame) (spin : spin_kind) (tiled : list Z)
    (raw pt : Z) :
  lock_clear g spin tiled = Ok (raw, pt, g') ->
  queue g' = queue g /\ queue_position g' = queue_position g /\
  hold g' = hold g /\ held g' = held g /\ prev_held g' = prev_held g /\
  held_index g' = held_index g /\ total_attack g' = total_attack g /\
  game_over g' = game_over g.
Proof.
  intros H. unfold lock_clear in H.
  destruct (b2b_step (back_to_back g) _ spin) as [bonus b2b].
  do 4 bind_ok H. destruct a2 as [atk ptype]. bind_ok H.
  destruct a2 as [unspent pend]. injection H as <- <- <-.
  by destruct (unspent =? 0).
Qed.

Lemma lock_clear_attack_bounds (g g' : TetrominoGame) (spin : spin_kind)
    (tiled : list Z) (raw pt : Z) :
  lock_clear g spin tiled = Ok (raw, pt, g') -> 0 <= raw <= 16.
Proof.
  intros H. apply lock_clear_Ok in H
    as (base & combo & b' & unspent & pend & Hbase & Hcombo & _ & -> & _).
  destruct (all_clear b'); [lia|].
  assert (Hb : 0 <= (b2b_step (back_to_back g) (Z.of_nat (length tiled)) spin).1 <= 1).
  { unfold b2b_step, B2B_BONUS. repeat case_match; simpl; lia. }
  apply Py_get_elem_of in Hbase, Hcombo.
  assert (Ha : Forall (fun t => 0 <= t <= 10) ATTACK_TABLE)
    by (unfold ATTACK_TABLE; repeat apply Forall_cons; try apply Forall_nil; lia).
  assert (Hc : Forall (fun t => 0 <= t <= 5) COMBO_TABLE)
    by (unfold COMBO_TABLE; repeat apply Forall_cons; try apply Forall_nil; lia).
  pose proof (Forall_elem_of _ _ _ Ha Hbase) as Hbase'.
  pose proof (Forall_elem_of _ _ _ Hc Hcombo) as Hcombo'.
  cbv beta in *. lia.
Qed.

Lemma lock_piece_fields (rnd : nat -> nat) (g g' : TetrominoGame)
    (raw pt : Z) (tiled : list Z) :
  lock_piece rnd g = Ok ((raw, tiled, pt), g') ->
  hold g' = false /\
  previous_action g' = act_lock /\
  queue_position g' = queue_position g + 1 /\
  piece_position g' = (19, 4) /\ piece_orientation g' = 0 /\
  queue g' = queue g /\ held g' = held g /\ held_index g' = held_index g /\
  0 <= raw <= 16 /\
  total_attack g' = total_attack g + raw.
Proof.
  intros H. apply lock_piece_Ok in H
    as (spin & tiled' & raw' & pt' & g1 & g2 & _ & _ & Hbranch & Hnext & Hout & ->).
  injection Hout as -> -> ->.
  pose proof (next_piece_fields _ _ Hnext)
    as (Hqu & Hqp & Hpos & Ho & Hhold & Hhd & _ & Hhi).
  pose proof (next_piece_frame _ _ Hnext) as (_ & _ & _ & _ & Hta & Hpa).
  simpl in Hqu, Hqp, Hhold, Hhd, Hhi, Hta, Hpa.
  assert (Hg1 : queue g1 = queue g /\ queue_position g1 = queue_position g /\
                hold g1 = false /\ held g1 = held g /\ held_index g1 = held_index g /\
                total_attack g1 = total_attack g /\ 0 <= raw' <= 16).
  { destruct tiled' as [|i rest].
    - injection Hbranch as <- <- <-. simpl. repeat split; lia.
    - pose proof (lock_clear_attack_bounds _ _ _ _ _ _ Hbranch).
      apply lock_clear_frame in Hbranch. simpl in Hbranch. tauto. }
  destruct Hg1 as (Hq1 & Hp1 & Hh1 & Hd1 & Hi1 & Ht1 & Hraw).
  cbn [hold previous_action queue_position piece_position piece_orientation queue
       held held_index total_attack set_total_attack].
  repeat split; try congruence; try lia.
Qed.

(** X13: what every lock that returns leaves behind.  The hold is available
    again, the last action is the lock, the cursor has advanced by one and
    the next piece stands at row 19, column 4 in orientation 0; the queue
    and the held piece are as before; the attack of the lock lies between
    0 and 16 and has been added to the attack total. *)
Theorem lock_piece_bookkeeping (rnd : nat -> nat) (g g' : TetrominoGame)
    (raw pt : Z) (tiled : list Z) :
  lock_piece rnd g = Ok ((raw, tiled, pt), g') ->
  hold g' = false /\
  previous_action g' = act_lock /\
  queue_position g' = queue_position g + 1 /\
  piece_position g' = (19, 4) /\ piece_orientation g' = 0 /\
  queue g' = queue g /\ held g' = held g /\ held_index g' = held_index g /\
  0 <= raw <= 16 /\
  total_attack g' = total_attack g + raw.
Proof. exact (lock_piece_fields rnd g g' raw pt tiled). Qed.

(** X14: what a lock does to the two garbage queues when the pending
    entries are non-negative.  The pending queue afterwards is a tail of
    the one before; at most one entry is appended to the garbage sent, it
    is positive and at most the attack of the lock, and it is appended only
    when no garbage is left pending. *)
Theorem lock_piece_garbage_queues (rnd : nat -> nat) (g g' : TetrominoGame)
    (raw pt : Z) (tiled : list Z) :
  Forall (fun p => 0 <= p) (pending_garbage g) ->
  lock_piece rnd g = Ok ((raw, tiled, pt), g') ->
  pending_garbage g' `suffix_of` pending_garbage g /\
  (sent_garbage g' = sent_garbage g \/
   pending_garbage g' = [] /\
   exists u, 0 < u <= raw /\ sent_garbage g' = sent_garbage g ++ [u]).
Proof.
  intros Hpend H. apply lock_piece_Ok in H
    as (spin & tiled' & raw' & pt' & g1 & g2 & _ & _ & Hbranch & Hnext & Hout & ->).
  injection Hout as -> -> ->.
  pose proof (next_piece_frame _ _ Hnext) as (_ & _ & Hpg & Hsg & _ & _).
  simpl in Hpg, Hsg.
  cbn [pending_garbage sent_garbage set_total_attack]. rewrite Hpg, Hsg.
  destruct tiled' as [|i rest].
  - injection Hbranch as <- <- <-. simpl. split; [apply suffix_nil|by left].
  - pose proof (lock_clear_attack_bounds _ _ _ _ _ _ Hbranch) as Hraw.
    apply lock_clear_Ok in Hbranch
      as (base & combo & b' & unspent & pend & _ & _ & _ & _ & _ & Hcancel & _ & _ & _
          & Hp1 & Hs1).
    simpl in Hcancel, Hs1. rewrite Hp1, Hs1.
    assert (Hraw0 : 0 <= raw') by lia.
    destruct (cancel_loop_exit _ _ _ _ _ Hraw0 Hcancel)
      as (Hexit & Hzero & Hpos & Hbound).
    specialize (Hbound Hpend). split.
    + destruct (Z.eq_dec raw' 0) as [Hz|Hnz]; [by rewrite (Hzero Hz)|].
      specialize (Hpos Hnz). destruct (pending_garbage g) as [|p0 rest0].
      * rewrite Hpos. reflexivity.
      * by apply suffix_cons_r.
    + destruct (Z.eqb_spec unspent 0) as [Hu|Hu]; [by left|right].
      destruct Hexit as [?|Hnil]; [contradiction|].
      split; [exact Hnil|]. exists unspent. split; [lia|reflexivity].
Qed.

(** X12 at a concrete input: an attack of 7 against
    four pending entries. *)
Lemma cancel_garbage_leaves_tail_witness :
  exists u pend',
    cancel_garbage 7 [2; 3; 4; 1] = Ok (u, pend') /\
    (u = 0 \/ pend' = []) /\
    pend' `suffix_of` [2; 3; 4; 1] /\
    (Forall (fun p => 0 <= p) [2; 3; 4; 1] -> 0 <= u <= 7).
Proof. apply (cancel_garbage_leaves_tail 7 [2; 3; 4; 1]). lia. Defined.

(** X13 at a concrete input: a lock that clears four
    rows. *)
Lemma lock_piece_bookkeeping_witness :
  hold Demo.tetris_locked = false /\
  previous_action Demo.tetris_locked = act_lock /\
  queue_position Demo.tetris_locked = queue_position Demo.tetris_state + 1 /\
  piece_position Demo.tetris_locked = (19, 4) /\
  piece_orientation Demo.tetris_locked = 0 /\
  queue Demo.tetris_locked = queue Demo.tetris_state /\
  held Demo.tetris_locked = held Demo.tetris_state /\
  held_index Demo.tetris_locked = held_index Demo.tetris_state /\
  0 <= 4 <= 16 /\
  total_attack Demo.tetris_locked = total_attack Demo.tetris_state + 4.
Proof.
  apply (lock_piece_bookkeeping Demo.rnd0 Demo.tetris_state Demo.tetris_locked
           4 3 [0; 1; 2; 3]).
  vm_compute. reflexivity.
Defined.

(** X14 at a concrete input: the same lock, which
    sends its whole attack. *)
Lemma lock_piece_garbage_queues_witness :
  pending_garbage Demo.tetris_locked `suffix_of` pending_garbage Demo.tetris_state /\
  (sent_garbage Demo.tetris_locked = sent_garbage Demo.tetris_state \/
   pending_garbage Demo.tetris_locked = [] /\
   exists u, 0 < u <= 4 /\
             sent_garbage Demo.tetris_locked = sent_garbage Demo.tetris_state ++ [u]).
Proof.
  apply (lock_piece_garbage_queues Demo.rnd0 Demo.tetris_state Demo.tetris_locked
           4 3 [0; 1; 2; 3]).
  - apply Forall_nil.
  - vm_compute. reflexivity.
Defined.

(** ** The active piece is on the board *)

Lemma hold_ok_bookkeeping (g g' : TetrominoGame) :
  same_bookkeeping g g' -> hold_ok g -> hold_ok g'.
Proof.
  unfold same_bookkeeping, hold_ok. intros (_ & Hqp & _ & _ & Hh & _ & _ & Hi & _).
  by rewrite Hqp, Hh, Hi.
Qed.

Lemma hold_piece_inv (g g' : TetrominoGame) :
  piece_drawn g /\ hold_ok g -> hold_piece g = Ok g' -> piece_drawn g' /\ hold_ok g'.
Proof.
  intros [Hd Hok] H. destruct (hold g) eqn:Hh.
  { unfold hold_piece in H. rewrite Hh in H. by injection H as <-. }
  destruct (decide (held g = blank)) as [Hb|Hb].
  - destruct (hold_piece_first_effect _ _ Hh Hb H)
      as (Hh' & _ & Hi & Hqp & _ & _ & _ & Hd').
    split; [exact Hd'|]. unfold hold_ok. rewrite Hh', Hi, Hqp. by left.
  - destruct (hold_piece_swap_effect _ _ Hh Hb H)
      as (Hh' & _ & Hi & Hqp & _ & _ & _ & _ & Hd').
    unfold hold_ok in Hok. rewrite Hh in Hok.
    split; [apply Hd'; lia|]. unfold hold_ok. rewrite Hh', Hi, Hqp. by right.
Qed.

Lemma lock_piece_inv (rnd : nat -> nat) (g g' : TetrominoGame) (out : lock_outcome) :
  hold_ok g -> lock_piece rnd g = Ok (out, g') -> piece_drawn g' /\ hold_ok g'.
Proof.
  intros Hok H. destruct out as [[raw tiled] pt].
  pose proof (lock_piece_fields _ _ _ _ _ _ H)
    as (Hh & _ & Hqp & _ & _ & _ & _ & Hi & _).
  split.
  - apply lock_piece_Ok in H
      as (spin & tiled' & raw' & pt' & g1 & g2 & _ & _ & _ & Hnext & _ & ->).
    pose proof (next_piece_fields _ _ Hnext) as (Hqu & Hqp2 & _ & _ & Hh2 & _).
    simpl in Hh. simpl in Hqu, Hqp2, Hh2.
    assert (Hd : piece_drawn g2).
    { apply (next_piece_drawn _ _ Hnext).
      assert (Hh1 : hold g1 = false) by congruence.
      unfold get_piece, queue_at, advance. simpl. rewrite Hh, Hh1.
      simpl. by rewrite Hqu, Hqp2. }
    destruct Hd as (p & cells & Hp & Hc & Hall). by exists p, cells.
  - unfold hold_ok in *. rewrite Hh, Hqp, Hi. destruct (hold g); lia.
Qed.

Lemma step_inv (a : action) (g g' : TetrominoGame) :
  piece_drawn g /\ hold_ok g -> step a g = Ok g' -> piece_drawn g' /\ hold_ok g'.
Proof.
  intros [Hd Hok] H. destruct a; cbn [step] in H.
  - apply fmap_Ok in H as ([st g1] & H & ->). unfold move_left in H.
    split; [exact (try_move_drawn _ _ _ _ _ Hd H)|].
    exact (hold_ok_bookkeeping _ _ (try_move_bookkeeping _ _ _ _ _ H) Hok).
  - apply fmap_Ok in H as ([st g1] & H & ->). unfold move_right in H.
    split; [exact (try_move_drawn _ _ _ _ _ Hd H)|].
    exact (hold_ok_bookkeeping _ _ (try_move_bookkeeping _ _ _ _ _ H) Hok).
  - apply fmap_Ok in H as ([st g1] & H & ->). unfold move_down in H.
    split; [exact (try_move_drawn _ _ _ _ _ Hd H)|].
    exact (hold_ok_bookkeeping _ _ (try_move_bookkeeping _ _ _ _ _ H) Hok).
  - unfold soft_drop in H. rewrite drop_loop_shift in H. unfold move_down in H.
    split; [exact (shift_loop_drawn _ _ _ _ _ Hd H)|].
    exact (hold_ok_bookkeeping _ _ (shift_loop_bookkeeping _ _ _ _ _ H) Hok).
  - eapply hold_piece_inv; eauto.
  - split; [|eapply hold_ok_bookkeeping; [eapply rotate_cw_bookkeeping, H|exact Hok]].
    unfold rotate_cw in H. bind_ok H. eapply try_kicks_drawn; eauto.
  - split; [|eapply hold_ok_bookkeeping; [eapply rotate_ccw_bookkeeping, H|exact Hok]].
    unfold rotate_ccw in H. bind_ok H. eapply try_kicks_drawn; eauto.
  - apply fmap_Ok in H as ([out g1] & H & ->). unfold hard_drop in H. bind_ok H.
    unfold soft_drop in E. rewrite drop_loop_shift in E. unfold move_down in E.
    eapply lock_piece_inv; [|exact H].
    exact (hold_ok_bookkeeping _ _ (shift_loop_bookkeeping _ _ _ _ _ E) Hok).
  - apply fmap_Ok in H as ([out g1] & H & ->). eapply lock_piece_inv; eauto.
Qed.

Lemma new_game_inv (q : list piece) (g : TetrominoGame) :
  new_game q = Ok g -> piece_drawn g /\ hold_ok g.
Proof.
  intros H. unfold new_game in H. bind_ok H. injection H as <-.
  pose proof (next_piece_fields _ _ E) as (Hqu & Hqp & _ & _ & Hh & _ & _ & Hi).
  simpl in Hqu, Hqp, Hh, Hi. split.
  - assert (Hd : piece_drawn a).
    { apply (next_piece_drawn _ _ E).
      unfold get_piece, queue_at, advance. simpl. by rewrite Hh, Hqu, Hqp. }
    destruct Hd as (p & cells & Hp & Hc & Hall). by exists p, cells.
  - unfold hold_ok. simpl. rewrite Hh, Hi, Hqp. lia.
Qed.

Lemma run_inv (acts : list action) :
  forall g g', piece_drawn g /\ hold_ok g -> run acts g = Ok g' ->
               piece_drawn g' /\ hold_ok g'.
Proof.
  induction acts as [|a acts IH]; intros g g' Hinv H; simpl in H.
  - by injection H as <-.
  - bind_ok H. eauto using step_inv.
Qed.

(** X15: in every state that a game reaches, the piece that the state names
    as active has a footprint at the recorded anchor and orientation, and
    every cell of that footprint on the board holds the piece; the hold
    bookkeeping is consistent. *)
Theorem reachable_piece_drawn (g : TetrominoGame) :
  reachable g -> piece_drawn g /\ hold_ok g.
Proof.
  intros (q & acts & g0 & Hnew & Hrun).
  eapply run_inv; [|exact Hrun]. eapply new_game_inv, Hnew.
Qed.

(** X15 at a concrete input: a state reached by a game. *)
Lemma reachable_piece_drawn_witness :
  piece_drawn Demo.beside_state /\ hold_ok Demo.beside_state.
Proof. apply (reachable_piece_drawn Demo.beside_state). apply beside_state_reachable. Defined.

(** ** Full rows *)

Lemma scan_rows_spec (b : board_t) (n : nat) :
  forall k : nat,
    (k + n <= length b)%nat ->
    exists tiled,
      scan_rows b (map Z.of_nat (seq k n)) = Ok tiled /\
      StronglySorted Z.lt tiled /\
      (forall i, i ∈ tiled <->
                 Z.of_nat k <= i < Z.of_nat (k + n) /\
                 exists row, b !! Z.to_nat i = Some row /\ row_full row = true).
Proof.
  induction n as [|n IH]; intros k Hk.
  - exists []. split; [reflexivity|]. split; [constructor|].
    intros i. rewrite elem_of_nil. split; [tauto|lia].
  - destruct (IH (S k) ltac:(lia)) as (tiled & Hscan & Hsorted & Hmem).
    assert (Hrow : is_Some (b !! k)) by (apply lookup_lt_is_Some; lia).
    destruct Hrow as [row Hrow].
    cbn [seq map scan_rows]. rewrite (proj2 (Py_get_of_nat b k row) Hrow).
    cbn [mbind result_bind]. rewrite Hscan. cbn [mbind result_bind].
    destruct (row_full row) eqn:Hfull.
    + exists (Z.of_nat k :: tiled). split; [reflexivity|]. split.
      * constructor; [exact Hsorted|].
        apply Forall_forall. intros i Hi. apply list_elem_of_In, Hmem in Hi. lia.
      * intros i. rewrite elem_of_cons, Hmem. split.
        -- intros [->|[Hi Hex]]; [|split; [lia|exact Hex]].
           split; [lia|]. exists row. by rewrite Nat2Z.id.
        -- intros [Hi Hex]. destruct (Z.eq_dec i (Z.of_nat k)) as [->|Hne]; [by left|].
           right. split; [lia|exact Hex].
    + exists tiled. split; [reflexivity|]. split; [exact Hsorted|].
      intros i. rewrite Hmem. split.
      * intros [Hi Hex]. split; [lia|exact Hex].
      * intros [Hi (row' & Hrow' & Hfull')].
        destruct (Z.eq_dec i (Z.of_nat k)) as [->|Hne].
        -- rewrite Nat2Z.id, Hrow in Hrow'. injection Hrow' as <-. congruence.
        -- split; [lia|]. by exists row'.
Qed.

Lemma check_tiled_rows (g : TetrominoGame) :
  length (board g) = 40%nat ->
  3 <= (piece_position g).1 <= 36 ->
  exists tiled,
    check_tiled g = Ok tiled /\
    StronglySorted Z.lt tiled /\
    (forall i, i ∈ tiled <->
               (piece_position g).1 - 3 <= i <= (piece_position g).1 + 3 /\
               exists row, board g !! Z.to_nat i = Some row /\ row_full row = true).
Proof.
  intros Hlen Hy. unfold check_tiled. cbv zeta.
  set (y := (piece_position g).1) in *.
  assert (Hr : Py.range (y - 3) (y + 4) = map Z.of_nat (seq (Z.to_nat (y - 3)) 7)).
  { rewrite <- Py_range_nonneg. f_equal; lia. }
  rewrite Hr.
  assert (Hfit : (Z.to_nat (y - 3) + 7 <= length (board g))%nat) by lia.
  destruct (scan_rows_spec (board g) 7 (Z.to_nat (y - 3)) Hfit)
    as (tiled & Hscan & Hsorted & Hmem).
  exists tiled. split; [exact Hscan|]. split; [exact Hsorted|].
  intros i. rewrite Hmem. split; intros [Hi Hex]; (split; [lia|exact Hex]).
Qed.

Lemma scan_rows_app (b : board_t) (l1 l2 : list Z) :
  scan_rows b (l1 ++ l2) =
    t1 ← scan_rows b l1; t2 ← scan_rows b l2; Ok (t1 ++ t2).
Proof.
  induction l1 as [|i l1 IH]; simpl.
  - by destruct (scan_rows b l2).
  - destruct (Py.get b i) as [row| |]; simpl; try reflexivity.
    rewrite IH. destruct (scan_rows b l1) as [t1| |]; simpl; try reflexivity.
    destruct (scan_rows b l2) as [t2| |]; simpl; try reflexivity.
    by destruct (row_full row).
Qed.

(** Reading the top rows through a negative index. *)
Lemma Py_get_from_end (b : board_t) (j : Z) :
  length b = 40%nat -> -3 <= j <= -1 ->
  exists row, b !! Z.to_nat (40 + j) = Some row /\ Py.get b j = Ok row.
Proof.
  intros Hlen Hj.
  assert (Hrow : is_Some (b !! Z.to_nat (40 + j))) by (apply lookup_lt_is_Some; lia).
  destruct Hrow as [row Hrow]. exists row. split; [exact Hrow|].
  unfold Py.get, Py.index. rewrite Hlen.
  destruct (Z.leb_spec 0 j); [lia|]. rewrite andb_false_l.
  destruct (Z.leb_spec (- Z.of_nat 40) j); [|lia].
  destruct (Z.ltb_spec j 0); [|lia]. simpl andb. cbv iota.
  replace (Z.to_nat (Z.of_nat 40 + j)) with (Z.to_nat (40 + j)) by lia.
  by rewrite Hrow.
Qed.

Lemma scan_rows_top_wrap (b : board_t) (js : list Z) :
  length b = 40%nat ->
  Forall (fun j => -3 <= j <= -1) js ->
  (forall i row, (37 <= i <= 39)%nat -> b !! i = Some row -> row_full row = false) ->
  scan_rows b js = Ok [].
Proof.
  intros Hlen Hjs Htop. induction js as [|j js IH]; [reflexivity|].
  apply Forall_cons_1 in Hjs as [Hj Hjs]. cbn [scan_rows].
  destruct (Py_get_from_end b j Hlen Hj) as (row & Hrow & ->).
  cbn [mbind result_bind]. rewrite (IH Hjs). cbn [mbind result_bind].
  rewrite (Htop (Z.to_nat (40 + j)) row); [reflexivity|lia|exact Hrow].
Qed.

Lemma Py_range_split (lo hi : Z) :
  lo <= 0 <= hi -> Py.range lo hi = Py.range lo 0 ++ Py.range 0 hi.
Proof.
  intros H. unfold Py.range.
  replace (Z.to_nat (hi - lo)) with (Z.to_nat (0 - lo) + Z.to_nat (hi - 0))%nat by lia.
  rewrite seq_app, map_app. f_equal. rewrite Nat.add_0_l.
  assert (Hs : seq (Z.to_nat (0 - lo)) (Z.to_nat (hi - 0))
               = map (Nat.add (Z.to_nat (0 - lo))) (seq 0 (Z.to_nat (hi - 0)))).
  { change (map (Nat.add (Z.to_nat (0 - lo))) (seq 0 (Z.to_nat (hi - 0))))
      with (Nat.add (Z.to_nat (0 - lo)) <$> seq 0 (Z.to_nat (hi - 0))).
    rewrite fmap_add_seq. by rewrite Nat.add_0_r. }
  rewrite Hs, map_map. apply map_ext. intros k. lia.
Qed.

Lemma Py_range_bounds (lo hi : Z) :
  Forall (fun i => lo <= i < hi) (Py.range lo hi).
Proof.
  unfold Py.range. apply Forall_forall. intros i Hi.
  apply in_map_iff in Hi as (k & <- & Hk). apply in_seq in Hk. lia.
Qed.

Lemma check_tiled_rows_low (g : TetrominoGame) :
  length (board g) = 40%nat ->
  0 <= (piece_position g).1 <= 36 ->
  (forall i row, (37 <= i <= 39)%nat -> board g !! i = Some row -> row_full row = false) ->
  exists tiled,
    check_tiled g = Ok tiled /\
    StronglySorted Z.lt tiled /\
    (forall i, i ∈ tiled <->
               0 <= i /\
               (piece_position g).1 - 3 <= i <= (piece_position g).1 + 3 /\
               exists row, board g !! Z.to_nat i = Some row /\ row_full row = true).
Proof.
  intros Hlen Hy Htop.
  destruct (Z_le_gt_dec 3 (piece_position g).1) as [Hhigh|Hlow].
  - destruct (check_tiled_rows g Hlen ltac:(lia)) as (tiled & Hscan & Hsorted & Hmem).
    exists tiled. split; [exact Hscan|]. split; [exact Hsorted|].
    intros i. rewrite Hmem. split; [intros [Hi Hex]|intros (_ & Hi & Hex)];
      repeat split; try lia; exact Hex.
  - unfold check_tiled. cbv zeta. set (y := (piece_position g).1) in *.
    rewrite (Py_range_split (y - 3) (y + 4)) by lia.
    rewrite scan_rows_app.
    rewrite (scan_rows_top_wrap (board g) (Py.range (y - 3) 0) Hlen); [|
      |exact Htop].
    2:{ pose proof (Py_range_bounds (y - 3) 0) as Hb. revert Hb.
        apply Forall_impl. intros j Hj. lia. }
    cbn [mbind result_bind].
    assert (Hr : Py.range 0 (y + 4) = map Z.of_nat (seq 0 (Z.to_nat (y + 4)))).
    { rewrite <- Py_range_nonneg. f_equal; lia. }
    rewrite Hr.
    assert (Hfit : (0 + Z.to_nat (y + 4) <= length (board g))%nat) by lia.
    destruct (scan_rows_spec (board g) (Z.to_nat (y + 4)) 0 Hfit)
      as (tiled & Hscan & Hsorted & Hmem).
    rewrite Hscan. cbn [mbind result_bind app].
    exists tiled. split; [reflexivity|]. split; [exact Hsorted|].
    intros i. rewrite Hmem. split; [intros [Hi Hex]|intros (Hi0 & Hi & Hex)];
      repeat split; try lia; exact Hex.
Qed.

(** X16: on a board of 40 rows whose three top rows are
    not full, and with the anchor in rows 0..36, [check_tiled] returns, in
    increasing order and each once, exactly the rows of the board within
    three of the anchor row that have no empty cell. *)
Theorem check_tiled_full_rows (g : TetrominoGame) :
  length (board g) = 40%nat ->
  0 <= (piece_position g).1 <= 36 ->
  (forall i row, (37 <= i <= 39)%nat -> board g !! i = Some row -> row_full row = false) ->
  exists tiled,
    check_tiled g = Ok tiled /\
    StronglySorted Z.lt tiled /\
    (forall i, i ∈ tiled <->
               0 <= i /\
               (piece_position g).1 - 3 <= i <= (piece_position g).1 + 3 /\
               exists row, board g !! Z.to_nat i = Some row /\ row_full row = true).
Proof. exact (check_tiled_rows_low g). Qed.

Lemma scan_rows_past_end (b : board_t) (n : nat) :
  forall k : nat,
    (0 < n)%nat -> (length b < k + n)%nat ->
    scan_rows b (map Z.of_nat (seq k n)) = Raise IndexError.
Proof.
  induction n as [|n IH]; intros k Hn Hk; [lia|].
  cbn [seq map scan_rows].
  destruct (b !! k) as [row|] eqn:Hrow.
  - rewrite (proj2 (Py_get_of_nat b k row) Hrow). cbn [mbind result_bind].
    apply lookup_lt_Some in Hrow. rewrite IH by lia. reflexivity.
  - apply lookup_ge_None in Hrow.
    unfold Py.get, Py.index.
    destruct (Z.ltb_spec (Z.of_nat k) (Z.of_nat (length b))); [lia|].
    rewrite andb_false_r.
    destruct (Z.ltb_spec (Z.of_nat k) 0); [lia|].
    rewrite andb_false_r. reflexivity.
Qed.

Lemma check_tiled_near_top (g : TetrominoGame) :
  length (board g) = 40%nat ->
  37 <= (piece_position g).1 ->
  check_tiled g = Raise IndexError.
Proof.
  intros Hlen Hy. unfold check_tiled. cbv zeta.
  set (y := (piece_position g).1) in *.
  assert (Hr : Py.range (y - 3) (y + 4) = map Z.of_nat (seq (Z.to_nat (y - 3)) 7)).
  { rewrite <- Py_range_nonneg. f_equal; lia. }
  rewrite Hr. apply scan_rows_past_end; lia.
Qed.

Lemma Py_get_raises {A} (l : list A) (i : Z) :
  (exists x, Py.get l i = Ok x) \/ Py.get l i = Raise IndexError.
Proof.
  unfold Py.get. destruct (Py.index l i); [|by right].
  destruct (l !! _); [left; eauto|by right].
Qed.

Lemma bind_raises {A B} (c : result A) (k : A -> result B) :
  (exists x, c = Ok x) \/ c = Raise IndexError ->
  (forall x, (exists y, k x = Ok y) \/ k x = Raise IndexError) ->
  (exists y, c ≫= k = Ok y) \/ c ≫= k = Raise IndexError.
Proof. intros [[x ->]| ->] Hk; simpl; auto. Qed.

Lemma detect_spin_raises (g : TetrominoGame) :
  (exists s, detect_spin g = Ok s) \/ detect_spin g = Raise IndexError.
Proof.
  assert (Hget : forall i, (exists x, get_piece g i = Ok x) \/ get_piece g i = Raise IndexError).
  { intros i. unfold get_piece, queue_at.
    repeat case_match; try (left; eauto; fail);
      (apply bind_raises; [apply Py_get_raises|intros x; left; eauto]). }
  assert (Hf : forall y x, (exists v, filled_at g y x = Ok v) \/
                           filled_at g y x = Raise IndexError).
  { intros y x. unfold filled_at, board_get.
    apply bind_raises; [|intros v; left; eauto].
    apply bind_raises; [apply Py_get_raises|intros row; apply Py_get_raises]. }
  unfold detect_spin. apply bind_raises; [apply Hget|intros p].
  destruct (bool_decide (p = shape pc_t)); [|left; eauto].
  unfold check_t_spin.
  destruct (negb _); [left; eauto|].
  destruct (piece_position g) as [y x].
  repeat first
    [ apply bind_raises; [apply Hf|intros ?]
    | match goal with
      | |- (exists _, (if ?c then _ else _) = _) \/ _ => destruct c
      | |- (exists _, Ok _ = Ok _) \/ _ => left; eauto
      end ].
Qed.

(** X17: on a board of 40 rows, a lock with the anchor in row
    37 or above ends in an [IndexError]: the scan for full rows reads three
    rows above the anchor. *)
Theorem lock_piece_near_top (rnd : nat -> nat) (g : TetrominoGame) :
  length (board g) = 40%nat ->
  37 <= (piece_position g).1 ->
  lock_piece rnd g = Raise IndexError.
Proof.
  intros Hlen Hy. unfold lock_piece. cbv zeta.
  destruct (detect_spin_raises (set_hold false g)) as [[s ->]| ->]; [|reflexivity].
  cbn [mbind result_bind]. rewrite check_tiled_near_top; [reflexivity|exact Hlen|exact Hy].
Qed.

(** X16 at a concrete input: four full rows under an I
    piece. *)
Lemma check_tiled_full_rows_witness :
  exists tiled,
    check_tiled Demo.tetris_state = Ok tiled /\
    StronglySorted Z.lt tiled /\
    (forall i, i ∈ tiled <->
               0 <= i /\
               (piece_position Demo.tetris_state).1 - 3 <= i
                 <= (piece_position Demo.tetris_state).1 + 3 /\
               exists row, board Demo.tetris_state !! Z.to_nat i = Some row /\
                           row_full row = true).
Proof.
  apply (check_tiled_full_rows Demo.tetris_state).
  - reflexivity.
  - simpl. lia.
  - intros i row Hi Hrow.
    assert (Hcases : i = 37%nat \/ i = 38%nat \/ i = 39%nat) by lia.
    destruct Hcases as [-> | [-> | ->]]; vm_compute in Hrow; injection Hrow as <-; reflexivity.
Defined.

(** X17 at a concrete input: a T piece under the ceiling. *)
Lemma lock_piece_near_top_witness :
  lock_piece Demo.rnd0 Demo.ceiling_state = Raise IndexError.
Proof.
  apply (lock_piece_near_top Demo.rnd0 Demo.ceiling_state).
  - reflexivity.
  - simpl. lia.
Defined.

(** ** Garbage rows and cleared rows *)

Lemma garbage_row_lookup (r j : nat) :
  (j < 10)%nat ->
  garbage_row r !! j = Some (if decide (j = r mod 10)%nat then blank else garbage).
Proof.
  intros Hj. unfold garbage_row. destruct (decide (j = r mod 10)%nat) as [->|Hne].
  - apply list_lookup_insert_eq. rewrite length_replicate.
    apply Nat.mod_upper_bound. lia.
  - rewrite list_lookup_insert_ne by congruence.
    apply lookup_replicate_2. exact Hj.
Qed.

(** X18: [accept_pending] with [no_lines] lines puts that
    many copies of one garbage row, at most as many as the board has rows,
    under the rows of the board and drops as many rows from the top; a
    count of zero or less changes nothing.  The garbage row has its one
    empty cell in the column drawn and garbage in the nine others. *)
Theorem accept_pending_shifts (r : nat) (no_lines : Z) (b : board_t) :
  let k := (Z.to_nat no_lines `min` length b)%nat in
  accept_pending r no_lines b
    = replicate k (garbage_row r) ++ take (length b - k) b /\
  forall j, (j < 10)%nat ->
            garbage_row r !! j = Some (if decide (j = r mod 10)%nat then blank else garbage).
Proof.
  intros k. split; [|apply garbage_row_lookup].
  rewrite accept_pending_take, take_app, take_replicate, length_replicate.
  subst k. f_equal; [f_equal; lia|].
  destruct (Nat.le_ge_cases (Z.to_nat no_lines) (length b)) as [Hle|Hge].
  - f_equal. lia.
  - replace (length b - Z.to_nat no_lines)%nat with 0%nat by lia.
    replace (length b - Z.to_nat no_lines `min` length b)%nat with 0%nat by lia.
    reflexivity.
Qed.

Lemma rows_except_from_none (rows : list nat) (b : board_t) :
  forall i, Forall (fun k => k < i)%nat rows -> rows_except_from i rows b = b.
Proof.
  induction b as [|row rest IH]; intros i Hi; [reflexivity|].
  cbn [rows_except_from]. rewrite bool_decide_eq_false_2.
  - f_equal. apply IH. revert Hi. apply Forall_impl. intros; lia.
  - intros Hin. pose proof (Forall_elem_of _ _ _ Hi Hin). simpl in *. lia.
Qed.

Lemma rows_except_from_last (rows : list nat) (k : nat) (b : board_t) :
  Forall (fun j => j < k)%nat rows ->
  forall i, (i <= k)%nat ->
    rows_except_from i (rows ++ [k]) b = rows_except_from i rows (delete (k - i)%nat b).
Proof.
  intros Hrows. induction b as [|row rest IH]; intros i Hi; [reflexivity|].
  cbn [rows_except_from]. destruct (decide (i = k)) as [->|Hne].
  - rewrite Nat.sub_diag. cbn [delete list_delete].
    rewrite bool_decide_eq_true_2 by (apply elem_of_app; right; apply list_elem_of_here).
    rewrite !rows_except_from_none; [reflexivity| |].
    + exact Hrows.
    + apply Forall_app_2; [|repeat constructor].
      revert Hrows. apply Forall_impl. intros; lia.
  - replace (k - i)%nat with (S (k - S i)) by lia. cbn [delete list_delete].
    cbn [rows_except_from].
    assert (Hiff : i ∈ rows ++ [k] <-> i ∈ rows).
    { rewrite elem_of_app, list_elem_of_singleton. intuition congruence. }
    rewrite (bool_decide_ext _ _ Hiff).
    destruct (bool_decide (i ∈ rows)); [|f_equal]; apply IH; lia.
Qed.

Lemma delete_app_left {A} (k : nat) (l1 l2 : list A) :
  (k < length l1)%nat -> delete k (l1 ++ l2) = delete k l1 ++ l2.
Proof.
  revert k. induction l1 as [|x l1 IH]; intros k Hk; simpl in *; [lia|].
  destruct k as [|k]; [reflexivity|]. simpl. f_equal. apply IH. lia.
Qed.

Lemma remove_rows_descending (rows : list nat) :
  forall (b e : board_t),
    StronglySorted lt rows ->
    Forall (fun k => k < length b)%nat rows ->
    remove_rows (b ++ e) (rev (map Z.of_nat rows))
      = Ok (rows_except_from 0 rows b ++ e ++ replicate (length rows) empty_row).
Proof.
  induction rows as [|k rows IH] using rev_ind; intros b e Hsorted Hlt.
  - simpl. rewrite rows_except_from_none by constructor. by rewrite app_nil_r.
  - rewrite map_app, rev_app_distr. cbn [map rev app remove_rows].
    apply Forall_app in Hlt as [Hlt Hk]. apply Forall_cons_1 in Hk as [Hk _].
    assert (Hbelow : Forall (fun j => j < k)%nat rows).
    { clear -Hsorted. induction rows as [|j rows IH]; [constructor|].
      simpl in Hsorted. apply StronglySorted_inv in Hsorted as [Hs Hall].
      constructor; [|by apply IH].
      apply Forall_app in Hall as [_ Hall]. by apply Forall_cons_1 in Hall as [? _]. }
    assert (Hs' : StronglySorted lt rows).
    { clear -Hsorted. induction rows as [|j rows IH]; [constructor|].
      simpl in Hsorted. apply StronglySorted_inv in Hsorted as [Hs Hall].
      constructor; [by apply IH|]. by apply Forall_app in Hall as [? _]. }
    assert (Hpop : Py.pop_at (b ++ e) (Z.of_nat k) = Ok (delete k b ++ e)).
    { unfold Py.pop_at, Py.index. rewrite length_app.
      destruct (Z.leb_spec 0 (Z.of_nat k)); [|lia].
      destruct (Z.ltb_spec (Z.of_nat k) (Z.of_nat (length b + length e))); [|lia].
      simpl. rewrite Nat2Z.id. f_equal.
      rewrite delete_app_left by exact Hk. reflexivity. }
    rewrite Hpop. cbn [mbind result_bind]. rewrite <- app_assoc.
    rewrite IH; [|exact Hs'|].
    + rewrite rows_except_from_last by (auto; lia). rewrite Nat.sub_0_r.
      rewrite length_app. cbn [length]. rewrite Nat.add_1_r.
      f_equal. f_equal. rewrite <- app_assoc. reflexivity.
    + rewrite length_delete by (by apply lookup_lt_is_Some_2).
      revert Hbelow. apply Forall_impl. intros j Hj. lia.
Qed.

Lemma remove_rows_descending_plain (b : board_t) (rows : list nat) :
  StronglySorted lt rows ->
  Forall (fun k => k < length b)%nat rows ->
  remove_rows b (rev (map Z.of_nat rows))
    = Ok (rows_except_from 0 rows b ++ replicate (length rows) empty_row).
Proof.
  intros Hsorted Hlt.
  pose proof (remove_rows_descending rows b [] Hsorted Hlt) as H.
  by rewrite app_nil_r in H.
Qed.

(** X19: popping rows from the highest index down, each
    pop followed by an empty row appended on top, as [lock_piece] clears full
    rows, leaves the rows that are not listed in their order, with as many
    empty rows above them as rows were listed. *)
Theorem remove_rows_keeps_others (b : board_t) (rows : list nat) :
  StronglySorted lt rows ->
  Forall (fun k => k < length b)%nat rows ->
  remove_rows b (rev (map Z.of_nat rows))
    = Ok (rows_except_from 0 rows b ++ replicate (length rows) empty_row).
Proof. exact (remove_rows_descending_plain b rows). Qed.

(** X19 at a concrete input: rows 1 and 3 of a board of
    five rows. *)
Lemma remove_rows_keeps_others_witness :
  remove_rows [[garbage]; [blank]; [shape pc_t]; [blank]; [shape pc_o]]
    (rev (map Z.of_nat [1; 3]%nat))
  = Ok (rows_except_from 0 [1; 3]%nat
          [[garbage]; [blank]; [shape pc_t]; [blank]; [shape pc_o]]
        ++ replicate (length [1; 3]%nat) empty_row).
Proof.
  apply (remove_rows_keeps_others
           [[garbage]; [blank]; [shape pc_t]; [blank]; [shape pc_o]] [1; 3]%nat).
  - repeat constructor.
  - repeat constructor.
Defined.

(** ** Construction *)

(** X20: a game cannot be built on an empty queue: the
    constructor ends in [IndexError].  On any other queue it returns a game
    with the cursor on the first entry, that piece as the active piece at
    row 19, column 4 in orientation 0, written on an otherwise empty board,
    nothing held, no garbage, no attack, a combo of -1 and the game not
    over. *)
Theorem new_game_starts :
  new_game [] = Raise IndexError /\
  forall (p : piece) (rest : list piece),
    exists g cells,
      new_game (p :: rest) = Ok g /\
      get_filled (shape p) (19, 4) 0 = Some cells /\
      fill_cells empty_board cells (shape p) = Ok (board g) /\
      get_piece g 0 = Ok (shape p) /\
      queue g = p :: rest /\ queue_position g = 0 /\
      piece_position g = (19, 4) /\ piece_orientation g = 0 /\
      hold g = false /\ held g = blank /\
      current_combo g = -1 /\ back_to_back g = false /\
      pending_garbage g = [] /\ sent_garbage g = [] /\ total_attack g = 0 /\
      game_over g = false.
Proof.
  split; [reflexivity|]. intros p rest.
  destruct p; vm_compute; eexists _, _; repeat split.
Qed.

(** ** The well *)

Lemma find_well_loop_last (surface : list Z) (deepest : Z) (n : nat) :
  forall (k : nat) (well : nat),
    (k + n <= length surface)%nat -> (well < k)%nat ->
    exists w : nat,
      find_well_loop surface deepest (map Z.of_nat (seq k n)) (Z.of_nat well)
        = Ok (Z.of_nat w) /\
      (w = well \/
       (k <= w < k + n)%nat /\ exists v, surface !! w = Some v /\ v <= deepest) /\
      (forall j v, (w < j < k + n)%nat -> (k <= j)%nat ->
                   surface !! j = Some v -> deepest < v).
Proof.
  induction n as [|n IH]; intros k well Hk Hwell.
  - exists well. split; [reflexivity|]. split; [by left|]. intros; lia.
  - assert (Hv : is_Some (surface !! k)) by (apply lookup_lt_is_Some; lia).
    destruct Hv as [v Hv]. cbn [seq map find_well_loop].
    rewrite (proj2 (Py_get_of_nat surface k v) Hv). cbn [mbind result_bind].
    destruct (Z.geb_spec deepest v) as [Hge|Hlt].
    + destruct (IH (S k) k ltac:(lia) ltac:(lia)) as (w & Hloop & Hw & Habove).
      exists w. split; [exact Hloop|]. split.
      * destruct Hw as [->|[Hw Hex]]; right; [|split; [lia|exact Hex]].
        split; [lia|]. exists v. split; [exact Hv|lia].
      * intros j vj Hj Hkj Hvj. apply (Habove j vj); [lia| |exact Hvj].
        destruct Hw as [->|[Hw _]]; lia.
    + destruct (IH (S k) well ltac:(lia) ltac:(lia)) as (w & Hloop & Hw & Habove).
      exists w. split; [exact Hloop|]. split.
      * destruct Hw as [->|[Hw Hex]]; [by left|right]. split; [lia|exact Hex].
      * intros j vj Hj Hkj Hvj. destruct (decide (j = k)) as [->|Hne].
        -- rewrite Hv in Hvj. injection Hvj as <-. lia.
        -- apply (Habove j vj); [lia|lia|exact Hvj].
Qed.

(** X21: what [find_well] computes.  On an empty surface it
    ends in [IndexError].  Otherwise the depth it returns is the height of
    column 0, and the column it returns is the right-most column that is
    not higher than column 0: every column to the right of it is higher
    than column 0. *)
Theorem find_well_rightmost :
  find_well [] = Raise IndexError /\
  forall (x : Z) (rest : list Z),
    exists w : nat,
      find_well (x :: rest) = Ok (Z.of_nat w, x) /\
      (exists v, (x :: rest) !! w = Some v /\ v <= x) /\
      (forall j v, (w < j)%nat -> (x :: rest) !! j = Some v -> x < v).
Proof.
  split; [reflexivity|]. intros x rest.
  unfold find_well. change (Py.get (x :: rest) 0) with (Ok x : result Z).
  cbn [mbind result_bind].
  assert (Hr : Py.range 1 (Z.of_nat (length (x :: rest)))
               = map Z.of_nat (seq 1 (length rest))).
  { rewrite <- (Py_range_nonneg 1 (length rest)). reflexivity. }
  rewrite Hr.
  destruct (find_well_loop_last (x :: rest) x (length rest) 1 0)
    as (w & Hloop & Hw & Habove); [simpl; lia|lia|].
  change (Z.of_nat 0) with 0 in Hloop. rewrite Hloop. cbn [mbind result_bind].
  exists w. split; [reflexivity|]. split.
  - destruct Hw as [->|[_ Hex]]; [|exact Hex]. exists x. split; [reflexivity|lia].
  - intros j v Hj Hv. apply (Habove j v); [|lia|exact Hv].
    apply lookup_lt_Some in Hv. simpl in Hv. lia.
Qed.

(** ** Roughness *)

Lemma roughness_loop_steps (surface : list Z) (n : nat) :
  forall (k : nat) (acc : Z),
    (S k + n <= length surface)%nat ->
    roughness_loop surface (map Z.of_nat (seq (S k) n)) acc
      = Ok (acc + steps (take (S n) (drop k surface))).
Proof.
  induction n as [|n IH]; intros k acc Hk.
  - cbn [seq map roughness_loop].
    destruct (drop k surface) as [|a [|b l]]; simpl; f_equal; lia.
  - assert (Ha : is_Some (surface !! k)) by (apply lookup_lt_is_Some; lia).
    assert (Hb : is_Some (surface !! S k)) by (apply lookup_lt_is_Some; lia).
    destruct Ha as [a Ha], Hb as [b Hb].
    cbn [seq map roughness_loop].
    rewrite (proj2 (Py_get_of_nat surface (S k) b) Hb). cbn [mbind result_bind].
    replace (Z.of_nat (S k) - 1) with (Z.of_nat k) by lia.
    rewrite (proj2 (Py_get_of_nat surface k a) Ha). cbn [mbind result_bind].
    rewrite IH by lia.
    rewrite (drop_S surface a k Ha), (drop_S surface b (S k) Hb).
    cbn [take steps]. f_equal. lia.
Qed.

(** X22: what [roughness] computes.  It is 0 on a surface of
    fewer than two columns.  On a longer one it is the sum of the height
    changes between neighbouring columns, with two exceptions: the change
    between the last two columns is left out, and the difference between
    the first and the last column is added, because the first round of the
    loop compares column 0 with column -1. *)
Theorem roughness_wraps :
  roughness [] = Ok 0 /\
  (forall x, roughness [x] = Ok 0) /\
  forall (x y : Z) (mid : list Z),
    roughness (x :: mid ++ [y]) = Ok (Z.abs (x - y) + steps (x :: mid)).
Proof.
  split; [reflexivity|]. split; [reflexivity|]. intros x y mid.
  unfold roughness.
  assert (Hlen : length (x :: mid ++ [y]) = S (S (length mid))).
  { simpl. rewrite length_app. simpl. lia. }
  assert (Hr : Py.range 0 (Z.of_nat (length (x :: mid ++ [y])) - 1)
               = 0 :: map Z.of_nat (seq 1 (length mid))).
  { rewrite Hlen.
    replace (Z.of_nat (S (S (length mid))) - 1) with (Z.of_nat (0 + S (length mid))) by lia.
    change 0 with (Z.of_nat 0) at 1.
    rewrite (Py_range_nonneg 0 (S (length mid))). reflexivity. }
  rewrite Hr. cbn [roughness_loop].
  change (Py.get (x :: mid ++ [y]) 0) with (Ok x : result Z). cbn [mbind result_bind].
  assert (Hlast : Py.get (x :: mid ++ [y]) (0 - 1) = Ok y).
  { unfold Py.get, Py.index. rewrite Hlen.
    destruct (Z.leb_spec 0 (0 - 1)); [lia|]. rewrite andb_false_l.
    destruct (Z.leb_spec (- Z.of_nat (S (S (length mid)))) (0 - 1)); [|lia].
    destruct (Z.ltb_spec (0 - 1) 0); [|lia]. simpl andb. cbv iota.
    replace (Z.to_nat (Z.of_nat (S (S (length mid))) + (0 - 1))) with (S (length mid)) by lia.
    change (x :: mid ++ [y]) with ((x :: mid) ++ [y]).
    rewrite lookup_app_r by (simpl; lia). simpl length.
    by rewrite Nat.sub_diag. }
  rewrite Hlast. cbn [mbind result_bind].
  rewrite roughness_loop_steps by (rewrite Hlen; lia).
  rewrite drop_0. f_equal. rewrite Z.add_0_l. f_equal.
  change (x :: mid ++ [y]) with ((x :: mid) ++ [y]).
  rewrite take_app_length'; [reflexivity|simpl; lia].
Qed.
(** ** Pruning at the edges *)

Lemma gather_all {A} (l : list A) :
  gather l (Py.range 0 (Z.of_nat (length l))) = Ok l.
Proof.
  pose proof (Py_range_nonneg 0 (length l)) as Hr.
  change (Z.of_nat 0) with 0 in Hr. change (0 + length l)%nat with (length l) in Hr.
  rewrite Hr.
  rewrite gather_take by lia. by rewrite take_ge.
Qed.

(** X23: with room for every child, the pruning step keeps all
    the children, in their order. *)
Theorem prune_keeps_all {A} (best_n : Z) (raw_score : A -> Z) (subtrees : list A) :
  Z.of_nat (length subtrees) <= best_n ->
  prune best_n raw_score subtrees = Ok subtrees.
Proof.
  intros Hn. unfold prune, prune_indices. cbv zeta. rewrite length_map.
  rewrite Z.min_r by exact Hn.
  pose proof (gather_all (map raw_score subtrees)) as Hg. rewrite length_map in Hg.
  rewrite Hg. cbn [mbind result_bind].
  assert (Hempty : Py.range (Z.of_nat (length subtrees)) (Z.of_nat (length subtrees)) = []).
  { unfold Py.range. by rewrite Z.sub_diag. }
  rewrite Hempty. cbn [prune_loop mbind result_bind]. apply gather_all.
Qed.

(** X23 at a concrete input: three children, room for five. *)
Lemma prune_keeps_all_witness :
  prune 5 (fun s : Z => s) [3; 1; 2] = Ok [3; 1; 2].
Proof. apply (prune_keeps_all 5 (fun s : Z => s) [3; 1; 2]). simpl. lia. Defined.

(** X24: with children to choose from and [best_n] at 0, or
    below 0 but not below minus the number of children, the pruning step
    ends in [ValueError]: the first round of its loop takes the minimum of
    an empty list. *)
Theorem prune_without_room {A} (best_n : Z) (raw_score : A -> Z) (subtrees : list A) :
  subtrees <> [] ->
  - Z.of_nat (length subtrees) <= best_n <= 0 ->
  prune best_n raw_score subtrees = Raise ValueError.
Proof.
  intros Hne Hn. unfold prune, prune_indices. cbv zeta. rewrite length_map.
  rewrite Z.min_l by lia.
  assert (Hnone : Py.range 0 best_n = []).
  { unfold Py.range. by replace (Z.to_nat (best_n - 0)) with 0%nat by lia. }
  rewrite Hnone. cbn [gather mbind result_bind].
  assert (Hsome : exists m, Z.to_nat (Z.of_nat (length subtrees) - best_n) = S m).
  { destruct subtrees; [contradiction|]. simpl length in *.
    exists (Z.to_nat (Z.of_nat (S (length subtrees)) - best_n) - 1)%nat. lia. }
  destruct Hsome as [m Hm]. unfold Py.range at 1. rewrite Hm.
  cbn [seq map prune_loop]. rewrite Z.add_0_r.
  assert (Hget : exists s, Py.get (map raw_score subtrees) best_n = Ok s).
  { unfold Py.get, Py.index. rewrite length_map.
    destruct (Z.leb_spec 0 best_n), (Z.ltb_spec best_n (Z.of_nat (length subtrees)));
      simpl andb; cbv iota.
    - destruct (lookup_lt_is_Some_2 (map raw_score subtrees) (Z.to_nat best_n))
        as [s Hs]; [rewrite length_map; lia|]. rewrite Hs. eauto.
    - destruct subtrees; [contradiction|]. simpl length in *. lia.
    - destruct (Z.leb_spec (- Z.of_nat (length subtrees)) best_n); [|lia].
      destruct (Z.ltb_spec best_n 0); [|lia]. simpl andb. cbv iota.
      destruct (lookup_lt_is_Some_2 (map raw_score subtrees)
                  (Z.to_nat (Z.of_nat (length subtrees) + best_n)))
        as [s Hs]; [rewrite length_map; lia|]. rewrite Hs. eauto.
    - lia. }
  destruct Hget as [s ->]. reflexivity.
Qed.

(** X24 at a concrete input: three children and no room. *)
Lemma prune_without_room_witness :
  prune 0 (fun s : Z => s) [3; 1; 2] = Raise ValueError.
Proof.
  apply (prune_without_room 0 (fun s : Z => s) [3; 1; 2]).
  - discriminate.
  - simpl. lia.
Defined.

(** ** The surface *)

Lemma surface_row_spec (row : list tag) (ign : list cell) (i : Z) (n : nat) :
  length row = 10%nat ->
  forall (a : nat) (highest : list Z),
    (a + n <= 10)%nat -> length highest = 10%nat ->
    exists hs,
      surface_row row (Some ign) i (map Z.of_nat (seq a n)) highest = Ok hs /\
      length hs = 10%nat /\
      forall j,
        hs !! j =
          if bool_decide (a <= j < a + n)%nat &&
             match row !! j with
             | Some v => negb (is_blank v) && negb (bool_decide ((i, Z.of_nat j) ∈ ign))
             | None => false
             end
          then Some i else highest !! j.
Proof.
  intros Hrow. induction n as [|n IH]; intros a highest Ha Hlen.
  - exists highest. split; [reflexivity|]. split; [exact Hlen|].
    intros j. rewrite bool_decide_eq_false_2 by lia. reflexivity.
  - assert (Hv : is_Some (row !! a)) by (apply lookup_lt_is_Some; lia).
    destruct Hv as [v Hv]. cbn [seq map surface_row].
    rewrite (proj2 (Py_get_of_nat row a v) Hv). cbn [mbind result_bind].
    assert (Hkeep : forall hs' : list Z,
              length hs' = 10%nat ->
              (forall j, hs' !! j =
                 if bool_decide (j = a) &&
                    (negb (is_blank v) && negb (bool_decide ((i, Z.of_nat a) ∈ ign)))
                 then Some i else highest !! j) ->
              exists hs,
                surface_row row (Some ign) i (map Z.of_nat (seq (S a) n)) hs' = Ok hs /\
                length hs = 10%nat /\
                forall j,
                  hs !! j =
                    if bool_decide (a <= j < a + S n)%nat &&
                       match row !! j with
                       | Some v => negb (is_blank v) &&
                                   negb (bool_decide ((i, Z.of_nat j) ∈ ign))
                       | None => false
                       end
                    then Some i else highest !! j).
    { intros hs' Hlen' Hhs'.
      destruct (IH (S a) hs' ltac:(lia) Hlen') as (hs & Hrun & Hl & Hlook).
      exists hs. split; [exact Hrun|]. split; [exact Hl|].
      intros j. rewrite Hlook, Hhs'.
      destruct (decide (j = a)) as [->|Hne].
      - rewrite Hv. rewrite (bool_decide_eq_false_2 (S a <= a < S a + n)%nat) by lia.
        rewrite (bool_decide_eq_true_2 (a <= a < a + S n)%nat) by lia.
        rewrite (bool_decide_eq_true_2 (a = a)) by reflexivity. reflexivity.
      - rewrite (bool_decide_eq_false_2 (j = a)) by exact Hne. cbn [andb].
        rewrite (bool_decide_ext (S a <= j < S a + n)%nat (a <= j < a + S n)%nat) by lia.
        reflexivity. }
    destruct (is_blank v) eqn:Hblank.
    + apply Hkeep; [exact Hlen|]. intros j. cbn [negb andb].
      by rewrite andb_false_r.
    + cbn [not_ignored mbind result_bind].
      destruct (bool_decide ((i, Z.of_nat a) ∈ ign)) eqn:Hign; cbn [negb].
      * apply Hkeep; [exact Hlen|]. intros j. by rewrite andb_false_r.
      * rewrite Py_set_nonneg by lia. rewrite Nat2Z.id.
        destruct (lookup_lt_is_Some_2 highest a) as [h0 Hh0]; [lia|]. rewrite Hh0.
        cbn [mbind result_bind]. apply Hkeep; [by rewrite length_insert|].
        intros j. cbn [andb]. rewrite andb_true_r.
        destruct (decide (j = a)) as [->|Hne].
        -- rewrite bool_decide_eq_true_2 by reflexivity.
           apply list_lookup_insert_eq. lia.
        -- rewrite bool_decide_eq_false_2 by exact Hne.
           by rewrite list_lookup_insert_ne by congruence.
Qed.

Lemma counted_row (b : board_t) (ign : list cell) (k j : nat) (row : list tag) :
  b !! k = Some row ->
  counted b ign (Z.of_nat k, Z.of_nat j) =
    match row !! j with
    | Some v => negb (is_blank v) && negb (bool_decide ((Z.of_nat k, Z.of_nat j) ∈ ign))
    | None => false
    end.
Proof.
  intros Hrow. unfold counted, peek. cbn [fst snd].
  destruct (Z.leb_spec 0 (Z.of_nat k)); [|lia].
  destruct (Z.leb_spec 0 (Z.of_nat j)); [|lia].
  cbn [andb]. rewrite !Nat2Z.id, Hrow. reflexivity.
Qed.

Lemma surface_rows_spec (b : board_t) (ign : list cell) (n : nat) :
  board_dims b ->
  forall (k : nat) (highest : list Z),
    (k + n <= 40)%nat -> length highest = 10%nat ->
    (forall j, (j < 10)%nat -> highest !! j = Some (top_below b ign j k)) ->
    exists hs,
      surface_rows b (Some ign) (map Z.of_nat (seq k n)) highest = Ok hs /\
      length hs = 10%nat /\
      forall j, (j < 10)%nat -> hs !! j = Some (top_below b ign j (k + n)).
Proof.
  intros [Hlen Hrows]. induction n as [|n IH]; intros k highest Hk Hl Hhigh.
  - exists highest. split; [reflexivity|]. split; [exact Hl|].
    intros j Hj. rewrite Nat.add_0_r. by apply Hhigh.
  - assert (Hrow : is_Some (b !! k)) by (apply lookup_lt_is_Some; lia).
    destruct Hrow as [row Hrow].
    assert (Hrl : length row = 10%nat).
    { apply (Forall_elem_of _ _ _ Hrows). eapply list_elem_of_lookup_2, Hrow. }
    cbn [seq map surface_rows].
    rewrite (proj2 (Py_get_of_nat b k row) Hrow). cbn [mbind result_bind].
    pose proof (Py_range_nonneg 0 10) as Hr.
    change (Z.of_nat 0) with 0 in Hr. change (Z.of_nat (0 + 10)) with 10 in Hr.
    rewrite Hr.
    destruct (surface_row_spec row ign (Z.of_nat k) 10 Hrl 0 highest ltac:(lia) Hl)
      as (hs1 & Hrun1 & Hl1 & Hlook1).
    rewrite Hrun1. cbn [mbind result_bind].
    destruct (IH (S k) hs1 ltac:(lia) Hl1) as (hs & Hrun & Hl2 & Hlook).
    + intros j Hj. rewrite Hlook1.
      rewrite bool_decide_eq_true_2 by lia. cbn [andb top_below].
      rewrite (counted_row b ign k j row Hrow).
      destruct (match row !! j with Some _ => _ | None => _ end); [reflexivity|].
      by apply Hhigh.
    + exists hs. split; [exact Hrun|]. split; [exact Hl2|].
      intros j Hj. replace (k + S n)%nat with (S k + n)%nat by lia. by apply Hlook.
Qed.

Lemma top_below_spec (b : board_t) (ign : list cell) (j k : nat) :
  -1 <= top_below b ign j k < Z.of_nat k /\
  (0 <= top_below b ign j k ->
   counted b ign (top_below b ign j k, Z.of_nat j) = true) /\
  (forall i, top_below b ign j k < i < Z.of_nat k ->
             counted b ign (i, Z.of_nat j) = false).
Proof.
  induction k as [|k (Hb & Hc & Ha)]; cbn [top_below].
  - split; [lia|]. split; [lia|]. intros i Hi. lia.
  - destruct (counted b ign (Z.of_nat k, Z.of_nat j)) eqn:Ek.
    + split; [lia|]. split; [auto|]. intros i Hi. lia.
    + split; [lia|]. split; [exact Hc|]. intros i Hi.
      destruct (Z.eq_dec i (Z.of_nat k)) as [->|Hne]; [exact Ek|]. apply Ha. lia.
Qed.

(** X25: on a board of 40 rows of 10 cells and with a list of
    cells to ignore, [get_surface] returns ten heights, one per column.  Each
    is -1 or the index of a row whose cell in that column is not empty and
    not ignored; every cell of the column above it is empty or ignored; a
    height of -1 means that no cell of the column counts. *)
Theorem get_surface_tops (g : TetrominoGame) (ignore : list cell) :
  board_dims (board g) ->
  exists hs,
    get_surface g (Some ignore) = Ok hs /\
    length hs = 10%nat /\
    forall (j : nat) (h : Z),
      hs !! j = Some h ->
      -1 <= h <= 39 /\
      (0 <= h -> counted (board g) ignore (h, Z.of_nat j) = true) /\
      (forall i, h < i <= 39 -> counted (board g) ignore (i, Z.of_nat j) = false).
Proof.
  intros Hb. unfold get_surface.
  pose proof (Py_range_nonneg 0 40) as Hr.
  change (Z.of_nat 0) with 0 in Hr. change (Z.of_nat (0 + 40)) with 40 in Hr.
  rewrite Hr.
  destruct (surface_rows_spec (board g) ignore 40 Hb 0 (replicate 10 (-1)))
    as (hs & Hrun & Hl & Hlook).
  - lia.
  - apply length_replicate.
  - intros j Hj. by apply lookup_replicate_2.
  - exists hs. split; [exact Hrun|]. split; [exact Hl|].
    intros j h Hh. assert (Hj : (j < 10)%nat) by (apply lookup_lt_Some in Hh; lia).
    specialize (Hlook j Hj). change (0 + 40)%nat with 40%nat in Hlook.
    destruct (top_below_spec (board g) ignore j 40) as (H1 & H2 & H3).
    set (t := top_below (board g) ignore j 40) in *.
    assert (Ht : h = t) by congruence. subst h.
    split; [lia|]. split; [exact H2|]. intros i Hi. apply H3. lia.
Qed.

(** X25 at a concrete input: the board with four full rows. *)
Lemma get_surface_tops_witness :
  exists hs,
    get_surface Demo.tetris_state (Some []) = Ok hs /\
    length hs = 10%nat /\
    forall (j : nat) (h : Z),
      hs !! j = Some h ->
      -1 <= h <= 39 /\
      (0 <= h -> counted (board Demo.tetris_state) [] (h, Z.of_nat j) = true) /\
      (forall i, h < i <= 39 -> counted (board Demo.tetris_state) [] (i, Z.of_nat j) = false).
Proof.
  apply (get_surface_tops Demo.tetris_state []). apply demo_dims; reflexivity.
Defined.

(** ** Holes *)

Lemma holes_column_spec (b : board_t) (col : nat) (m : nat) :
  board_dims b -> (col < 10)%nat ->
  forall (k : nat) (acc : Z),
    (k + m <= 40)%nat ->
    exists n,
      holes_column b (Z.of_nat col) (map Z.of_nat (seq k m)) acc = Ok (acc + n) /\
      0 <= n /\
      (n = 0 <-> forall r : nat, (k <= r < k + m)%nat ->
                                 peek b (Z.of_nat r, Z.of_nat col) <> Some blank).
Proof.
  intros Hb Hcol. induction m as [|m IH]; intros k acc Hk.
  - exists 0. split; [simpl; f_equal; lia|]. split; [lia|]. split; [|reflexivity].
    intros _ r Hr. lia.
  - assert (Hon : on_board (Z.of_nat k, Z.of_nat col)) by (unfold on_board; simpl; lia).
    destruct (peek_is_Some _ _ Hb Hon) as [v Hv].
    cbn [seq map holes_column].
    rewrite board_get_peek by (simpl; lia). rewrite Hv. cbn [mbind result_bind].
    destruct (IH (S k) (if is_blank v then acc + 1 else acc) ltac:(lia))
      as (n & Hrun & Hn & Hzero).
    exists ((if is_blank v then 1 else 0) + n). split.
    { rewrite Hrun. f_equal. destruct (is_blank v); lia. }
    split; [destruct (is_blank v); lia|].
    unfold is_blank in *. destruct (bool_decide (v = blank)) eqn:Ev.
    + apply bool_decide_eq_true in Ev. subst v. split; [lia|].
      intros Hall. exfalso. apply (Hall k); [lia|exact Hv].
    + apply bool_decide_eq_false in Ev. rewrite Z.add_0_l, Hzero. split.
      * intros Hall r Hr. destruct (decide (r = k)) as [->|Hne].
        -- rewrite Hv. congruence.
        -- apply Hall. lia.
      * intros Hall r Hr. apply Hall. lia.
Qed.

Lemma holes_loop_spec (b : board_t) (surface : list Z) (m : nat) :
  board_dims b ->
  Forall (fun s => s <= 40) surface ->
  forall (a : nat) (acc : Z),
    (a + m <= 10)%nat -> (a + m <= length surface)%nat ->
    exists n,
      holes_loop b surface (map Z.of_nat (seq a m)) acc = Ok (acc + n) /\
      0 <= n /\
      (n = 0 <-> forall (j : nat) (s : Z) (r : nat),
                   (a <= j < a + m)%nat -> surface !! j = Some s ->
                   Z.of_nat r < s ->
                   peek b (Z.of_nat r, Z.of_nat j) <> Some blank).
Proof.
  intros Hb Hs. induction m as [|m IH]; intros a acc Ha Hlen.
  - exists 0. split; [simpl; f_equal; lia|]. split; [lia|]. split; [|reflexivity].
    intros _ j s r Hj. lia.
  - destruct (lookup_lt_is_Some_2 surface a) as [s Hsa]; [lia|].
    assert (Hs40 : s <= 40).
    { apply (Forall_elem_of _ _ _ Hs). eapply list_elem_of_lookup_2, Hsa. }
    cbn [seq map holes_loop].
    rewrite (proj2 (Py_get_of_nat surface a s) Hsa). cbn [mbind result_bind].
    assert (Hr : Py.range 0 s = map Z.of_nat (seq 0 (Z.to_nat s))).
    { unfold Py.range. rewrite Z.sub_0_r. apply map_ext. intros; lia. }
    rewrite Hr.
    destruct (holes_column_spec b a (Z.to_nat s) Hb ltac:(lia) 0 acc ltac:(lia))
      as (n1 & Hrun1 & Hn1 & Hzero1).
    rewrite Hrun1. cbn [mbind result_bind].
    destruct (IH (S a) (acc + n1) ltac:(lia) ltac:(lia)) as (n2 & Hrun2 & Hn2 & Hzero2).
    exists (n1 + n2). split; [rewrite Hrun2; f_equal; lia|]. split; [lia|].
    split.
    + intros Hsum. assert (n1 = 0) by lia. assert (n2 = 0) by lia.
      intros j s' r Hj Hs' Hrs. destruct (decide (j = a)) as [->|Hne].
      * rewrite Hsa in Hs'. injection Hs' as <-.
        apply (proj1 Hzero1); [assumption|lia].
      * apply (proj1 Hzero2 ltac:(assumption) j s' r); [lia|assumption..].
    + intros Hall.
      assert (n1 = 0).
      { apply Hzero1. intros r Hr'. apply (Hall a s r); [lia|exact Hsa|lia]. }
      assert (n2 = 0).
      { apply Hzero2. intros j s' r Hj Hs' Hrs. apply (Hall j s' r); [lia|assumption..]. }
      lia.
Qed.

(** X26: on a board of 40 rows of 10 cells, with a surface of at
    least ten heights, none above 40, [find_holes] returns a count that is
    not negative, and the count is 0 exactly when no cell below the height
    of its column is empty.  Columns of height 0 or less contribute
    nothing. *)
Theorem find_holes_none (g : TetrominoGame) (surface : list Z) :
  board_dims (board g) ->
  (10 <= length surface)%nat ->
  Forall (fun s => s <= 40) surface ->
  exists n,
    find_holes g surface = Ok n /\
    0 <= n /\
    (n = 0 <-> forall (j : nat) (s : Z) (r : nat),
                 (j < 10)%nat -> surface !! j = Some s -> Z.of_nat r < s ->
                 peek (board g) (Z.of_nat r, Z.of_nat j) <> Some blank).
Proof.
  intros Hb Hlen Hs. unfold find_holes.
  pose proof (Py_range_nonneg 0 10) as Hr.
  change (Z.of_nat 0) with 0 in Hr. change (Z.of_nat (0 + 10)) with 10 in Hr.
  rewrite Hr.
  destruct (holes_loop_spec (board g) surface 10 Hb Hs 0 0 ltac:(lia) ltac:(lia))
    as (n & Hrun & Hn & Hzero).
  exists n. split; [by rewrite Hrun|]. split; [exact Hn|].
  rewrite Hzero. split; intros Hall j s r Hj; apply Hall; lia.
Qed.

(** X26 at a concrete input: four full rows under an I piece. *)
Lemma find_holes_none_witness :
  exists n,
    find_holes Demo.tetris_state [4; 4; 4; 4; 4; 4; 4; 4; 4; 4] = Ok n /\
    0 <= n /\
    (n = 0 <-> forall (j : nat) (s : Z) (r : nat),
                 (j < 10)%nat -> [4; 4; 4; 4; 4; 4; 4; 4; 4; 4] !! j = Some s ->
                 Z.of_nat r < s ->
                 peek (board Demo.tetris_state) (Z.of_nat r, Z.of_nat j) <> Some blank).
Proof.
  apply (find_holes_none Demo.tetris_state [4; 4; 4; 4; 4; 4; 4; 4; 4; 4]).
  - apply demo_dims; reflexivity.
  - simpl. lia.
  - repeat apply Forall_cons; try apply Forall_nil; lia.
Defined.

(** ** The evaluator's move *)

Lemma press_step (i : input) (g : TetrominoGame) : press i g = step (input_action i) g.
Proof. by destruct i. Qed.

Lemma press_all_run (inputs : list input) (g : TetrominoGame) :
  press_all inputs g = run (map input_action inputs) g.
Proof.
  revert g. induction inputs as [|i inputs IH]; intros g; [reflexivity|].
  cbn [press_all map run]. rewrite press_step.
  destruct (step (input_action i) g); simpl; auto.
Qed.

Lemma run_app (acts1 acts2 : list action) (g : TetrominoGame) :
  run (acts1 ++ acts2) g = g1 ← run acts1 g; run acts2 g1.
Proof.
  revert g. induction acts1 as [|a acts1 IH]; intros g; [reflexivity|].
  cbn [app run]. destruct (step a g); simpl; auto.
Qed.

Lemma reachable_inv (g : TetrominoGame) :
  reachable g -> board_dims (board g) /\ piece_drawn g /\ hold_ok g.
Proof.
  intros (q & acts & g0 & Hnew & Hrun). split.
  - eapply run_dims; [|exact Hrun]. eapply new_game_dims, Hnew.
  - eapply run_inv; [|exact Hrun]. eapply new_game_inv, Hnew.
Qed.

(** A piece drawn on a board of 40 rows has its anchor in rows 0..39. *)
Lemma drawn_anchor_row (g : TetrominoGame) :
  board_dims (board g) -> piece_drawn g -> 0 <= (piece_position g).1 <= 39.
Proof.
  intros Hb (p & cur & _ & Hcur & Hall).
  destruct (piece_position g) as [y x] eqn:Epos.
  pose proof (get_filled_anchor _ _ _ _ _ Hcur) as [Hin _].
  pose proof (get_filled_anchor_bounds _ _ _ _ _ Hcur) as [Hy Hx].
  pose proof (Forall_elem_of _ _ _ Hall Hin) as Hget. cbv beta in Hget.
  rewrite board_get_peek in Hget by (simpl; lia).
  destruct (peek (board g) (y, x)) as [t|] eqn:Epk; [|discriminate].
  apply (peek_Some_on_board _ _ _ Hb) in Epk. unfold on_board in Epk. simpl in *. lia.
Qed.

(** X27: the evaluator's [move] on a state whose board has 40 rows
    of 10 cells, whose active piece is drawn and whose hold bookkeeping is
    consistent, as in every state a game reaches.  When it returns, it has
    made the engine calls its inputs name, then a soft drop; the state it
    leaves has the same three properties, and the active piece is at rest:
    [move_down] is refused there and changes nothing. *)
Theorem move_rests (inputs : list input) (g g' : TetrominoGame) :
  board_dims (board g) -> piece_drawn g -> hold_ok g ->
  move inputs g = Ok g' ->
  run (map input_action inputs ++ [SoftDrop]) g = Ok g' /\
  board_dims (board g') /\ piece_drawn g' /\ hold_ok g' /\
  move_down g' = Ok (not_moved, g').
Proof.
  intros Hb Hd Hok H. unfold move in H. bind_ok H. rename a into g1.
  rewrite press_all_run in E.
  assert (Hrun : run (map input_action inputs ++ [SoftDrop]) g = Ok g').
  { rewrite run_app, E. cbn [mbind result_bind run step]. by rewrite H. }
  split; [exact Hrun|].
  split; [exact (run_dims _ _ _ Hb Hrun)|].
  destruct (run_inv _ _ _ (conj Hd Hok) Hrun) as [Hd' Hok'].
  split; [exact Hd'|]. split; [exact Hok'|].
  pose proof (run_dims _ _ _ Hb E) as Hb1.
  destruct (run_inv _ _ _ (conj Hd Hok) E) as [Hd1 _].
  pose proof (drawn_anchor_row _ Hb1 Hd1) as Hrow.
  apply (soft_drop_stops g1 g'); [lia|exact H].
Qed.

(** X27 at a concrete input: two steps right from a reached state. *)
Lemma move_rests_witness :
  run (map input_action [in_right; in_right] ++ [SoftDrop]) Demo.beside_state
    = Ok Sample.beside_moved /\
  board_dims (board Sample.beside_moved) /\ piece_drawn Sample.beside_moved /\
  hold_ok Sample.beside_moved /\
  move_down Sample.beside_moved = Ok (not_moved, Sample.beside_moved).
Proof.
  apply (move_rests [in_right; in_right] Demo.beside_state Sample.beside_moved).
  - apply demo_dims; reflexivity.
  - apply reachable_inv, beside_state_reachable.
  - apply reachable_inv, beside_state_reachable.
  - vm_compute. reflexivity.
Defined.

(** ** The basic placements *)

Lemma basic_placements_facts (t : tag) :
  NoDup (get_basic_placements t) /\
  Forall (fun s => in_hold ∉ s) (get_basic_placements t).
Proof.
  split.
  - apply (bool_decide_unpack _). destruct t as [| |[]]; vm_compute; exact I.
  - apply (bool_decide_unpack _). destruct t as [| |[]]; vm_compute; exact I.
Qed.

(** X28: in a new game, whatever its first piece, each
    basic placement of that piece is carried out by the evaluator's [move]
    without error, and no two of them leave the piece at the same anchor in
    the same orientation. *)
Theorem basic_placements_distinct (p : piece) (rest : list piece) (g : TetrominoGame) :
  new_game (p :: rest) = Ok g ->
  exists finals,
    Forall2 (fun inputs g' => move inputs g = Ok g')
      (get_basic_placements (shape p)) finals /\
    NoDup (map (fun g' => (piece_position g', piece_orientation g')) finals).
Proof.
  intros H.
  destruct p; vm_compute in H; injection H as <-;
    (eexists; split;
     [repeat (apply Forall2_cons; [vm_compute; reflexivity|]); apply Forall2_nil
     |apply (bool_decide_unpack _); vm_compute; exact I]).
Qed.

(** X28 at a concrete input: a game that starts with
    the square. *)
Lemma basic_placements_distinct_witness :
  exists finals,
    Forall2 (fun inputs g' => move inputs Demo.fresh_state = Ok g')
      (get_basic_placements (shape pc_o)) finals /\
    NoDup (map (fun g' => (piece_position g', piece_orientation g')) finals).
Proof.
  apply (basic_placements_distinct pc_o [pc_t] Demo.fresh_state). vm_compute. reflexivity.
Defined.

Lemma hold_prefix_fresh (P Q : list (list input)) :
  NoDup P -> NoDup Q -> Forall (fun s => in_hold ∉ s) P ->
  NoDup (P ++ map (cons in_hold) Q).
Proof.
  intros HP HQ Hno. apply list.NoDup_app. split; [exact HP|]. split.
  - intros s Hs Hin. apply list_elem_of_fmap in Hin as (s' & -> & _).
    pose proof (Forall_elem_of _ _ _ Hno Hs) as Hn. apply Hn, list_elem_of_here.
  - apply (NoDup_fmap_2 _). exact HQ.
Qed.

(** X29: the children that [generate_subtrees] creates, by
    their inputs.  With nothing held they are the basic placements of the
    queue piece, then those of the next queue piece behind a hold, all
    different.  With a piece held and the hold used up they are the basic
    placements of the queue piece.  With a piece held and the hold
    available they are the basic placements of the queue piece, then those
    of the held piece behind a hold, and then these hold placements a
    second time. *)
Theorem child_inputs_by_hold (g : TetrominoGame) (l : list (list input)) :
  child_inputs g = Ok l ->
  exists piece,
    queue_at g (queue_position g) = Ok piece /\
    let P := get_basic_placements piece in
    let H := map (cons in_hold) (get_basic_placements (held g)) in
    (held g = blank ->
     exists nxt,
       queue_at g (queue_position g + 1) = Ok nxt /\
       l = P ++ map (cons in_hold) (get_basic_placements nxt) /\ NoDup l) /\
    (held g <> blank -> hold g = true -> l = P /\ NoDup l) /\
    (held g <> blank -> hold g = false -> l = P ++ H ++ H /\ NoDup (P ++ H)).
Proof.
  intros Hl. unfold child_inputs in Hl. bind_ok Hl. rename a into piece.
  exists piece. split; [exact E|]. cbv zeta in *.
  destruct (basic_placements_facts piece) as [HP HnoP].
  destruct (bool_decide (held g = blank)) eqn:Eheld.
  - apply bool_decide_eq_true in Eheld. cbn [negb andb] in Hl.
    bind_ok Hl. bind_ok E0. rename a0 into nxt. injection E0 as <-.
    injection Hl as <-.
    split; [|split; intros; contradiction].
    intros _. exists nxt. split; [exact E1|]. split; [reflexivity|].
    apply hold_prefix_fresh; [exact HP| |exact HnoP].
    apply basic_placements_facts.
  - apply bool_decide_eq_false in Eheld. cbn [negb andb] in Hl.
    split; [intros; contradiction|].
    destruct (hold g) eqn:Ehold; cbn [negb] in Hl;
      cbn [mbind result_bind] in Hl; injection Hl as <-.
    + split; [|intros _ Hc; discriminate]. intros _ _.
      rewrite app_nil_r. split; [reflexivity|exact HP].
    + split; [intros _ Hc; discriminate|]. intros _ _.
      split; [by rewrite <- app_assoc|].
      apply hold_prefix_fresh; [exact HP| |exact HnoP].
      apply basic_placements_facts.
Qed.

(** X29 at a concrete input: the T piece held, the hold
    available. *)
Lemma child_inputs_by_hold_witness :
  exists piece,
    queue_at Sample.t_held_locked (queue_position Sample.t_held_locked) = Ok piece /\
    let P := get_basic_placements piece in
    let H := map (cons in_hold) (get_basic_placements (held Sample.t_held_locked)) in
    (held Sample.t_held_locked = blank ->
     exists nxt,
       queue_at Sample.t_held_locked (queue_position Sample.t_held_locked + 1) = Ok nxt /\
       Sample.children = P ++ map (cons in_hold) (get_basic_placements nxt) /\
       NoDup Sample.children) /\
    (held Sample.t_held_locked <> blank -> hold Sample.t_held_locked = true ->
     Sample.children = P /\ NoDup Sample.children) /\
    (held Sample.t_held_locked <> blank -> hold Sample.t_held_locked = false ->
     Sample.children = P ++ H ++ H /\ NoDup (P ++ H)).
Proof.
  apply (child_inputs_by_hold Sample.t_held_locked Sample.children).
  vm_compute. reflexivity.
Defined.

(** ** A lock that clears rows *)

Lemma tiled_as_nat (tiled : list Z) :
  StronglySorted Z.lt tiled ->
  Forall (fun i => 0 <= i < 40) tiled ->
  tiled = map Z.of_nat (map Z.to_nat tiled) /\
  StronglySorted lt (map Z.to_nat tiled) /\
  Forall (fun k => k < 40)%nat (map Z.to_nat tiled).
Proof.
  intros Hs Hb. induction Hs as [|i l Hl IH Hi]; [repeat constructor|].
  apply Forall_cons_1 in Hb as [Hb0 Hb].
  destruct (IH Hb) as (Heq & Hsn & Hbn). cbn [map]. split; [|split].
  - f_equal; [lia|exact Heq].
  - constructor; [exact Hsn|]. apply Forall_forall. intros k Hk.
    apply in_map_iff in Hk as (j & <- & Hj).
    rewrite Forall_forall in Hi, Hb. specialize (Hi j Hj). specialize (Hb j Hj). lia.
  - constructor; [lia|exact Hbn].
Qed.

(** X30: a lock that clears rows, on a board of 40
    rows of 10 cells whose three top rows are not full and with the anchor in
    rows 0..36.  The rows it reports are, in increasing order, exactly the
    full rows within three of the anchor row; the board on which the next
    piece is spawned consists of the other rows, in their order, under as
    many empty rows as rows were cleared. *)
Theorem lock_piece_clears_full_rows (rnd : nat -> nat) (g g' : TetrominoGame)
    (raw pt : Z) (tiled : list Z) :
  board_dims (board g) ->
  0 <= (piece_position g).1 <= 36 ->
  (forall i row, (37 <= i <= 39)%nat -> board g !! i = Some row -> row_full row = false) ->
  lock_piece rnd g = Ok ((raw, tiled, pt), g') ->
  tiled <> [] ->
  exists (rows : list nat) (g1 g2 : TetrominoGame),
    tiled = map Z.of_nat rows /\
    StronglySorted lt rows /\
    (forall i : nat,
        i ∈ rows <->
        (piece_position g).1 - 3 <= Z.of_nat i <= (piece_position g).1 + 3 /\
        exists row, board g !! i = Some row /\ row_full row = true) /\
    board g1 = rows_except_from 0 rows (board g) ++ replicate (length rows) empty_row /\
    next_piece g1 = Ok g2 /\
    board g' = board g2.
Proof.
  intros Hb Hy Htop H Hne.
  apply lock_piece_Ok in H
    as (spin & tiled' & raw' & pt' & g1 & g2 & _ & Hscan & Hbranch & Hnext & Hout & ->).
  injection Hout as -> -> ->. rename tiled' into tiled.
  destruct tiled as [|i0 rest0] eqn:Et; [contradiction|]. rewrite <- Et in *. clear Et Hne.
  destruct (check_tiled_rows_low (set_hold false g) (proj1 Hb) Hy Htop)
    as (tiled2 & Hscan' & Hsorted & Hmem).
  rewrite Hscan in Hscan'. injection Hscan' as <-.
  cbn [piece_position board set_hold] in Hmem.
  assert (Hrange : Forall (fun i => 0 <= i < 40) tiled).
  { apply Forall_forall. intros i Hi. apply list_elem_of_In, Hmem in Hi. lia. }
  destruct (tiled_as_nat tiled Hsorted Hrange) as (Heq & Hsn & Hbn).
  apply lock_clear_Ok in Hbranch
    as (base & combo & b' & unspent & pend & _ & _ & Hrem & _ & _ & _ & _ & _ & Hb1 & _).
  cbn [board set_hold] in Hrem.
  exists (map Z.to_nat tiled), (set_previous_action act_lock g1), g2.
  split; [exact Heq|]. split; [exact Hsn|]. split; [|split; [|split]].
  - intros i. rewrite list_elem_of_fmap. split.
    + intros (z & -> & Hz). apply Hmem in Hz as (Hz0 & Hz & Hex).
      rewrite Z2Nat.id by lia. split; [lia|exact Hex].
    + intros (Hi & Hex). exists (Z.of_nat i). split; [by rewrite Nat2Z.id|].
      apply Hmem. rewrite Nat2Z.id. split; [lia|]. split; [lia|exact Hex].
  - cbn [board set_previous_action]. rewrite Hb1.
    rewrite Heq in Hrem at 1.
    rewrite remove_rows_descending_plain in Hrem;
      [by injection Hrem as <-|exact Hsn|].
    rewrite (proj1 Hb). exact Hbn.
  - exact Hnext.
  - reflexivity.
Qed.

(** X30 at a concrete input: a lock that clears four
    rows. *)
Lemma lock_piece_clears_full_rows_witness :
  exists (rows : list nat) (g1 g2 : TetrominoGame),
    [0; 1; 2; 3] = map Z.of_nat rows /\
    StronglySorted lt rows /\
    (forall i : nat,
        i ∈ rows <->
        (piece_position Demo.tetris_state).1 - 3 <= Z.of_nat i
          <= (piece_position Demo.tetris_state).1 + 3 /\
        exists row, board Demo.tetris_state !! i = Some row /\ row_full row = true) /\
    board g1 = rows_except_from 0 rows (board Demo.tetris_state)
                 ++ replicate (length rows) empty_row /\
    next_piece g1 = Ok g2 /\
    board Demo.tetris_locked = board g2.
Proof.
  apply (lock_piece_clears_full_rows Demo.rnd0 Demo.tetris_state Demo.tetris_locked
           4 3 [0; 1; 2; 3]).
  - apply demo_dims; reflexivity.
  - simpl. lia.
  - intros i row Hi Hrow.
    assert (Hcases : i = 37%nat \/ i = 38%nat \/ i = 39%nat) by lia.
    destruct Hcases as [-> | [-> | ->]]; vm_compute in Hrow; injection Hrow as <-; reflexivity.
  - vm_compute. reflexivity.
  - discriminate.
Defined.
